(** * S52 / S57: a shallow embedding of the geometry store and of the
      frame, pick and complex-line code of the S-52 renderer

    Sources embedded here: [src/S57data.c] (primitive buffer, extent,
    attributes, SCAMIN, touch references, centroid cache, PROJ set-up,
    chain nodes, point in polygon) and [src/S52GL.c] (begin/end cycle,
    viewport, cursor-pick colour index, Cohen-Sutherland clipping,
    complex-line renderer, vertex-buffer draw calls, stipple textures,
    closed-polygon centroid, matrix stacks).

    Conventions.
    - C [int] and [guint] are 32-bit: values are kept in [Z] and every
      conversion is written with [to_int] / [to_guint].
    - A C [double] is a binary64 [float]; every operation on doubles is
      the IEEE 754 one, rounded to nearest-even on its own (no extended
      precision, no fused multiply-add), [sqrt] included.  The other
      functions of [<math.h>] are parameters.
    - A [GLfloat] or [vertex_t] obtained from a double (the GLES2 build) is
      the double rounded to binary32.
    - The matrix stacks of [S52GL.c] alone are kept on exact rationals [Q];
      what is proved of them does not depend on the value of any entry but
      the identity's.
    - [g_assert(0)] stops the process when assertions are compiled in and
      is skipped when glib is built with [G_DISABLE_ASSERT]; which of the
      two holds is the [asserts] flag of the build.
    - A [GArray] is the list of its elements, [->len] its length. *)

From Stdlib Require Import ZArith List Bool String Lia QArith Qround Lqa PrimFloat Floats.
From stdpp Require Import base option list gmap strings.
Import ListNotations.

Local Open Scope Z_scope.

(** ** C integers *)

Definition to_guint (z : Z) : Z := z mod 2 ^ 32.
Definition to_int (z : Z) : Z := (z + 2 ^ 31) mod 2 ^ 32 - 2 ^ 31.
Definition to_GLubyte (z : Z) : Z := z mod 2 ^ 8.

Definition TRUE : Z := 1.
Definition FALSE : Z := 0.

(** ** C doubles *)

(** The integer part of a double, when it has one (not NaN, not
    infinite). *)
Definition trunc_double (d : float) : option Z :=
  match Prim2SF d with
  | S754_zero _ => Some 0
  | S754_finite s m e =>
      let a := if 0 <=? e then Z.pos m * 2 ^ e else Z.pos m / 2 ^ (- e) in
      Some (if s then - a else a)
  | _ => None
  end.

(** [(int) d]: truncation towards zero, defined when the result fits. *)
Definition double_to_int (d : float) : option Z :=
  match trunc_double d with
  | Some z => if (- 2 ^ 31 <=? z) && (z <? 2 ^ 31) then Some z else None
  | None => None
  end.

(** The rational number a finite double stands for. *)
Definition double_value (d : float) : option Q :=
  match Prim2SF d with
  | S754_zero _ => Some 0%Q
  | S754_finite s m e =>
      let q := if 0 <=? e then inject_Z (Z.pos m * 2 ^ e)
               else Qmake (Z.pos m) (Z.to_pos (2 ^ (- e))) in
      Some (if s then Qopp q else q)
  | _ => None
  end.

(** [(GLfloat) d], [(vertex_t) d]: the binary32 number nearest to [d],
    ties to even, infinite from [2^128 - 2^103] on. *)
Definition to_GLfloat (d : float) : float :=
  match Prim2SF d with
  | S754_finite s m e => SF2Prim (binary_normalize 24 128 (cond_Zopp s (Z.pos m)) e s)
  | _ => d
  end.

(** ** Outcome of a call that may run into [g_assert(0)] *)

Inductive outcome (A : Type) : Type :=
| Ret (a : A)
| Abort.
Arguments Ret {A} a.
Arguments Abort {A}.

#[export] Instance outcome_bind : MBind outcome := fun A B k m =>
  match m with
  | Ret a => k a
  | Abort => Abort
  end.

#[export] Instance outcome_ret : MRet outcome := fun A a => Ret a.

(** [g_assert(0)]: fatal with assertions compiled in, a no-op without. *)
Definition g_assert_0 (asserts : bool) : outcome unit :=
  if asserts then Abort else Ret tt.

Module S57data.

(** *** Primitive buffer: [_prim], [_S57_prim] *)

Definition vertex : Type := (float * float * float)%type.

Record _prim : Type := mk_prim {
  mode : Z;
  first : Z;
  count : Z
}.

Record S57_prim : Type := mk_S57_prim {
  list_ : list _prim;     (* GArray *list   *)
  vertex_ : list vertex;  (* GArray *vertex *)
  DList : Z
}.

Definition len {A : Type} (a : list A) : Z := Z.of_nat (length a).

(** [S57_initPrim]: allocate an empty holder, or empty the given one. *)
Definition S57_initPrim (prim : option S57_prim) : S57_prim :=
  match prim with
  | None => mk_S57_prim [] [] 0
  | Some p => mk_S57_prim [] [] (DList p)
  end.

(** [S57_begPrim].  [p.count] is not initialised by the source: [junk] is
    whatever the stack held. *)
Definition S57_begPrim (prim : S57_prim) (mode junk : Z) : Z * S57_prim :=
  let p := mk_prim mode (to_int (len (vertex_ prim))) junk in
  (TRUE, mk_S57_prim (list_ prim ++ [p]) (vertex_ prim) (DList prim)).

(** [S57_endPrim] writes [count] of the last span.  On an empty span list
    the source indexes element [len-1] of an empty array: no defined
    result, [None]. *)
Definition S57_endPrim (prim : S57_prim) : option (Z * S57_prim) :=
  match List.rev (list_ prim) with
  | [] => None
  | p :: before =>
      let p' := mk_prim (mode p) (first p)
                  (to_int (to_guint (len (vertex_ prim) - to_guint (first p)))) in
      Some (TRUE, mk_S57_prim (List.rev before ++ [p']) (vertex_ prim) (DList prim))
  end.

(** [S57_addPrimVertex]: one xyz triple. *)
Definition S57_addPrimVertex (prim : S57_prim) (ptr : vertex) : Z * S57_prim :=
  (TRUE, mk_S57_prim (list_ prim) (vertex_ prim ++ [ptr]) (DList prim)).

(** [S57_getPrimIdx]. *)
Definition S57_getPrimIdx (prim : S57_prim) (i : Z) : option (Z * Z * Z) :=
  if len (list_ prim) <=? i then None
  else match nth_error (list_ prim) (Z.to_nat i) with
       | Some p => Some (mode p, first p, count p)
       | None => None
       end.

(** Calls made on one buffer by the tessellator and HPGL callbacks
    ([_glBegin], [_vertex3f]/[_vertex3d], [_glEnd] of S52GL.c). *)
Inductive prim_op : Type :=
| BegPrim (mode junk : Z)
| AddVertex (v : vertex)
| EndPrim.

Definition run_op (prim : S57_prim) (o : prim_op) : option S57_prim :=
  match o with
  | BegPrim m j => Some (snd (S57_begPrim prim m j))
  | AddVertex v => Some (snd (S57_addPrimVertex prim v))
  | EndPrim => option_map snd (S57_endPrim prim)
  end.

Fixpoint run_ops (ops : list prim_op) (prim : S57_prim) : option S57_prim :=
  match ops with
  | [] => Some prim
  | o :: rest =>
      match run_op prim o with
      | Some prim' => run_ops rest prim'
      | None => None
      end
  end.

(** Properly bracketed: every vertex lies between a begin and its end,
    spans do not nest, the last span is closed. *)
Fixpoint bracketed_from (inside : bool) (ops : list prim_op) : bool :=
  match ops with
  | [] => negb inside
  | BegPrim _ _ :: rest => negb inside && bracketed_from true rest
  | AddVertex _ :: rest => inside && bracketed_from true rest
  | EndPrim :: rest => inside && bracketed_from false rest
  end.

Definition bracketed (ops : list prim_op) : bool := bracketed_from false ops.

Definition sum_count (l : list _prim) : Z :=
  fold_right (fun p acc => count p + acc) 0 l.

(** [_QUADRIC_TRANSLATE] of S52GL.c: the span mode whose single vertex is
    a translation. *)
Definition _QUADRIC_TRANSLATE : Z := 10.

(** *** File-scope state of S57data.c *)

(** The console: the format strings handed to [PRINTF], oldest first. *)
Definition console : Type := list string.

(** [_pjsrc], [_pjdst], [_pjstr], [_doInit]; [silent], the [static int] of
    [S57_getAttVal]; the console. *)
Record statics : Type := mk_statics {
  _pjsrc : option Z;
  _pjdst : option Z;
  _pjstr : option string;
  _doInit : bool;
  silent : bool;
  stdout : console
}.

Definition PRINTF (st : statics) (msgs : list string) : statics :=
  mk_statics (_pjsrc st) (_pjdst st) (_pjstr st) (_doInit st) (silent st)
    (stdout st ++ msgs).

Definition set_silent (st : statics) (b : bool) : statics :=
  mk_statics (_pjsrc st) (_pjdst st) (_pjstr st) (_doInit st) b (stdout st).

Definition set_pj (st : statics) (dst : option Z) (str : option string) : statics :=
  mk_statics (_pjsrc st) dst str (_doInit st) (silent st) (stdout st).

(** *** Feature record: [_rect], [_S57_geo] *)

Record _rect : Type := mk_rect {
  x1 : float;   (* W *)
  y1 : float;   (* S *)
  x2 : float;   (* E *)
  y2 : float    (* N *)
}.

Inductive S52_Obj_t : Type := _META_T | AREAS_T | LINES_T | POINT_T.

Definition pt2 : Type := (float * float)%type.

(** A pointer to another feature: its address; [None] is [NULL]. *)
Definition geo_ptr : Type := option positive.

(** The fields of [_S57_geo] used below.  The four members of the C
    [union touch] share one word of storage: one field. *)
Record S57_geo : Type := mk_geo {
  id : Z;
  name : string;
  obj_t : S52_Obj_t;
  rect : _rect;
  dataSize : Z;
  prim : option S57_prim;
  attribs : gmap string string;
  touch : geo_ptr;
  scamin : float;
  centroidIdx : Z;
  centroid : option (list pt2);
  highlight : Z
}.

Definition set_rect (g : S57_geo) (r : _rect) : S57_geo :=
  mk_geo (id g) (name g) (obj_t g) r (dataSize g) (prim g) (attribs g)
    (touch g) (scamin g) (centroidIdx g) (centroid g) (highlight g).

Definition set_attribs (g : S57_geo) (a : gmap string string) : S57_geo :=
  mk_geo (id g) (name g) (obj_t g) (rect g) (dataSize g) (prim g) a
    (touch g) (scamin g) (centroidIdx g) (centroid g) (highlight g).

Definition set_touch (g : S57_geo) (t : geo_ptr) : S57_geo :=
  mk_geo (id g) (name g) (obj_t g) (rect g) (dataSize g) (prim g) (attribs g)
    t (scamin g) (centroidIdx g) (centroid g) (highlight g).

Definition set_centroid (g : S57_geo) (i : Z) (c : option (list pt2)) : S57_geo :=
  mk_geo (id g) (name g) (obj_t g) (rect g) (dataSize g) (prim g) (attribs g)
    (touch g) (scamin g) i c (highlight g).

(** *** Extent *)

Definition isinf (x : float) : bool := PrimFloat.is_infinity x.

(** [S57_setExt]: the only test is the assertion on [x1] and [x2] both
    infinite; the four values are then stored as given. *)
Definition S57_setExt (asserts : bool) (geoData : S57_geo)
    (x1 y1 x2 y2 : float) (st : statics) : outcome (Z * S57_geo * statics) :=
  st1 ← (if isinf x1 && isinf x2
         then g_assert_0 asserts;;
              Ret (PRINTF st ["DEBUG: %s: LL: %f, %f  UR: %f, %f"%string])
         else Ret st);
  Ret (TRUE, set_rect geoData (mk_rect x1 y1 x2 y2), st1).

Definition S57_getExt (geoData : S57_geo) : Z * (float * float * float * float) :=
  (TRUE, (x1 (rect geoData), y1 (rect geoData), x2 (rect geoData), y2 (rect geoData))).

(** *** Attributes *)

Definition EMPTY_NUMBER_MARKER : string := "2147483641".

(** [S57_getAttVal]: the result [None] is [NULL]. *)
Definition S57_getAttVal (geoData : S57_geo) (att_name : string) (st : statics)
    : option string * statics :=
  let att := attribs geoData !! att_name in
  match att with
  | Some str =>
      if String.eqb str EMPTY_NUMBER_MARKER then (None, st)
      else if negb (silent st) && (Z.of_nat (String.length str) =? 0)
      then (None,
            set_silent
              (PRINTF st ["NOTE: attribute (%s) has no value [obj:%s]"%string;
                          "      (this msg will not repeat)"%string])
              true)
      else (Some str, st)
  | None => (None, st)
  end.

(** [S57_setAtt]. *)
Definition S57_setAtt (geoData : S57_geo) (name val : string) : S57_geo :=
  set_attribs geoData (<[name := val]> (attribs geoData)).

(** *** Touch references *)

Inductive touch_role : Type := TOPMAR | LIGHTS | DEPARE | DEPVAL.

Definition S57_setTouchTOPMAR (geo : S57_geo) (touch : geo_ptr) : Z * S57_geo :=
  (TRUE, set_touch geo touch).
Definition S57_getTouchTOPMAR (geo : S57_geo) : geo_ptr := touch geo.

Definition S57_setTouchLIGHTS (geo : S57_geo) (touch : geo_ptr) : Z * S57_geo :=
  (TRUE, set_touch geo touch).
Definition S57_getTouchLIGHTS (geo : S57_geo) : geo_ptr := touch geo.

Definition S57_setTouchDEPARE (geo : S57_geo) (touch : geo_ptr) : Z * S57_geo :=
  (TRUE, set_touch geo touch).
Definition S57_getTouchDEPARE (geo : S57_geo) : geo_ptr := touch geo.

Definition S57_setTouchDEPVAL (geo : S57_geo) (touch : geo_ptr) : Z * S57_geo :=
  (TRUE, set_touch geo touch).
Definition S57_getTouchDEPVAL (geo : S57_geo) : geo_ptr := touch geo.

Definition S57_setTouch (r : touch_role) : S57_geo -> geo_ptr -> Z * S57_geo :=
  match r with
  | TOPMAR => S57_setTouchTOPMAR
  | LIGHTS => S57_setTouchLIGHTS
  | DEPARE => S57_setTouchDEPARE
  | DEPVAL => S57_setTouchDEPVAL
  end.

Definition S57_getTouch (r : touch_role) : S57_geo -> geo_ptr :=
  match r with
  | TOPMAR => S57_getTouchTOPMAR
  | LIGHTS => S57_getTouchLIGHTS
  | DEPARE => S57_getTouchDEPARE
  | DEPVAL => S57_getTouchDEPVAL
  end.

(** *** Centroid cache *)

(** [S57_newCentroid]: a fresh array, or the old one cut to length 0. *)
Definition S57_newCentroid (geo : S57_geo) : Z * S57_geo :=
  (TRUE, set_centroid geo 0 (Some [])).

(** [S57_addCentroid].  [g_array_append_val] on a [NULL] array appends
    nothing. *)
Definition S57_addCentroid (geo : S57_geo) (x y : float) : Z * S57_geo :=
  (TRUE, set_centroid geo (centroidIdx geo)
           (option_map (fun c => c ++ [(x, y)]) (centroid geo))).

(** [S57_getNextCentroid]: the pair is what is written to [*x], [*y]. *)
Definition S57_getNextCentroid (geo : S57_geo) : Z * option pt2 * S57_geo :=
  match centroid geo with
  | None => (FALSE, None, geo)
  | Some c =>
      if centroidIdx geo <? len c then
        match nth_error c (Z.to_nat (centroidIdx geo)) with
        | Some pt => (TRUE, Some pt,
                      set_centroid geo (to_guint (centroidIdx geo + 1)) (Some c))
        | None => (FALSE, None, geo)      (* not reached: the index is in range *)
        end
      else (FALSE, None, geo)
  end.

(** [S57_hasCentroid]. *)
Definition S57_hasCentroid (geo : S57_geo) : Z * S57_geo :=
  let geo1 := match centroid geo with
              | None => snd (S57_newCentroid geo)
              | Some c => set_centroid geo 0 (Some c)
              end in
  match centroid geo1 with
  | Some c => if len c =? 0 then (FALSE, geo1) else (TRUE, geo1)
  | None => (FALSE, geo1)
  end.

(** [n] successive calls of [S57_getNextCentroid]; results in call
    order. *)
Fixpoint next_n (n : nat) (geo : S57_geo) : list (Z * option pt2) * S57_geo :=
  match n with
  | O => ([], geo)
  | S n' =>
      let '(r, pt, geo1) := S57_getNextCentroid geo in
      let '(rs, geo2) := next_n n' geo1 in
      ((r, pt) :: rs, geo2)
  end.

(** [S57_addCentroid] for each point of [pts], first to last. *)
Definition add_all (pts : list pt2) (geo : S57_geo) : S57_geo :=
  fold_left (fun g p => snd (S57_addCentroid g (fst p) (snd p))) pts geo.

(** *** Mercator projection set-up *)

Section PROJ.

(** PROJ.4's [pj_init_plus]: a handle, or [None] on failure. *)
Variable pj_init_plus : string -> option Z.
(** [printf]'s ["%.6f"] conversion of a double. *)
Variable fmt_f6 : float -> string.

Definition templ (lat lon : float) : string :=
  ("+proj=merc +lat_ts=" ++ fmt_f6 lat ++ " +lon_0=" ++ fmt_f6 lon
    ++ " +ellps=WGS84 +datum=WGS84 +unit=m")%string.

(** [S57_setMercPrj]. *)
Definition S57_setMercPrj (asserts : bool) (lat lon : float) (st : statics)
    : outcome (Z * statics) :=
  match _pjstr st with
  | Some _ =>
      Ret (FALSE, PRINTF st ["WARNING: Merc projection allready set"%string])
  | None =>
      let str := templ lat lon in
      let st1 := PRINTF (set_pj st (_pjdst st) (Some str))
                   ["DEBUG: lat:%f, lon:%f [%s]"%string] in
      match pj_init_plus str with
      | None =>
          let st2 := PRINTF (set_pj st1 None (Some str))
                       ["ERROR: init pjdst PROJ4 (lat:%f) [%s]"%string] in
          g_assert_0 asserts;;
          Ret (FALSE, st2)
      | Some pj => Ret (TRUE, set_pj st1 (Some pj) (Some str))
      end
  end.

Definition S57_getPrjStr (st : statics) : option string := _pjstr st.

(** Repeated calls of [S57_setMercPrj]; the results come in call
    order. *)
Fixpoint setMercPrj_all (asserts : bool) (calls : list (float * float))
    (st : statics) : outcome (list Z * statics) :=
  match calls with
  | [] => Ret ([], st)
  | (lat, lon) :: rest =>
      r ← S57_setMercPrj asserts lat lon st;
      rs ← setMercPrj_all asserts rest (snd r);
      Ret (fst r :: fst rs, snd rs)
  end.

End PROJ.

End S57data.

Module S52GL.

Import S57data.

(** Build modelled: [S52_USE_GLES2] defined, [S52_USE_GV] and
    [S52_USE_RADAR] not.  The GL context and the matrix stacks (with their
    flag [_identity_MODELVIEW]) are not part of [gl_state]: the calls into
    the GL driver and the sub-routines working on them ([S52_GL_init],
    [_contextValid], [_doProjection], [_createSymb], [_glMatrixSet],
    [_glMatrixDel], the NODATA renderers, ...) are not followed by the
    frame functions below.  These give the frame state (whether a cycle
    is begun and which, the pick index and list, the view port, the pixel
    buffer) and the messages of the frame functions themselves, not what
    the sub-routines print nor the assertions these can reach. *)

(** *** Frame state *)

(** [S52_GL_cycle] (S52GL.h): the enumerators used in S52GL.c. *)
Inductive S52_GL_cycle : Type :=
| S52_GL_NONE | S52_GL_DRAW | S52_GL_LAST | S52_GL_BLIT | S52_GL_PICK.

Definition cycle_eqb (c d : S52_GL_cycle) : bool :=
  match c, d with
  | S52_GL_NONE, S52_GL_NONE | S52_GL_DRAW, S52_GL_DRAW
  | S52_GL_LAST, S52_GL_LAST | S52_GL_BLIT, S52_GL_BLIT
  | S52_GL_PICK, S52_GL_PICK => true
  | _, _ => false
  end.

(** [struct col]: four [GLubyte]. *)
Record col : Type := mk_col { r : Z; g : Z; b : Z; a : Z }.

(** Command words of an object, as [S52_PL_iniCmd] / [S52_PL_getCmdNext]
    hand them out before [S52_CMD_NONE]. *)
Inductive S52_CmdWrd : Type :=
| S52_CMD_SYM_PT | S52_CMD_SIM_LN | S52_CMD_COM_LN | S52_CMD_ARE_CO
| S52_CMD_ARE_PA | S52_CMD_TXT_TX | S52_CMD_TXT_TE | S52_CMD_CND_SY
| S52_CMD_OVR_PR.

(** An [S52_obj *]: its address and its command words. *)
Record S52_obj : Type := mk_obj {
  obj_addr : positive;
  obj_cmds : list S52_CmdWrd
}.

Record gl_state : Type := mk_gl {
  _GL_BEGIN : bool;
  _crnt_GL_cycle : S52_GL_cycle;
  _cIdx : col;
  _objPick : list S52_obj;
  _fb_update : bool;
  _fb_pixels : bool;            (* the buffer is allocated (not NULL) *)
  _fb_pixels_size : Z;
  _vp : Z * Z * Z * Z;
  _nobj : Z;
  _ncmd : Z;
  gl_out : console
}.

Definition _fb_format : Z := 4.  (* RGBA *)

(** State of a freshly loaded S52GL.c. *)
Definition gl_initial : gl_state :=
  mk_gl false S52_GL_NONE (mk_col 0 0 0 0) [] true false 0 (0, 0, 0, 0) 0 0 [].

(** [0==_vp[0] && 0==_vp[1] && 0==_vp[2] && 0==_vp[3]] *)
Definition vp_unset (vp : Z * Z * Z * Z) : bool :=
  let '(x, y, w, h) := vp in (x =? 0) && (y =? 0) && (w =? 0) && (h =? 0).

Definition vp_width (vp : Z * Z * Z * Z) : Z := snd (fst vp).    (* _vp[2] *)
Definition vp_height (vp : Z * Z * Z * Z) : Z := snd vp.         (* _vp[3] *)

Definition CHECK_GL_END (asserts : bool) (st_begin : bool) (out : console)
    : outcome console :=
  if st_begin
  then g_assert_0 asserts;; Ret (out ++ ["ERROR: already inside glBegin()"%string])
  else Ret out.

Definition CHECK_GL_BEGIN (asserts : bool) (st_begin : bool) (out : console)
    : outcome console :=
  if negb st_begin
  then g_assert_0 asserts;; Ret (out ++ ["ERROR: not inside glBegin()"%string])
  else Ret out.

(** [S52_GL_begin].  [gl_viewport] is what [glGetIntegerv(GL_VIEWPORT)]
    answers. *)
Definition S52_GL_begin (asserts : bool) (gl_viewport : Z * Z * Z * Z)
    (cycle : S52_GL_cycle) (st : gl_state) : outcome (Z * gl_state) :=
  out1 ← CHECK_GL_END asserts (_GL_BEGIN st) (gl_out st);
  out2 ← (if negb (cycle_eqb S52_GL_NONE (_crnt_GL_cycle st))
          then g_assert_0 asserts;;
               Ret (out1 ++ ["WARNING: S52_GL_cycle out of sync"%string])
          else Ret out1);
  let crnt := cycle in
  let pick := cycle_eqb S52_GL_PICK crnt in
  let cIdx := if pick then mk_col 0 0 0 0 else _cIdx st in
  let objPick := if pick then [] else _objPick st in
  let '(vp, out3) :=
    if vp_unset (_vp st)
    then (gl_viewport, out2 ++ ["WARNING: Viewport default to (%i,%i,%i,%i)"%string])
    else (_vp st, out2) in
  fb ← (if _fb_pixels_size st <? to_guint (vp_width vp * vp_height vp * _fb_format)
        then g_assert_0 asserts;;
             Ret (false, out3 ++ ["ERROR: pixels buffer overflow: fb_pixels_size=%i, VP=%i "%string])
        else Ret (_fb_pixels st, out3));
  let fb_update :=
    if cycle_eqb S52_GL_DRAW crnt then _fb_update st
    else if cycle_eqb S52_GL_LAST crnt then false
    else _fb_update st in
  Ret (TRUE, mk_gl true crnt cIdx objPick fb_update (fst fb)
               (_fb_pixels_size st) vp (_nobj st) (_ncmd st) (snd fb)).

(** [S52_GL_end]. *)
Definition S52_GL_end (asserts : bool) (cycle : S52_GL_cycle) (st : gl_state)
    : outcome (Z * gl_state) :=
  out1 ← CHECK_GL_BEGIN asserts (_GL_BEGIN st) (gl_out st);
  out2 ← (if negb (cycle_eqb cycle (_crnt_GL_cycle st))
          then g_assert_0 asserts;;
               Ret (out1 ++ ["WARNING: S52_GL_mode out of sync"%string])
          else Ret out1);
  let crnt := cycle in
  let fb_update := if cycle_eqb S52_GL_DRAW crnt then true else _fb_update st in
  Ret (TRUE, mk_gl false S52_GL_NONE (_cIdx st)
               (_objPick st) fb_update (_fb_pixels st) (_fb_pixels_size st)
               (_vp st) (_nobj st) (_ncmd st) out2).

(** *** Cursor pick *)

(** Commands counted in [_ncmd] by [S52_GL_draw]. *)
Definition counted (c : S52_CmdWrd) : bool :=
  match c with
  | S52_CMD_SYM_PT | S52_CMD_SIM_LN | S52_CMD_COM_LN
  | S52_CMD_ARE_CO | S52_CMD_ARE_PA => true
  | _ => false
  end.

(** [S52_GL_draw].  The renderers of the command words ([_renderSY],
    [_renderLS], ...) draw with [_cIdx] as colour in a PICK cycle and are
    not followed here.  [pixelsRead] is what [glReadPixels] then stores
    for the 8x8 window; its first 64 pixels are looked at. *)
Definition S52_GL_draw (obj : S52_obj) (pixelsRead : list col) (st : gl_state)
    : Z * gl_state :=
  let pick := cycle_eqb S52_GL_PICK (_crnt_GL_cycle st) in
  let cIdx :=
    if pick
    then mk_col (to_GLubyte (r (_cIdx st) + 1)) (g (_cIdx st)) (b (_cIdx st)) (a (_cIdx st))
    else _cIdx st in
  let nobj := to_guint (_nobj st + 1) in
  let ncmd := to_guint (_ncmd st + len (filter (fun c => counted c = true) (obj_cmds obj))) in
  let found := existsb (fun px => r px =? r cIdx) (firstn 64 pixelsRead) in
  let '(objPick, out1) :=
    if pick && found
    then (_objPick st ++ [obj],
          gl_out st ++ ["pixel found (%i, %i): i=%i color=%X"%string])
    else (_objPick st, gl_out st) in
  (TRUE, mk_gl (_GL_BEGIN st) (_crnt_GL_cycle st) cIdx
           objPick (_fb_update st) (_fb_pixels st) (_fb_pixels_size st) (_vp st)
           nobj ncmd out1).

(** The colour index under which a feature is rendered and looked up:
    [_cIdx.color.r] as [S52_GL_draw] leaves it. *)
Definition colour_index (st : gl_state) : Z := r (_cIdx st).

(** Draw the features of a cycle in order; the result lists, for every
    feature, the colour index of its draw, then the final state. *)
Fixpoint draw_all (objs : list (S52_obj * list col)) (st : gl_state)
    : list Z * gl_state :=
  match objs with
  | [] => ([], st)
  | (obj, px) :: rest =>
      let st1 := snd (S52_GL_draw obj px st) in
      let '(idxs, st2) := draw_all rest st1 in
      (colour_index st1 :: idxs, st2)
  end.

(** *** View rectangle and Cohen-Sutherland clipping *)

(** [projUV]; [_pmin] and [_pmax] are the corners of the projected view. *)
Record projUV : Type := mk_uv { u : float; v : float }.

Record view : Type := mk_view { _pmin : projUV; _pmax : projUV }.

Definition _RIGHT : Z := 8.
Definition _TOP : Z := 4.
Definition _LEFT : Z := 2.
Definition _BOTTOM : Z := 1.
Definition _CENTER : Z := 0.

(** [_computeOutCode]; [a > b] on doubles is [b <? a]. *)
Definition _computeOutCode (vw : view) (x y : float) : Z :=
  let code := _CENTER in
  let code :=
    if (v (_pmax vw) <? y)%float then Z.lor code _TOP
    else if (y <? v (_pmin vw))%float then Z.lor code _BOTTOM
    else code in
  let code :=
    if (u (_pmax vw) <? x)%float then Z.lor code _RIGHT
    else if (x <? u (_pmin vw))%float then Z.lor code _LEFT
    else code in
  code.

(** A segment: [(x1, y1, x2, y2)]. *)
Definition segment : Type := (float * float * float * float)%type.

(** One pass through the body of the [do ... while (!done)] loop of
    [_clipToView]. *)
Inductive clip_pass : Type :=
| Done (accept : Z)
| Again (x1 y1 x2 y2 : float) (outcode1 outcode2 : Z)
| Uninitialised.      (* x and y would be read without having been set *)

Definition clip_body (vw : view) (x1 y1 x2 y2 : float) (outcode1 outcode2 : Z)
    : clip_pass :=
  if Z.lor outcode1 outcode2 =? 0 then Done TRUE
  else if negb (Z.land outcode1 outcode2 =? 0) then Done FALSE
  else
    let outcode := if negb (outcode1 =? 0) then outcode1 else outcode2 in
    let xy :=
      if negb (Z.land outcode _TOP =? 0) then
        Some (x1 + (x2 - x1) * (v (_pmax vw) - y1) / (y2 - y1), v (_pmax vw))%float
      else if negb (Z.land outcode _BOTTOM =? 0) then
        Some (x1 + (x2 - x1) * (v (_pmin vw) - y1) / (y2 - y1), v (_pmin vw))%float
      else if negb (Z.land outcode _RIGHT =? 0) then
        Some (u (_pmax vw), y1 + (y2 - y1) * (u (_pmax vw) - x1) / (x2 - x1))%float
      else if negb (Z.land outcode _LEFT =? 0) then
        Some (u (_pmin vw), y1 + (y2 - y1) * (u (_pmin vw) - x1) / (x2 - x1))%float
      else None in
    match xy with
    | None => Uninitialised
    | Some (x, y) =>
        if outcode =? outcode1
        then Again x y x2 y2 (_computeOutCode vw x y) outcode2
        else Again x1 y1 x y outcode1 (_computeOutCode vw x y)
    end.

(** The loop, at most [fuel] passes; [None] when these do not finish it or
    when a pass has no defined result. *)
Fixpoint clip_loop (fuel : nat) (vw : view) (x1 y1 x2 y2 : float)
    (outcode1 outcode2 : Z) : option (Z * segment) :=
  match fuel with
  | O => None
  | S fuel' =>
      match clip_body vw x1 y1 x2 y2 outcode1 outcode2 with
      | Done accept => Some (accept, (x1, y1, x2, y2))
      | Again x1' y1' x2' y2' outcode1' outcode2' =>
          clip_loop fuel' vw x1' y1' x2' y2' outcode1' outcode2'
      | Uninitialised => None
      end
  end.

(** [_clipToView]: the returned value and the segment left in
    [*x1, *y1, *x2, *y2]. *)
Definition _clipToView (fuel : nat) (vw : view) (s : segment)
    : option (Z * segment) :=
  let '(x1, y1, x2, y2) := s in
  clip_loop fuel vw x1 y1 x2 y2 (_computeOutCode vw x1 y1) (_computeOutCode vw x2 y2).

(** *** Complex line ([_renderLC]) *)

(** [RAD_TO_DEG] ([57.29577951308232]) and [DEG_TO_RAD]
    ([0.0174532925199432958]) as doubles. *)
Definition RAD_TO_DEG : float := 0x1.ca5dc1a63c1f8p+5%float.
Definition DEG_TO_RAD : float := 0x1.1df46a2529d39p-6%float.

(** The functions of [<math.h>] that [_renderLC] calls, but for [sqrt],
    which is binary64's square root. *)
Record libm : Type := mk_libm {
  pow : float -> float -> float;
  atan2 : float -> float -> float;
  cos : float -> float;
  sin : float -> float
}.

(** The mariner parameters read through [S52_MP_get]. *)
Record mariner : Type := mk_mariner {
  S52_CMD_WRD_FILTER : float;
  S52_MAR_DISP_WHOLIN : float;
  S52_MAR_DOTPITCH_MM_X : float;
  S52_MAR_ANTIALIAS : float
}.

(** [pt3]: three doubles. *)
Definition pt3 : Type := (float * float * float)%type.

(** What [_renderLC] obtains from its object: name and points of the
    geometry ([S57_getName], [S57_getGeoData]), symbol length and pen width
    ([S52_PL_getLCdata]), whether a next leg exists ([S52_PL_getNextLeg]),
    and [S52_atof] of the attribute [_wholin_dist] of the previous leg and
    of the object itself where [S57_getAttVal] finds it. *)
Record lc_obj : Type := mk_lc_obj {
  lc_name : string;
  lc_ppt : list pt3;
  lc_symlen : float;
  lc_pen_w : Z;
  lc_next_leg : bool;
  lc_prev_wholin_dist : option float;
  lc_wholin_dist : option float
}.

(** The calls [_renderLC] issues, in order; [glDrawArrays_LINES] with the
    [vertex_t] it is given. *)
Inductive gl_call : Type :=
| _drawArc
| _glColor4ub
| glLineWidth (width : Z)
| _glMatrixMode_MODELVIEW
| _glLoadIdentity
| _glTranslated (x y z : float)
| _glRotated (angle x y z : float)
| _glScaled (x y z : float)
| _pushScaletoPixel (scaleSym : Z)
| _glCallList
| _popScaletoPixel
| glEnable_BLEND
| _glUniformMatrix4fv_uModelview
| glDrawArrays_LINES (first count : Z) (ppt : list vertex).

(** [S52_GL_movePoint]. *)
Definition S52_GL_movePoint (m : libm) (x y angle dist_m : float) : float * float :=
  (x - cos m angle * dist_m, y - sin m angle * dist_m)%float.

(** [_DrawArrays_LINES]. *)
Definition _DrawArrays_LINES (asserts : bool) (ppt : list vertex) : outcome (list gl_call) :=
  (if negb (len ppt mod 2 =? 0) then g_assert_0 asserts else Ret tt);;
  if len ppt <? 2 then Ret []
  else Ret [glDrawArrays_LINES 0 (len ppt) ppt].

(** The symbols of one segment: the body of [for (j=0; j<nsym; ++j)], run
    [n] times from the offsets [(offset_wrld_x, offset_wrld_y)]. *)
Fixpoint place_symbols (n : nat) (x1 y1 segang symlen_wrld_x symlen_wrld_y : float)
    (offset_wrld_x offset_wrld_y : float) : list gl_call * (float * float) :=
  match n with
  | O => ([], (offset_wrld_x, offset_wrld_y))
  | S n' =>
      let '(calls, offs) :=
        place_symbols n' x1 y1 segang symlen_wrld_x symlen_wrld_y
          (offset_wrld_x + symlen_wrld_x)%float (offset_wrld_y + symlen_wrld_y)%float in
      ([_glMatrixMode_MODELVIEW; _glLoadIdentity;
        _glTranslated (x1 + offset_wrld_x)%float (y1 + offset_wrld_y)%float 0%float;
        _glRotated segang 0%float 0%float 1%float;
        _glScaled 1%float (-1)%float 1%float;
        _pushScaletoPixel TRUE; _glCallList; _popScaletoPixel] ++ calls, offs)
  end.

Section RenderLC.

Variable m : libm.
Variable S52_CMD_WRD_FILTER_LC : Z.   (* S52.h *)
Variable asserts : bool.
Variable fuel : nat.                  (* passes granted to each [_clipToView] *)
Variable vw : view.
Variable _scalex : float.
Variable mp : mariner.
Variable obj : lc_obj.

Definition is_leglin : bool := String.eqb "leglin" (lc_name obj).

Definition disp_wholin : bool :=
  (2 =? S52_MAR_DISP_WHOLIN mp)%float || (3 =? S52_MAR_DISP_WHOLIN mp)%float.

Definition symlen_pixl : float := (lc_symlen obj / (S52_MAR_DOTPITCH_MM_X mp * 100))%float.
Definition symlen_wrld : float := (symlen_pixl * _scalex)%float.

(** The end points of a leg, pulled back by the [_wholin_dist] of the
    previous leg and of this one. *)
Definition shorten_leg (s : segment) : segment :=
  let '(x1, y1, x2, y2) := s in
  if is_leglin && disp_wholin then
    let segangRAD := atan2 m (y2 - y1)%float (x2 - x1)%float in
    let '(x1, y1) :=
      match lc_prev_wholin_dist obj with
      | Some d =>
          S52_GL_movePoint m x1 y1 (segangRAD + 180 * DEG_TO_RAD)%float (d * 1852)%float
      | None => (x1, y1)
      end in
    let '(x2, y2) :=
      if lc_next_leg obj then
        match lc_wholin_dist obj with
        | Some d => S52_GL_movePoint m x2 y2 segangRAD (d * 1852)%float
        | None => (x2, y2)
        end
      else (x2, y2) in
    (x1, y1, x2, y2)
  else s.

Definition seglen_wrld (off_x off_y : float) (s : segment) : float :=
  let '(x1, y1, x2, y2) := s in
  PrimFloat.sqrt
    (pow m ((x1 - off_x) - (x2 - off_x)) 2 + pow m ((y1 - off_y) - (y2 - off_y)) 2)%float.

(** One turn of the loop over the segments: the GL calls issued and the
    vertices appended to [_tessWorkBuf_f].  [None]: the clipping did not
    finish, or [nsym] is not defined. *)
Definition lc_pass (off_x off_y : float) (p1 p2 : pt3) : option (list gl_call * list vertex) :=
  let '(x1, y1, z1) := p1 in
  let '(x2, y2, z2) := p2 in
  match _clipToView fuel vw (shorten_leg (x1, y1, x2, y2)) with
  | None => None
  | Some (accept, (x1, y1, x2, y2)) =>
      if accept =? FALSE then Some ([], [])
      else if (z1 <? 0)%float && (z2 <? 0)%float then Some ([], [])
      else
        let seglen := seglen_wrld off_x off_y (x1, y1, x2, y2) in
        let segang := atan2 m (y2 - y1)%float (x2 - x1)%float in
        let symlen_wrld_x := (cos m segang * symlen_wrld)%float in
        let symlen_wrld_y := (sin m segang * symlen_wrld)%float in
        match double_to_int (seglen / symlen_wrld)%float with
        | None => None
        | Some nsym =>
            let segang := (segang * RAD_TO_DEG)%float in
            let '(calls, (offset_wrld_x, offset_wrld_y)) :=
              place_symbols (Z.to_nat nsym) x1 y1 segang symlen_wrld_x symlen_wrld_y
                0%float 0%float in
            Some (calls ++ (if (1 =? S52_MAR_ANTIALIAS mp)%float then [glEnable_BLEND] else []),
                  [(to_GLfloat (x1 + offset_wrld_x), to_GLfloat (y1 + offset_wrld_y),
                    to_GLfloat 0);
                   (to_GLfloat x2, to_GLfloat y2, to_GLfloat 0)])
        end
  end.

(** The loop [for (i=0; i<npt-1; ++i)]: [calls] are the GL calls issued so
    far, [buf] is [_tessWorkBuf_f]. *)
Fixpoint lc_loop (off_x off_y : float) (ppt : list pt3) (calls : list gl_call)
    (buf : list vertex) : option (list gl_call * list vertex) :=
  match ppt with
  | p1 :: ((p2 :: _) as rest) =>
      match lc_pass off_x off_y p1 p2 with
      | None => None
      | Some (calls1, buf1) => lc_loop off_x off_y rest (calls ++ calls1) (buf ++ buf1)
      end
  | _ => Some (calls, buf)
  end.

(** [_renderLC]: the value returned and the GL calls issued. *)
Definition _renderLC : option (outcome (Z * list gl_call)) :=
  match double_to_int (S52_CMD_WRD_FILTER mp) with
  | None => None
  | Some filter =>
      if negb (Z.land S52_CMD_WRD_FILTER_LC filter =? 0)
      then Some (Ret (TRUE, []))
      else
        let arc :=
          if is_leglin && disp_wholin && lc_next_leg obj then [_drawArc] else [] in
        match lc_ppt obj with
        | [] => Some (Ret (FALSE, arc))
        | (off_x, off_y, _) :: _ =>
            let calls0 := arc ++ [_glColor4ub; glLineWidth (lc_pen_w obj - 48)] in
            match lc_loop off_x off_y (lc_ppt obj) calls0 [] with
            | None => None
            | Some (calls, buf) =>
                Some (lines ← _DrawArrays_LINES asserts buf;
                      Ret (TRUE, calls ++ [_glUniformMatrix4fv_uModelview] ++ lines))
            end
        end
  end.

End RenderLC.

End S52GL.

(** ** Vocabulary of the statements and invariants *)

Module Invariants.

Import S57data.

(** "Equal" when no [count] can have wrapped, "at most" else. *)
Definition rel (exact : bool) (a b : Z) : Prop :=
  if exact then a = b else a <= b.

(** What a primitive buffer looks like between calls: outside a span the
    counts add up to the vertices stored; inside one, the closed spans add
    up to the vertices stored when the open span began, and [first] of
    the open span is that number. *)
Definition prim_inv (exact inside : bool) (p : S57_prim) : Prop :=
  if inside
  then exists l q n0,
         list_ p = l ++ [q] /\ first q = to_int n0 /\
         0 <= n0 <= len (vertex_ p) /\ rel exact (sum_count l) n0
  else rel exact (sum_count (list_ p)) (len (vertex_ p)).

End Invariants.

Module Geometry.

Import S57data S52GL.

(** Exact geometry: rectangles [(umin, vmin, umax, vmax)], segments
    [(x1, y1, x2, y2)] and points over the rational numbers, for what the
    doubles of the code stand for. *)
Definition view_value (vw : view) : option (Q * Q * Q * Q) :=
  match double_value (u (_pmin vw)), double_value (v (_pmin vw)),
        double_value (u (_pmax vw)), double_value (v (_pmax vw)) with
  | Some umin, Some vmin, Some umax, Some vmax => Some (umin, vmin, umax, vmax)
  | _, _, _, _ => None
  end.

Definition segment_value (s : segment) : option (Q * Q * Q * Q) :=
  let '(x1, y1, x2, y2) := s in
  match double_value x1, double_value y1, double_value x2, double_value y2 with
  | Some a, Some b, Some c, Some d => Some (a, b, c, d)
  | _, _, _, _ => None
  end.

(** A point within or on the rectangle. *)
Definition inside (r : Q * Q * Q * Q) (x y : Q) : Prop :=
  let '(umin, vmin, umax, vmax) := r in
  (umin <= x /\ x <= umax /\ vmin <= y /\ y <= vmax)%Q.

(** A point of the segment. *)
Definition on_segment (s : Q * Q * Q * Q) (x y : Q) : Prop :=
  let '(x1, y1, x2, y2) := s in
  exists t : Q, (0 <= t /\ t <= 1 /\
    x == x1 + t * (x2 - x1) /\ y == y1 + t * (y2 - y1))%Q.

(** The segment has a point within or on the rectangle. *)
Definition meets (r s : Q * Q * Q * Q) : Prop :=
  exists x y : Q, on_segment s x y /\ inside r x y.

(** No comparison of [_computeOutCode] puts the point beyond a side of
    the view. *)
Definition not_outside (vw : view) (x y : float) : Prop :=
  (v (_pmax vw) <? y)%float = false /\ (y <? v (_pmin vw))%float = false /\
  (u (_pmax vw) <? x)%float = false /\ (x <? u (_pmin vw))%float = false.

(** Both points are beyond the same side of the view: above its top, or
    below its bottom (and not above its top, as [_computeOutCode] tests
    the top first), or right of its right side, or left of its left side
    (and not right of its right side). *)
Definition beyond_one_side (vw : view) (x1 y1 x2 y2 : float) : Prop :=
  ((v (_pmax vw) <? y1)%float = true /\ (v (_pmax vw) <? y2)%float = true)
  \/ ((v (_pmax vw) <? y1)%float = false /\ (y1 <? v (_pmin vw))%float = true /\
      (v (_pmax vw) <? y2)%float = false /\ (y2 <? v (_pmin vw))%float = true)
  \/ ((u (_pmax vw) <? x1)%float = true /\ (u (_pmax vw) <? x2)%float = true)
  \/ ((u (_pmax vw) <? x1)%float = false /\ (x1 <? u (_pmin vw))%float = true /\
      (u (_pmax vw) <? x2)%float = false /\ (x2 <? u (_pmin vw))%float = true).

(** Vocabulary for [_renderLC]. *)

Definition is_symbol (c : gl_call) : bool :=
  match c with _glCallList => true | _ => false end.

Definition is_draw_lines (c : gl_call) : bool :=
  match c with glDrawArrays_LINES _ _ _ => true | _ => false end.

(** Number of symbol instances drawn by a sequence of calls. *)
Definition count_symbols (calls : list gl_call) : nat :=
  length (List.filter is_symbol calls).











End Geometry.

(** ** Sample data *)

Module Samples.

Import S57data S52GL.

Definition geo0 : S57_geo :=
  mk_geo 1 "DEPARE" AREAS_T (mk_rect 0 0 1 1) 0 None ∅ None infinity 7 None 0.

Definition two_centroids : list pt2 := [(1%float, 2%float); (3%float, 4%float)].

Definition geo_two_centroids : S57_geo :=
  add_all two_centroids (snd (S57_newCentroid geo0)).

Definition geo_empty_att : S57_geo := S57_setAtt geo0 "OBJNAM" "".

(** A PROJ.4 that accepts every definition, and a ["%.6f"] that is right
    at 0. *)
Definition pj_always (_ : string) : option Z := Some 1.
Definition fmt_zero (_ : float) : string := "0.000000".

Definition statics0 : statics := mk_statics None None None false false [].

(** [statics0] after [S57_setMercPrj(0, 0)]. *)
Definition statics_merc : statics :=
  mk_statics None (Some 1) (Some (templ fmt_zero 0 0)) false false
    ["DEBUG: lat:%f, lon:%f [%s]"%string].

(** A renderer between two frames: 640x480 viewport, pixel buffer of
    that size. *)
Definition gl_idle : gl_state :=
  mk_gl false S52_GL_NONE (mk_col 0 0 0 0) [] true true (640 * 480 * 4)
    (0, 0, 640, 480) 0 0 [].

(** [gl_idle] after [S52_GL_begin(S52_GL_DRAW)]. *)
Definition gl_drawing : gl_state :=
  mk_gl true S52_GL_DRAW (mk_col 0 0 0 0) [] true true (640 * 480 * 4)
    (0, 0, 640, 480) 0 0 [].

(** [gl_idle] after [S52_GL_begin(S52_GL_PICK)]. *)
Definition gl_picking : gl_state :=
  mk_gl true S52_GL_PICK (mk_col 0 0 0 0) [] true true (640 * 480 * 4)
    (0, 0, 640, 480) 0 0 [].

(** The view of scenario 5 of the specification. *)
Definition view0 : view := mk_view (mk_uv 5 5) (mk_uv 15 15).

(** [pow(x, 2)] as the square of [x]; the values of [atan2], [cos] and
    [sin] on a line that runs east. *)
Definition libm_east : libm :=
  mk_libm (fun x _ => (x * x)%float) (fun _ _ => 0%float) (fun _ => 1%float)
    (fun _ => 0%float).

Definition view_east : view := mk_view (mk_uv 0 (-5)) (mk_uv 10 5).

(** No command filtered, no arcs between legs, a dot pitch of 1 mm, no
    antialiasing. *)
Definition mariner0 : mariner := mk_mariner 0 0 1 0.

(** A line of two points along y = 0, from x = -3 to x = 7, of which
    [view_east] shows x = 0 to 7; symbols 2 units long at scale 1. *)
Definition line_east : lc_obj :=
  mk_lc_obj "DEPCNT" [(-3, 0, 0)%float; (7, 0, 0)%float] 200 49 false None None.

(** A line along y = 0 from x = 0 to x = 7; symbols of length [10 / 100],
    the double next to one tenth. *)
Definition line_tenths : lc_obj :=
  mk_lc_obj "DEPCNT" [(0, 0, 0)%float; (7, 0, 0)%float] 10 49 false None None.

(** Scenario 5 of the specification: the line (0,0)-(10,10), symbols one
    unit long; [atan2], [cos] and [sin] on a line that runs north-east, to
    six decimals. *)
Definition libm_northeast : libm :=
  mk_libm (fun x _ => (x * x)%float) (fun _ _ => 0x1.921fafc8b007ap-1%float)
    (fun _ => 0x1.6a09edbf8b9bbp-1%float) (fun _ => 0x1.6a09edbf8b9bbp-1%float).

Definition line_northeast : lc_obj :=
  mk_lc_obj "DEPCNT" [(0, 0, 0)%float; (10, 10, 0)%float] 100 49 false None None.

(** The unit square as view, and a segment from above it to its right
    that passes the corner (1, 1) at a distance below [2^-53]. *)
Definition view_unit : view := mk_view (mk_uv 0 0) (mk_uv 1 1).

Definition seg_corner : segment := (0.5, 2, 0x1.8000000000001p+0, 0)%float.

(** 257 features, each drawn once, nothing under the cursor. *)
Definition objs257 : list (S52_obj * list col) :=
  map (fun n => (mk_obj (Pos.of_nat n) [S52_CMD_SYM_PT], [])) (seq 1 257).

End Samples.
(** * More of [S57data.c] and [S52GL.c] *)

(** ** Primitive buffer: draw calls *)

Module S52GLvbo.

Import S57data.

(** [S57_getPrimData] (S57data.c): the values written to [*primNbr],
    [*vert], [*vertNbr] and [*vboID]. *)
Definition S57_getPrimData (prim : S57_prim) : Z * (Z * list vertex * Z * Z) :=
  (TRUE, (len (list_ prim), vertex_ prim, len (vertex_ prim), DList prim)).

(** [S57_setPrimDList] (S57data.c). *)
Definition S57_setPrimDList (prim : S57_prim) (DList : Z) : Z * S57_prim :=
  (TRUE, mk_S57_prim (list_ prim) (vertex_ prim) DList).

(** The buffer with another display-list / VBO id. *)
Definition with_DList (DList : Z) (prim : S57_prim) : S57_prim :=
  mk_S57_prim (list_ prim) (vertex_ prim) DList.

(** [glDrawArrays(mode, first, count)] as the driver receives it. *)
Inductive draw_call : Type :=
| glDrawArrays (mode first count : Z).

(** [_VBODrawArrays] (S52GL.c): one [glDrawArrays] for each span, in the
    order of [S57_getPrimIdx]; [mode], [first] and [count] are 0 where
    [S57_getPrimIdx] returns FALSE. *)
Definition _VBODrawArrays (prim : S57_prim) : Z * list draw_call :=
  let '(_, (primNbr, _, _, _)) := S57_getPrimData prim in
  (TRUE,
   map (fun i : nat =>
          match S57_getPrimIdx prim (Z.of_nat i) with
          | Some (mode, first, count) => glDrawArrays mode first count
          | None => glDrawArrays 0 0 0
          end)
       (seq 0 (Z.to_nat primNbr))).

(** The [mode]s handed to [S57_begPrim], and the vertices handed to
    [S57_addPrimVertex], by a sequence of calls. *)
Definition begun (ops : list prim_op) : list Z :=
  flat_map (fun o => match o with BegPrim m _ => [m] | _ => [] end) ops.

Definition added (ops : list prim_op) : list vertex :=
  flat_map (fun o => match o with AddVertex v => [v] | _ => [] end) ops.

(** Spans laid end to end from [start]: each begins where the one before
    it ends, none has a negative [count]. *)
Fixpoint laid_from (start : Z) (l : list _prim) : Prop :=
  match l with
  | [] => True
  | q :: rest =>
      first q = start /\ 0 <= count q /\ laid_from (start + count q) rest
  end.

Definition call_mode (c : draw_call) : Z :=
  let 'glDrawArrays mode _ _ := c in mode.

(** The draw call stays within an array of [n] vertices. *)
Definition within (n : Z) (c : draw_call) : Prop :=
  let 'glDrawArrays _ first count := c in
  0 <= first /\ 0 <= count /\ first + count <= n.

(** What the buffer looks like between calls, as long as no [first] or
    [count] can have wrapped. *)
Definition span_inv (inside : bool) (p : S57_prim) : Prop :=
  if inside
  then exists l q,
         list_ p = l ++ [q] /\ laid_from 0 l /\
         first q = sum_count l /\ 0 <= sum_count l <= len (vertex_ p)
  else laid_from 0 (list_ p) /\ sum_count (list_ p) = len (vertex_ p).

End S52GLvbo.

(** ** Attributes, SCAMIN and the PROJ set-up *)

Module S57proj.

Import S57data.

(** *** SCAMIN *)

Definition set_scamin (g : S57_geo) (s : float) : S57_geo :=
  mk_geo (id g) (name g) (obj_t g) (rect g) (dataSize g) (prim g) (attribs g)
    (touch g) s (centroidIdx g) (centroid g) (highlight g).

(** [UNKNOWN]: [(1.0/0.0)]. *)
Definition UNKNOWN : float := (1 / 0)%float.

(** [S57_setScamin], [S57_getScamin]. *)
Definition S57_setScamin (geo : S57_geo) (scamin : float) : float * S57_geo :=
  (scamin, set_scamin geo scamin).

Definition S57_getScamin (geo : S57_geo) : float := scamin geo.

(** [S57_resetScamin]; [S52_atof] is the conversion of S52utils.c. *)
Definition S57_resetScamin (S52_atof : string -> float) (geo : S57_geo)
    (st : statics) : float * S57_geo * statics :=
  let '(valstr, st1) := S57_getAttVal geo "SCAMIN" st in
  let val := match valstr with
             | None => UNKNOWN
             | Some str => S52_atof str
             end in
  (val, set_scamin geo val, st1).

(** *** PROJ.4 set-up and tear-down *)

(** [_attList]: NULL, a [GString], or the address of one given back to
    [g_string_free]. *)
Inductive attList_t : Type :=
| AttNull
| AttString (str : string)
| AttFreed.

Definition _argssrc : string := "+proj=latlong +ellps=WGS84 +datum=WGS84".

(** [DEG_TO_RAD] of proj_api.h: [.0174532925199432958] as a double. *)
Definition DEG_TO_RAD : float := 0x1.1df46a2529d39p-6%float.

Definition set_proj (st : statics) (src dst : option Z) (str : option string)
    (doInit : bool) : statics :=
  mk_statics src dst str doInit (silent st) (stdout st).

(** [S57_donePROJ].  [None]: [_attList] is handed to [g_string_free] a
    second time. *)
Definition S57_donePROJ (st : statics) (_attList : attList_t)
    : option (Z * statics * attList_t) :=
  let st1 := set_proj st None None (_pjstr st) true in
  match _attList with
  | AttFreed => None
  | AttString _ => Some (TRUE, set_proj st1 None None None true, AttFreed)
  | AttNull => Some (TRUE, set_proj st1 None None None true, AttNull)
  end.

Section PROJ4.

(** PROJ.4: [pj_init_plus] gives a handle or NULL, [pj_get_release] the
    version string, [pj_transform] its return value and the points as it
    leaves them. *)
Variable pj_init_plus : string -> option Z.
Variable pj_get_release : option string.
Variable pj_transform : option Z -> Z -> list vertex -> Z * list vertex.
(** [printf]'s ["%.6f"] conversion of a double. *)
Variable fmt_f6 : float -> string.

(** [S57_initPROJ]. *)
Definition S57_initPROJ (st : statics) (_attList : attList_t)
    : option (Z * statics * attList_t) :=
  if negb (_doInit st) then Some (FALSE, st, _attList)
  else
    let st1 := match pj_get_release with
               | Some _ => PRINTF st ["PROJ4 VERSION: %s"%string]
               | None => st
               end in
    match pj_init_plus _argssrc with
    | None =>
        let st2 := PRINTF (set_proj st1 None (_pjdst st1) (_pjstr st1) (_doInit st1))
                     ["error init src PROJ4"%string] in
        match S57_donePROJ st2 _attList with
        | Some (_, st3, al) => Some (FALSE, st3, al)
        | None => None
        end
    | Some pj =>
        Some (TRUE, set_proj st1 (Some pj) (_pjdst st1) (_pjstr st1) false,
              match _attList with
              | AttNull => AttString ""
              | _ => _attList
              end)
    end.

(** The loop [pt->x *= DEG_TO_RAD, pt->y *= DEG_TO_RAD] over the first
    [npt] points. *)
Definition deg_to_rad (npt : nat) (data : list vertex) : list vertex :=
  map (fun p : vertex =>
         let '(x, y, z) := p in ((x * DEG_TO_RAD)%float, (y * DEG_TO_RAD)%float, z))
      (firstn npt data)
  ++ skipn npt data.

(** [S57_geo2prj3dv]: the value returned and the array as it is left.
    [None]: the array has fewer than [npt] points, or [S57_initPROJ] has
    no defined result. *)
Definition S57_geo2prj3dv (asserts : bool) (npt : Z) (data : list vertex)
    (st : statics) (_attList : attList_t)
    : option (outcome (Z * list vertex * statics * attList_t)) :=
  match (if _doInit st
         then option_map (fun r => (snd (fst r), snd r)) (S57_initPROJ st _attList)
         else Some (st, _attList)) with
  | None => None
  | Some (st1, al) =>
      match _pjdst st1 with
      | None =>
          Some (g_assert_0 asserts;;
                Ret (FALSE, data,
                     PRINTF st1 ["ERROR: nothing to project to .. load a chart frist!"%string],
                     al))
      | Some dst =>
          if len data <? npt then None
          else
            let rad := deg_to_rad (Z.to_nat npt) data in
            let '(ret, out) := pj_transform (_pjsrc st1) dst rad in
            if negb (ret =? 0)
            then Some (g_assert_0 asserts;;
                       Ret (FALSE, out,
                            PRINTF st1 ["ERROR: in transform (%i): %s (%f,%f)"%string], al))
            else Some (Ret (TRUE, out, st1, al))
      end
  end.

(** *** A session: calls that read or write the PROJ.4 set-up *)

Inductive proj_call : Type :=
| call_initPROJ
| call_donePROJ
| call_setMercPrj (lat lon : float)
| call_geo2prj3dv (npt : Z) (data : list vertex).

(** One call: the value it returns, the statics and [_attList] as it
    leaves them.  [None]: the call has no defined result. *)
Definition proj_step (asserts : bool) (c : proj_call) (s : statics * attList_t)
    : option (outcome (Z * (statics * attList_t))) :=
  let '(st, al) := s in
  match c with
  | call_initPROJ =>
      match S57_initPROJ st al with
      | Some (ret, st1, al1) => Some (Ret (ret, (st1, al1)))
      | None => None
      end
  | call_donePROJ =>
      match S57_donePROJ st al with
      | Some (ret, st1, al1) => Some (Ret (ret, (st1, al1)))
      | None => None
      end
  | call_setMercPrj lat lon =>
      Some (r ← S57_setMercPrj pj_init_plus fmt_f6 asserts lat lon st;
            Ret (fst r, (snd r, al)))
  | call_geo2prj3dv npt data =>
      match S57_geo2prj3dv asserts npt data st al with
      | Some o => Some (r ← o; let '(ret, _, st1, al1) := r in Ret (ret, (st1, al1)))
      | None => None
      end
  end.

(** The calls of a session in order: the values returned, in call order,
    and the state left; it ends at the first call stopped by an
    assertion. *)
Fixpoint session (asserts : bool) (calls : list proj_call) (s : statics * attList_t)
    : option (outcome (list Z * (statics * attList_t))) :=
  match calls with
  | [] => Some (Ret ([], s))
  | c :: rest =>
      match proj_step asserts c s with
      | None => None
      | Some Abort => Some Abort
      | Some (Ret (ret, s1)) =>
          match session asserts rest s1 with
          | None => None
          | Some Abort => Some Abort
          | Some (Ret (rets, s2)) => Some (Ret (ret :: rets, s2))
          end
      end
  end.

(** No call of the list is [S57_donePROJ]. *)
Definition without_donePROJ (calls : list proj_call) : bool :=
  forallb (fun c => match c with call_donePROJ => false | _ => true end) calls.

(** The values returned by the [S57_setMercPrj] calls among [calls]. *)
Fixpoint setMercPrj_results (calls : list proj_call) (rets : list Z) : list Z :=
  match calls, rets with
  | call_setMercPrj _ _ :: calls', ret :: rets' => ret :: setMercPrj_results calls' rets'
  | _ :: calls', _ :: rets' => setMercPrj_results calls' rets'
  | _, _ => []
  end.

End PROJ4.

(** The statics as the program starts. *)
Definition statics_start : statics := mk_statics None None None true false [].

(** A PROJ.4 that refuses the source definition [_argssrc] and accepts
    every other one; a [pj_transform] that succeeds and leaves the points
    as they are. *)
Definition pj_no_source (s : string) : option Z :=
  if String.eqb s _argssrc then None else Some 1.

Definition pj_transform_id (_ : option Z) (_ : Z) (d : list vertex) : Z * list vertex :=
  (0, d).

End S57proj.

(** ** Viewport, frames and the pick list *)

Module S52GLframe.

Import S57data S52GL.

(** [S52_GL_setViewPort]: the four [int] arguments are stored in the
    [GLuint _vp[4]]; [g_renew] gives the pixel buffer its new size. *)
Definition S52_GL_setViewPort (x y width height : Z) (st : gl_state)
    : Z * gl_state :=
  let vp := (to_guint x, to_guint y, to_guint width, to_guint height) in
  let need := to_guint (vp_width vp * vp_height vp * _fb_format) in
  if _fb_pixels_size st <? need
  then (TRUE, mk_gl (_GL_BEGIN st) (_crnt_GL_cycle st) (_cIdx st) (_objPick st)
                (_fb_update st) true need vp (_nobj st) (_ncmd st)
                (gl_out st ++ ["pixels buffer resized (%i)"%string]))
  else (TRUE, mk_gl (_GL_BEGIN st) (_crnt_GL_cycle st) (_cIdx st) (_objPick st)
                (_fb_update st) (_fb_pixels st) (_fb_pixels_size st)
                vp (_nobj st) (_ncmd st) (gl_out st)).

(** [S52_GL_getViewPort]: what is written to the four [int]s. *)
Definition S52_GL_getViewPort (st : gl_state) : Z * (Z * Z * Z * Z) :=
  let '(x, y, width, height) := _vp st in
  (TRUE, (to_int x, to_int y, to_int width, to_int height)).

(** The colour index [idx] is among the 64 pixels read back. *)
Definition under_cursor (idx : Z) (pixelsRead : list col) : bool :=
  existsb (fun px => r px =? idx) (firstn 64 pixelsRead).

(** The features of a cycle, numbered from 1 in draw order. *)
Definition numbered (objs : list (S52_obj * list col))
    : list (nat * (S52_obj * list col)) :=
  combine (seq 1 (length objs)) objs.

End S52GLframe.

(** ** Texture sizes and stipple masks *)

Module S52GLtex.

(** [_minPOT]: the loop [for (;;)], at most [fuel] turns.  [value] is a
    [guint], [i] an [int]: [None] when [i *= 2] leaves the range of [int],
    or when the fuel runs out. *)
Fixpoint _minPOT_loop (fuel : nat) (value i : Z) : option Z :=
  match fuel with
  | O => None
  | S fuel' =>
      if value =? 0 then Some (to_guint i)
      else if i * 2 <? 2 ^ 31
           then _minPOT_loop fuel' (Z.shiftr value 1) (i * 2)
           else None
  end.

Definition _minPOT (fuel : nat) (value : Z) : option Z :=
  if value =? 0 then Some (to_guint (-1))
  else _minPOT_loop fuel value 1.

(** The body of the loops of [_1024bitMask2RGBATex] and
    [_32bitMask2RGBATex] for one byte of the mask: the alpha byte of the
    pixel of each bit that is set. *)
Definition set_alpha (m i bit : Z) (rgba_mask : list Z) : list Z :=
  if negb (Z.land m (Z.shiftl 1 bit) =? 0)
  then <[Z.to_nat (i * 4 * 8 + (4 * bit + 3)) := 255]> rgba_mask
  else rgba_mask.

Definition mask_byte (m i : Z) (rgba_mask : list Z) : list Z :=
  if negb (0 =? m)
  then set_alpha m i 7 (set_alpha m i 6 (set_alpha m i 5 (set_alpha m i 4
         (set_alpha m i 3 (set_alpha m i 2 (set_alpha m i 1
           (set_alpha m i 0 rgba_mask)))))))
  else rgba_mask.

(** [for (int i=0; i<n; ++i)] over the bytes of [mask]; [None] when the
    mask has fewer than [n] bytes. *)
Fixpoint mask_loop (n : nat) (mask : list Z) (rgba_mask : list Z) : option (list Z) :=
  match n with
  | O => Some rgba_mask
  | S n' =>
      match mask_loop n' mask rgba_mask with
      | Some rgba =>
          match mask !! n' with
          | Some m => Some (mask_byte m (Z.of_nat n') rgba)
          | None => None
          end
      | None => None
      end
  end.

(** [_1024bitMask2RGBATex]: the [4*32*8*4] bytes of [rgba_mask]. *)
Definition _1024bitMask2RGBATex (mask : list Z) : option (Z * list Z) :=
  option_map (fun rgba => (TRUE, rgba))
    (mask_loop (4 * 32) mask (repeat 0 (4 * 32 * 8 * 4))).

(** [_32bitMask2RGBATex]: the [8*4*4] bytes of [rgba_mask]. *)
Definition _32bitMask2RGBATex (mask : list Z) : option (Z * list Z) :=
  option_map (fun rgba => (TRUE, rgba))
    (mask_loop 4 mask (repeat 0 (8 * 4 * 4))).

End S52GLtex.

(** ** Point in polygon and the centroid of a closed polygon *)

Module S57geom.

Import S57data S52GL.

(** *** Point in polygon ([S57_isPtInside]) *)

(** The test of both loops: the edge [p1]-[p2] crosses the horizontal
    through [y] to the right of [x]; [a > b] on doubles is [b <? a]. *)
Definition crossing (x y : float) (p1 p2 : pt3) : bool :=
  let '(p1x, p1y, _) := p1 in
  let '(p2x, p2y, _) := p2 in
  if negb (Bool.eqb (y <? p1y)%float (y <? p2y)%float)
  then (x <? (p2x - p1x) * (y - p1y) / (p2y - p1y) + p1x)%float
  else false.

(** [c = !c] *)
Definition toggle (c : Z) : Z := if c =? 0 then 1 else 0.

(** [for (i=0; i<npt-1; ++i)] with [p1 = v[i]], [p2 = v[i+1]]. *)
Fixpoint close_loop (x y : float) (v : list pt3) (c : Z) : Z :=
  match v with
  | p1 :: ((p2 :: _) as rest) =>
      close_loop x y rest (if crossing x y p1 p2 then toggle c else c)
  | _ => c
  end.

(** [for (i=0, j=npt-1; i<npt; j=i++)] with [p1 = v[i]], [p2 = v[j]];
    [vj] is [v[j]]. *)
Fixpoint open_loop (x y : float) (vj : pt3) (v : list pt3) (c : Z) : Z :=
  match v with
  | p1 :: rest => open_loop x y p1 rest (if crossing x y p1 vj then toggle c else c)
  | [] => c
  end.

(** [S57_isPtInside]; [xyz] holds the [npt] points. *)
Definition S57_isPtInside (xyz : list pt3) (x y : float) (close : Z) : Z :=
  if close =? TRUE then close_loop x y xyz 0
  else match xyz with
       | [] => 0
       | p0 :: _ => open_loop x y (List.last xyz p0) xyz 0
       end.

(** No point of the polygon compares above [y], or every one does. *)
Definition out_of_y_range (y : float) (v : list pt3) : Prop :=
  Forall (fun p : pt3 => (y <? snd (fst p))%float = false) v
  \/ Forall (fun p : pt3 => (y <? snd (fst p))%float = true) v.

(** The ring of an axis-aligned rectangle, closed on its first corner. *)
Definition rectangle_ring (a b c d : float) (z : float) : list pt3 :=
  [(a, b, z); (c, b, z); (c, d, z); (a, d, z); (a, b, z)].

End S57geom.

Module S52GLcentroid.

Import S57data S52GL S57geom.

(** *** Centroid of a closed polygon ([_getCentroidClose]) *)

(** The loop [for (i=0; i<npt-1; ++i)]: [atmp], [xtmp], [ytmp]. *)
Fixpoint area_loop (offx offy : float) (ppt : list pt3) (acc : float * float * float)
    : float * float * float :=
  match ppt with
  | (p0, p1, _) :: (((p3, p4, _) :: _) as rest) =>
      let '(atmp, xtmp, ytmp) := acc in
      let ai := ((p0 - offx) * (p4 - offy) - (p3 - offx) * (p1 - offy))%float in
      area_loop offx offy rest
        ((atmp + ai)%float,
         (xtmp + ((p3 - offx) + (p0 - offx)) * ai)%float,
         (ytmp + ((p4 - offy) + (p1 - offy)) * ai)%float)
  | _ => acc
  end.

(** [_getCentroidClose]: the value returned, [_centroids] and the
    console.  [S52_MAR_DISP_CENTROIDS] is the mariner parameter read
    through [S52_MP_get]; [_findCentInside] runs the GLU tessellator and
    is given by what it makes of [_centroids]. *)
Definition _getCentroidClose (asserts : bool) (S52_MAR_DISP_CENTROIDS : float)
    (_findCentInside : list pt3 -> list pt3 -> list pt3)
    (ppt : list pt3) (_centroids : list pt3) (out : console)
    : outcome (Z * list pt3 * console) :=
  match ppt with
  | (offx, offy, _) :: _ =>
      if len ppt <? 4
      then Ret (FALSE, _centroids,
                out ++ ["WARNING: degenerated poly [npt:%i]"%string])
      else
        let '(lx, ly, _) := List.last ppt (offx, offy, 0%float) in
        out1 ← (if negb (offx =? lx)%float || negb (offy =? ly)%float
                then g_assert_0 asserts;;
                     Ret (out ++ ["WARNING: poly end points doesn't match"%string])
                else Ret out);
        let '(atmp, xtmp, ytmp) := area_loop offx offy ppt (0, 0, 0)%float in
        if negb (atmp =? 0)%float
        then
          let pt := ((xtmp / (3 * atmp) + offx)%float, (ytmp / (3 * atmp) + offy)%float,
                     0%float) in
          if S57_isPtInside ppt (fst (fst pt)) (snd (fst pt)) TRUE =? TRUE
          then Ret (TRUE, _centroids ++ [pt], out1)
          else if (1 =? S52_MAR_DISP_CENTROIDS)%float
               then Ret (TRUE, _findCentInside ppt _centroids, out1)
               else Ret (FALSE, _centroids, out1)
        else Ret (FALSE, _centroids, out1)
  | [] =>
      Ret (FALSE, _centroids, out ++ ["WARNING: degenerated poly [npt:%i]"%string])
  end.

End S52GLcentroid.

(** ** Chain nodes *)

Module S57chain.

Import S57data.

(** *** Chain nodes ([S57_sameChainNode]); [linexyz] holds the
        [linexyznbr] points of the line *)

(** [a != b] on doubles. *)
Definition fne (a b : float) : bool := negb (PrimFloat.eqb a b).

(** The loop [for (i=0; i<n; ++i)] that [break]s at the first pair of
    points it tells apart: the [i] it ends with. *)
Fixpoint same_x_run (ptA ptB : list vertex) (i : Z) : Z :=
  match ptA, ptB with
  | (ax, _, _) :: ptA', (bx, _, _) :: ptB' =>
      if fne ax bx || fne ax bx then i
      else same_x_run ptA' ptB' (to_guint (i + 1))
  | _, _ => i
  end.

(** [S57_sameChainNode].  [None]: the first point of an empty line is
    read. *)
Definition S57_sameChainNode (linexyzA linexyzB : list vertex) : option Z :=
  if negb (len linexyzA =? len linexyzB) then Some FALSE
  else
    match linexyzA, linexyzB with
    | (pax, pay, _) :: _, (pbx, pby, pbz) :: _ =>
        let '(bendx, bendy, _) := List.last linexyzB (pbx, pby, pbz) in
        let i := if PrimFloat.eqb pax pbx && PrimFloat.eqb pay pby
                 then same_x_run linexyzA linexyzB 0
                 else 0 in
        if len linexyzA <=? to_guint (i + 1) then Some TRUE
        else
          (* the second loop counts in an [i] of its own *)
          let i_inner := if PrimFloat.eqb pax bendx && PrimFloat.eqb pay bendy
                         then same_x_run linexyzA (List.rev linexyzB) 0
                         else 0 in
          if len linexyzA <=? to_guint (i + 1) then Some TRUE else Some FALSE
    | _, _ => None
    end.

(** The two points have equal [x]; equal [x] and [y]. *)
Definition agree_x (p q : vertex) : bool :=
  PrimFloat.eqb (fst (fst p)) (fst (fst q)).

Definition agree_xy (p q : vertex) : bool :=
  PrimFloat.eqb (fst (fst p)) (fst (fst q))
  && PrimFloat.eqb (snd (fst p)) (snd (fst q)).

(** All points but the last agree in [x] with the point of the same rank
    in the other line. *)
Definition agree_but_last (A B : list vertex) : bool :=
  forallb (fun pq => agree_x (fst pq) (snd pq))
    (combine (removelast A) (removelast B)).

End S57chain.

(** ** Matrix stacks and projection *)

Module S52GLmatrix.

Import S57data S52GL.

(** *** The matrix stacks of the GLES2 build ([_mvm], [_pjm]), on exact
        rationals *)

(** The corners of the projected view and the functions of [<math.h>]
    that the matrices are built from, on rationals. *)
Record projUV : Type := mk_uv { u : Q; v : Q }.

Record view : Type := mk_view { _pmin : projUV; _pmax : projUV }.

Record libm : Type := mk_libm {
  cos : Q -> Q;
  sin : Q -> Q
}.

(** What a call comes to: it returns, it stops at [g_assert(0)], or it
    reads or writes outside [_mvm] / [_pjm] or through a NULL
    [_crntMat]. *)
Inductive result (A : Type) : Type :=
| Returns (a : A)
| Asserts
| Undefined.
Arguments Returns {A} a.
Arguments Asserts {A}.
Arguments Undefined {A}.

#[export] Instance result_bind : MBind result := fun A B k m =>
  match m with
  | Returns a => k a
  | Asserts => Asserts
  | Undefined => Undefined
  end.

#[export] Instance result_ret : MRet result := fun A a => Returns a.

Definition GL_MODELVIEW : Z := 5888.    (* 0x1700 *)
Definition GL_PROJECTION : Z := 5889.   (* 0x1701 *)
Definition MATRIX_STACK_MAX : Z := 8.
Definition Z_CLIP_PLANE : Q := 10000.
Definition M_PI : Q := 3.14159265358979323846.

(** A [GLfloat[16]], column major. *)
Definition matrix : Type := list Q.

(** The two arrays of matrices. *)
Inductive stack_id : Type := MVM | PJM.

#[global] Instance stack_id_eq_dec : EqDecision stack_id.
Proof. solve_decision. Defined.

(** [_mode], [_mvm], [_pjm], [_crntMat] (NULL, or a row of one of the
    arrays), [_mvmTop], [_pjmTop], [_identity_MODELVIEW], the console. *)
Record matrices : Type := mk_matrices {
  _mode : Z;
  _mvm : list matrix;
  _pjm : list matrix;
  _crntMat : option (stack_id * Z);
  _mvmTop : Z;
  _pjmTop : Z;
  _identity_MODELVIEW : bool;
  mat_out : console
}.

Definition stack (st : matrices) (s : stack_id) : list matrix :=
  match s with MVM => _mvm st | PJM => _pjm st end.

Definition top (st : matrices) (s : stack_id) : Z :=
  match s with MVM => _mvmTop st | PJM => _pjmTop st end.

(** Row [i] of an array, when there is one. *)
Definition row (st : matrices) (p : stack_id * Z) : option matrix :=
  let '(s, i) := p in
  if (0 <=? i) && (i <? MATRIX_STACK_MAX) then stack st s !! Z.to_nat i else None.

Definition set_row (st : matrices) (p : stack_id * Z) (m : matrix) : matrices :=
  let '(s, i) := p in
  match s with
  | MVM => mk_matrices (_mode st) (<[Z.to_nat i := m]> (_mvm st)) (_pjm st)
             (_crntMat st) (_mvmTop st) (_pjmTop st) (_identity_MODELVIEW st) (mat_out st)
  | PJM => mk_matrices (_mode st) (_mvm st) (<[Z.to_nat i := m]> (_pjm st))
             (_crntMat st) (_mvmTop st) (_pjmTop st) (_identity_MODELVIEW st) (mat_out st)
  end.

Definition set_crnt (st : matrices) (mode : Z) (p : option (stack_id * Z)) : matrices :=
  mk_matrices mode (_mvm st) (_pjm st) p (_mvmTop st) (_pjmTop st)
    (_identity_MODELVIEW st) (mat_out st).

Definition set_tops (st : matrices) (mvmTop pjmTop : Z) : matrices :=
  mk_matrices (_mode st) (_mvm st) (_pjm st) (_crntMat st) mvmTop pjmTop
    (_identity_MODELVIEW st) (mat_out st).

Definition set_identity (st : matrices) (b : bool) : matrices :=
  mk_matrices (_mode st) (_mvm st) (_pjm st) (_crntMat st) (_mvmTop st) (_pjmTop st)
    b (mat_out st).

Definition mat_PRINTF (st : matrices) (msg : string) : matrices :=
  mk_matrices (_mode st) (_mvm st) (_pjm st) (_crntMat st) (_mvmTop st) (_pjmTop st)
    (_identity_MODELVIEW st) (mat_out st ++ [msg]).

Definition assert_0 (asserts : bool) : result unit :=
  if asserts then Asserts else Returns tt.

(** [if (GL_MODELVIEW == _mode) _identity_MODELVIEW = b] *)
Definition flag_modelview (st : matrices) (b : bool) : matrices :=
  if GL_MODELVIEW =? _mode st then set_identity st b else st.

(** A read-modify-write of the matrix [_crntMat] points to. *)
Definition on_crntMat (f : matrix -> matrix) (st : matrices) : result matrices :=
  match _crntMat st with
  | None => Undefined
  | Some p =>
      match row st p with
      | Some m => Returns (set_row st p (f m))
      | None => Undefined
      end
  end.

(** [_make_scale_matrix]. *)
Definition _make_scale_matrix (xs ys zs : Q) : matrix :=
  [xs; 0; 0; 0;  0; ys; 0; 0;  0; 0; zs; 0;  0; 0; 0; 1]%Q.

(** [_make_z_rot_matrix]. *)
Definition _make_z_rot_matrix (lm : libm) (angle : Q) : matrix :=
  let c := cos lm (angle * M_PI / 180)%Q in
  let s := sin lm (angle * M_PI / 180)%Q in
  [c; s; 0; 0;  (- s); c; 0; 0;  0; 0; 1; 0;  0; 0; 0; 1]%Q.

(** [_multiply]: [tmp[i]] is the sum over [j] of [row[j] * column[j*4]],
    with [row = n + (i/4)*4] and [column = m + i%4]; [tmp] is then copied
    to [m]. *)
Definition _multiply (m n : matrix) : matrix :=
  map (fun i : nat =>
         fold_left (fun tmp j =>
                      (tmp + nth (i / 4 * 4 + j) n 0 * nth (i mod 4 + j * 4) m 0)%Q)
                   (seq 0 4) 0%Q)
      (seq 0 16).

Definition identity : matrix :=
  [1; 0; 0; 0;  0; 1; 0; 0;  0; 0; 1; 0;  0; 0; 0; 1]%Q.

(** [_glMatrixMode]. *)
Definition _glMatrixMode (asserts : bool) (mode : Z) (st : matrices) : result matrices :=
  if mode =? GL_MODELVIEW then Returns (set_crnt st mode (Some (MVM, _mvmTop st)))
  else if mode =? GL_PROJECTION then Returns (set_crnt st mode (Some (PJM, _pjmTop st)))
  else assert_0 asserts;;
       Returns (mat_PRINTF (set_crnt st mode (_crntMat st)) "_glMatrixMode()").

(** [_glPushMatrix]. *)
Definition _glPushMatrix (asserts : bool) (st : matrices) : result matrices :=
  st1 ← (if _mode st =? GL_MODELVIEW
         then Returns (set_tops st (to_int (_mvmTop st + 1)) (_pjmTop st))
         else if _mode st =? GL_PROJECTION
              then Returns (set_tops st (_mvmTop st) (to_int (_pjmTop st + 1)))
              else assert_0 asserts;; Returns (mat_PRINTF st "_glPushMatrix()"));
  st2 ← (if (MATRIX_STACK_MAX <=? _mvmTop st1) || (MATRIX_STACK_MAX <=? _pjmTop st1)
         then assert_0 asserts;;
              Returns (mat_PRINTF st1 "ERROR: matrix stack overflow")
         else Returns st1);
  let s := if GL_MODELVIEW =? _mode st2 then MVM else PJM in
  match row st2 (s, top st2 s - 1), row st2 (s, top st2 s) with
  | Some prevMat, Some _ =>
      Returns (set_row (set_crnt st2 (_mode st2) (Some (s, top st2 s)))
                 (s, top st2 s) prevMat)
  | _, _ => Undefined
  end.

(** [_glPopMatrix]. *)
Definition _glPopMatrix (asserts : bool) (st : matrices) : result matrices :=
  st1 ← (if _mode st =? GL_MODELVIEW
         then Returns (set_tops st (to_int (_mvmTop st - 1)) (_pjmTop st))
         else if _mode st =? GL_PROJECTION
              then Returns (set_tops st (_mvmTop st) (to_int (_pjmTop st - 1)))
              else assert_0 asserts;; Returns (mat_PRINTF st "_glPopMatrix()"));
  st2 ← (if (_mvmTop st1 <? 0) || (_pjmTop st1 <? 0)
         then assert_0 asserts;;
              Returns (mat_PRINTF st1 "ERROR: matrix stack underflow")
         else Returns st1);
  Returns (flag_modelview st2 false).

(** [_glTranslated]. *)
Definition _glTranslated (x y z : Q) (st : matrices) : result matrices :=
  st1 ← on_crntMat
          (fun m => _multiply m [1; 0; 0; 0;  0; 1; 0; 0;  0; 0; 1; 0;  x; y; z; 1]%Q) st;
  Returns (flag_modelview st1 false).

(** [_glScaled]. *)
Definition _glScaled (x y z : Q) (st : matrices) : result matrices :=
  st1 ← on_crntMat (fun m => _multiply m (_make_scale_matrix x y z)) st;
  Returns (flag_modelview st1 false).

(** [_glRotated]: a rotation about Z whatever the axis given. *)
Definition _glRotated (lm : libm) (angle x y z : Q) (st : matrices) : result matrices :=
  st1 ← on_crntMat (fun m => _multiply m (_make_z_rot_matrix lm angle)) st;
  Returns (flag_modelview st1 false).

(** [_glLoadIdentity]. *)
Definition _glLoadIdentity (st : matrices) : result matrices :=
  st1 ← on_crntMat (fun _ => identity) st;
  Returns (flag_modelview st1 true).

(** [_glOrtho]. *)
Definition _glOrtho (left right bottom top zNear zFar : Q) (st : matrices)
    : result matrices :=
  let dx := (right - left)%Q in
  let dy := (top - bottom)%Q in
  let dz := (zFar - zNear)%Q in
  let tx := if negb (Qeq_bool dx 0) then (- (right + left) / dx)%Q else 0%Q in
  let ty := if negb (Qeq_bool dy 0) then (- (top + bottom) / dy)%Q else 0%Q in
  let tz := if negb (Qeq_bool dz 0) then (- (zFar + zNear) / dz)%Q else 0%Q in
  on_crntMat
    (fun m => _multiply m
       [2 / dx; 0; 0; 0;  0; 2 / dy; 0; 0;  0; 0; - (2) / dz; 0;  tx; ty; tz; 1]%Q) st.

(** The operations on the current matrix. *)
Inductive mat_op : Type :=
| LoadIdentity
| Translated (x y z : Q)
| Scaled (x y z : Q)
| Rotated (angle x y z : Q)
| Ortho (left right bottom top zNear zFar : Q).

Definition mat_run (lm : libm) (o : mat_op) (st : matrices) : result matrices :=
  match o with
  | LoadIdentity => _glLoadIdentity st
  | Translated x y z => _glTranslated x y z st
  | Scaled x y z => _glScaled x y z st
  | Rotated angle x y z => _glRotated lm angle x y z st
  | Ortho l r b t n f => _glOrtho l r b t n f st
  end.

Fixpoint mat_runs (lm : libm) (ops : list mat_op) (st : matrices) : result matrices :=
  match ops with
  | [] => Returns st
  | o :: rest => st1 ← mat_run lm o st; mat_runs lm rest st1
  end.

(** What an operation leaves in the current matrix [m]. *)
Definition op_matrix (lm : libm) (o : mat_op) (m : matrix) : matrix :=
  match o with
  | LoadIdentity => identity
  | Translated x y z =>
      _multiply m [1; 0; 0; 0;  0; 1; 0; 0;  0; 0; 1; 0;  x; y; z; 1]%Q
  | Scaled x y z => _multiply m (_make_scale_matrix x y z)
  | Rotated angle _ _ _ => _multiply m (_make_z_rot_matrix lm angle)
  | Ortho l r b t n f =>
      let dx := (r - l)%Q in
      let dy := (t - b)%Q in
      let dz := (f - n)%Q in
      _multiply m
        [2 / dx; 0; 0; 0;  0; 2 / dy; 0; 0;  0; 0; - (2) / dz; 0;
         if negb (Qeq_bool dx 0) then (- (r + l) / dx)%Q else 0%Q;
         if negb (Qeq_bool dy 0) then (- (t + b) / dy)%Q else 0%Q;
         if negb (Qeq_bool dz 0) then (- (f + n) / dz)%Q else 0%Q; 1]%Q
  end.

(** Both arrays have their [MATRIX_STACK_MAX] rows. *)
Definition well_formed (st : matrices) : Prop :=
  length (_mvm st) = 8%nat /\ length (_pjm st) = 8%nat.

(** The state with row [p] and the modelview flag replaced. *)
Definition touch (st : matrices) (p : stack_id * Z) (m : matrix) (b : bool) : matrices :=
  set_identity (set_row st p m) b.

(** The globals as the program starts. *)
Definition matrices_initial : matrices :=
  mk_matrices GL_PROJECTION (repeat (repeat 0%Q 16) 8) (repeat (repeat 0%Q 16) 8)
    None 0 0 false [].

(** The modelview stack selected, one matrix pushed on it. *)
Definition matrices_pushed : matrices :=
  mk_matrices GL_MODELVIEW (repeat identity 8) (repeat identity 8)
    (Some (MVM, 1)) 1 0 false [].

(** A view and the values of [cos] and [sin] with north up. *)
Definition view0 : view := mk_view (mk_uv 5 5) (mk_uv 15 15).

Definition libm_east : libm :=
  mk_libm (fun _ => 1%Q) (fun _ => 0%Q).

(** [VP]: the coordinate systems of [_glMatrixSet]. *)
Inductive VP : Type := VP_PRJ | VP_WIN | VP_NUM.

Section Projection.

Variable asserts : bool.
Variable lm : libm.
Variable vw : view.                   (* _pmin, _pmax *)
Variable vp : Z * Z * Z * Z.          (* _vp *)
Variable _north : Q.
Variable _scalex _scaley : Q.
Variable S52_MAR_DOTPITCH_MM_X S52_MAR_DOTPITCH_MM_Y : Q.   (* S52_MP_get *)

(** [_pushScaletoPixel]. *)
Definition _pushScaletoPixel (scaleSym : Z) (st : matrices) : result (Z * matrices) :=
  let scalex := if TRUE =? scaleSym
                then (_scalex / (S52_MAR_DOTPITCH_MM_X * 100))%Q else _scalex in
  let scaley := if TRUE =? scaleSym
                then (_scaley / (S52_MAR_DOTPITCH_MM_Y * 100))%Q else _scaley in
  st1 ← _glMatrixMode asserts GL_MODELVIEW st;
  st2 ← _glPushMatrix asserts st1;
  st3 ← _glScaled scalex scaley 1 st2;
  Returns (TRUE, st3).

(** [_popScaletoPixel]. *)
Definition _popScaletoPixel (st : matrices) : result (Z * matrices) :=
  st1 ← _glMatrixMode asserts GL_MODELVIEW st;
  st2 ← _glPopMatrix asserts st1;
  Returns (TRUE, st2).

(** The [switch] of [_glMatrixSet]: [left], [right], [bottom], [top]. *)
Definition vp_extent (vpcoord : VP) : option (Q * Q * Q * Q) :=
  match vpcoord with
  | VP_PRJ => Some (u (_pmin vw), u (_pmax vw), v (_pmin vw), v (_pmax vw))
  | VP_WIN =>
      let '(x, y, w, h) := vp in
      Some (inject_Z x, inject_Z (to_guint (x + w)),
            inject_Z y, inject_Z (to_guint (y + h)))
  | VP_NUM => None
  end.

(** [_glMatrixSet]; [lft], [rgt], [btm], [tp] are its [left], [right],
    [bottom], [top]. *)
Definition _glMatrixSet (vpcoord : VP) (st : matrices) : result (Z * matrices) :=
  match vp_extent vpcoord with
  | None =>
      assert_0 asserts;;
      Returns (FALSE, mat_PRINTF st "ERROR: unknown viewport coodinate")
  | Some (lft, rgt, btm, tp) =>
      let znear := Z_CLIP_PLANE in
      let zfar := (- Z_CLIP_PLANE)%Q in
      st0 ← (if Qeq_bool 0 lft && Qeq_bool 0 rgt && Qeq_bool 0 btm && Qeq_bool 0 tp
             then assert_0 asserts;;
                  Returns (mat_PRINTF st "ERROR: Viewport not set (%f,%f,%f,%f)")
             else Returns st);
      st1 ← _glMatrixMode asserts GL_PROJECTION st0;
      st2 ← _glPushMatrix asserts st1;
      st3 ← _glLoadIdentity st2;
      st4 ← _glOrtho lft rgt btm tp znear zfar st3;
      st5 ← _glTranslated ((lft + rgt) / 2)%Q ((btm + tp) / 2)%Q 0 st4;
      st6 ← _glRotated lm _north 0 0 1 st5;
      st7 ← _glTranslated (- (lft + rgt) / 2)%Q (- (btm + tp) / 2)%Q 0 st6;
      st8 ← _glMatrixMode asserts GL_MODELVIEW st7;
      st9 ← _glPushMatrix asserts st8;
      st10 ← _glLoadIdentity st9;
      Returns (TRUE, st10)
  end.

(** [_glMatrixDel]. *)
Definition _glMatrixDel (vpcoord : VP) (st : matrices) : result (Z * matrices) :=
  st1 ← _glMatrixMode asserts GL_PROJECTION st;
  st2 ← _glPopMatrix asserts st1;
  st3 ← _glMatrixMode asserts GL_MODELVIEW st2;
  st4 ← _glPopMatrix asserts st3;
  Returns (TRUE, st4).

End Projection.

End S52GLmatrix.

(** ** The sentences of the specification that the code does not follow,
       as worded *)

Module Spec.

Import S57data S52GL S57proj Geometry.

(** "ExtentInvalid - W>E or S>N, or infinite extent": such a call fails
    and stores nothing. *)
Definition extent_invalid (x1 y1 x2 y2 : float) : bool :=
  isinf x1 || isinf y1 || isinf x2 || isinf y2
  || PrimFloat.ltb x2 x1 || PrimFloat.ltb y2 y1.

Definition setExt_rejects_invalid (asserts : bool) (geo : S57_geo)
    (x1 y1 x2 y2 : float) (st : statics) : Prop :=
  extent_invalid x1 y1 x2 y2 = true ->
  exists geo' st',
    S57_setExt asserts geo x1 y1 x2 y2 st = Ret (FALSE, geo', st') /\
    rect geo' = rect geo.

(** "Primitive sum": the [count]s of all spans, and one more for each
    TRANSLATE span, are at most the vertices stored. *)
Definition translate_spans (l : list _prim) : Z :=
  len (List.filter (fun p => mode p =? _QUADRIC_TRANSLATE) l).

Definition primitive_sum (p : S57_prim) : Prop :=
  sum_count (list_ p) + translate_spans (list_ p) <= len (vertex_ p).

(** "attempting to overwrite is an error returned to the caller": a
    second, different touch is refused and the first one stays. *)
Definition setTouch_refuses_overwrite (role : touch_role) (geo : S57_geo)
    (t1 t2 : positive) : Prop :=
  t1 <> t2 ->
  let geo1 := snd (S57_setTouch role geo (Some t1)) in
  fst (S57_setTouch role geo1 (Some t2)) = FALSE /\
  S57_getTouch role (snd (S57_setTouch role geo1 (Some t2))) = Some t1.


(** "Within a single PICK cycle, distinct features receive distinct
    color indices." *)
Definition pick_indices_distinct (objs : list (S52_obj * list col))
    (st0 : gl_state) : Prop :=
  forall (asserts : bool) (vp : Z * Z * Z * Z) (st : gl_state),
    S52_GL_begin asserts vp S52_GL_PICK st0 = Ret (TRUE, st) ->
    List.NoDup (fst (draw_all objs st)).



(** "after a first successful set, every later attempt to set the origin
    is a no-op that returns failure with a warning, leaving the stored
    projection definition unchanged": the attempt [(lat', lon')] made
    after the calls [calls] have followed the first set. *)
Definition setMercPrj_once_per_session (pj_init_plus : string -> option Z)
    (pj_get_release : option string)
    (pj_transform : option Z -> Z -> list vertex -> Z * list vertex)
    (fmt_f6 : float -> string) (asserts : bool) (lat lon : float) (st : statics)
    (al : attList_t) (calls : list proj_call) (lat' lon' : float) : Prop :=
  forall (st1 st2 : statics) (rets : list Z) (al2 : attList_t),
    S57_setMercPrj pj_init_plus fmt_f6 asserts lat lon st = Ret (TRUE, st1) ->
    session pj_init_plus pj_get_release pj_transform fmt_f6 asserts calls (st1, al)
    = Some (Ret (rets, (st2, al2))) ->
    exists st3 : statics,
      S57_setMercPrj pj_init_plus fmt_f6 asserts lat' lon' st2 = Ret (FALSE, st3) /\
      _pjstr st3 = _pjstr st1.

End Spec.

(** * Properties *)

Import S57data S52GL Invariants Geometry Samples Spec.

(** ** C integer conversions *)

Lemma to_guint_small (z : Z) : 0 <= z < 2 ^ 32 -> to_guint z = z.
Proof. intros H. unfold to_guint. apply Z.mod_small. exact H. Qed.

Lemma to_guint_to_int (z : Z) : 0 <= z < 2 ^ 32 -> to_guint (to_int z) = z.
Proof.
  intros H. unfold to_guint, to_int.
  change (2 ^ 32) with 4294967296 in *. change (2 ^ 31) with 2147483648.
  destruct (Z_lt_ge_dec z 2147483648) as [Hlt | Hge].
  - rewrite (Z.mod_small (z + 2147483648)) by lia.
    replace (z + 2147483648 - 2147483648) with z by lia.
    apply Z.mod_small; lia.
  - replace (z + 2147483648) with (z - 2147483648 + 1 * 4294967296) by lia.
    rewrite Z.mod_add by lia.
    rewrite (Z.mod_small (z - 2147483648)) by lia.
    replace (z - 2147483648 - 2147483648) with (z + (-1) * 4294967296) by lia.
    rewrite Z.mod_add by lia.
    apply Z.mod_small; lia.
Qed.

Lemma to_int_le (z : Z) : 0 <= z < 2 ^ 32 -> to_int z <= z.
Proof.
  intros H. unfold to_int.
  change (2 ^ 32) with 4294967296 in *. change (2 ^ 31) with 2147483648.
  destruct (Z_lt_ge_dec z 2147483648) as [Hlt | Hge].
  - rewrite Z.mod_small by lia. lia.
  - replace (z + 2147483648) with (z - 2147483648 + 1 * 4294967296) by lia.
    rewrite Z.mod_add by lia.
    rewrite Z.mod_small by lia. lia.
Qed.

Lemma to_int_small (z : Z) : 0 <= z < 2 ^ 31 -> to_int z = z.
Proof.
  intros H. unfold to_int.
  change (2 ^ 32) with 4294967296 in *. change (2 ^ 31) with 2147483648 in *.
  rewrite Z.mod_small by lia. lia.
Qed.

(** ** Primitive buffer *)

Section PrimBuffer.

Lemma sum_count_app (l : list _prim) (q : _prim) :
  sum_count (l ++ [q]) = sum_count l + count q.
Proof.
  unfold sum_count. induction l as [| p l IH]; simpl; lia.
Qed.

Lemma len_app1 {A : Type} (l : list A) (x : A) : len (l ++ [x]) = len l + 1.
Proof. unfold len. rewrite length_app. simpl. lia. Qed.

Lemma len_nonneg {A : Type} (l : list A) : 0 <= len l.
Proof. unfold len. lia. Qed.

Lemma to_int_rel (exact : bool) (z : Z) :
  0 <= z < (if exact then 2 ^ 31 else 2 ^ 32) -> rel exact (to_int z) z.
Proof.
  destruct exact; simpl; intros H.
  - now apply to_int_small.
  - now apply to_int_le.
Qed.

Lemma rel_add (exact : bool) (a b c d : Z) :
  rel exact a b -> rel exact c d -> rel exact (a + c) (b + d).
Proof. destruct exact; simpl; lia. Qed.

Lemma run_ops_bracketed (exact : bool) (ops : list prim_op) :
  forall (inside : bool) (p : S57_prim),
    bracketed_from inside ops = true ->
    (inside = true -> list_ p <> []) ->
    exists p',
      run_ops ops p = Some p' /\
      len (vertex_ p) <= len (vertex_ p') /\
      (len (vertex_ p') < (if exact then 2 ^ 31 else 2 ^ 32) ->
       prim_inv exact inside p -> prim_inv exact false p').
Proof.
  assert (Hlim : (if exact then 2 ^ 31 else 2 ^ 32) <= 2 ^ 32)
    by (destruct exact; lia).
  induction ops as [| o ops IH]; intros inside p Hbr Hne.
  - simpl in Hbr. destruct inside; [discriminate |].
    exists p. split; [reflexivity |]. split; [lia |]. auto.
  - destruct o as [m j | v |]; simpl in Hbr;
      apply andb_true_iff in Hbr as [Hin Hbr].
    + (* S57_begPrim *)
      destruct inside; [discriminate |].
      destruct (IH true (snd (S57_begPrim p m j)) Hbr) as (p' & Hrun & Hlen & Hinv).
      { intros _. simpl. destruct (list_ p); discriminate. }
      exists p'. split; [exact Hrun |]. split; [exact Hlen |].
      intros Hb Hp. apply Hinv; [exact Hb |].
      simpl. exists (list_ p), (mk_prim m (to_int (len (vertex_ p))) j), (len (vertex_ p)).
      simpl. pose proof (len_nonneg (vertex_ p)). unfold prim_inv in Hp.
      repeat split; auto with zarith.
    + (* S57_addPrimVertex *)
      destruct inside; [| discriminate].
      destruct (IH true (snd (S57_addPrimVertex p v)) Hbr) as (p' & Hrun & Hlen & Hinv).
      { intros _. simpl. auto. }
      simpl in Hlen. rewrite len_app1 in Hlen.
      exists p'. split; [exact Hrun |]. split; [lia |].
      intros Hb Hp. apply Hinv; [exact Hb |].
      destruct Hp as (l & q & n0 & Hl & Hf & Hn & Hs).
      exists l, q, n0. simpl. rewrite len_app1. auto with zarith.
    + (* S57_endPrim *)
      destruct inside; [| discriminate].
      specialize (Hne eq_refl).
      destruct (exists_last Hne) as (l & q & Hl).
      assert (Hend : S57_endPrim p =
                Some (TRUE, mk_S57_prim
                   (l ++ [mk_prim (mode q) (first q)
                            (to_int (to_guint (len (vertex_ p) - to_guint (first q))))])
                   (vertex_ p) (DList p))).
      { unfold S57_endPrim. rewrite Hl, rev_app_distr. simpl.
        rewrite rev_involutive. reflexivity. }
      simpl. rewrite Hend. simpl.
      match goal with
      | |- context [run_ops ops ?p1] =>
          destruct (IH false p1 Hbr) as (p' & Hrun & Hlen & Hinv); [discriminate |]
      end.
      simpl in Hlen.
      exists p'. split; [exact Hrun |]. split; [exact Hlen |].
      intros Hb Hp. apply Hinv; [exact Hb |].
      destruct Hp as (l0 & q0 & n0 & Hl0 & Hf & Hn & Hs).
      rewrite Hl in Hl0. apply app_inj_tail in Hl0 as [-> ->].
      unfold prim_inv. simpl. rewrite sum_count_app. simpl.
      rewrite Hf, to_guint_to_int by lia.
      rewrite to_guint_small by lia.
      replace (len (vertex_ p)) with (n0 + (len (vertex_ p) - n0)) at 2 by lia.
      apply rel_add; [exact Hs |].
      apply to_int_rel. lia.
Qed.

(** C9, as the spec words it, fails on the span of a circle's centre
    ([_glBegin(_QUADRIC_TRANSLATE)], [_vertex3f], [_glEnd]): its one vertex
    is in [count] already, one more for the TRANSLATE span exceeds the one
    vertex stored. *)
Lemma translate_span_counted_twice :
  exists p,
    run_ops [BegPrim _QUADRIC_TRANSLATE 77; AddVertex (1, 2, 0)%float; EndPrim]
      (S57_initPrim None) = Some p /\
    list_ p = [mk_prim _QUADRIC_TRANSLATE 0 1] /\
    ~ primitive_sum p.
Proof.
  eexists. split; [reflexivity |]. split; [reflexivity |].
  unfold primitive_sum. vm_compute. intros H. now apply H.
Qed.

(** C9, amended.  A buffer filled from empty by a properly bracketed
    sequence of [S57_begPrim], [S57_addPrimVertex] and [S57_endPrim] calls
    is built without error, and the [count]s of its spans add up to at
    most the number of vertices stored, whatever [count] held before
    [S57_endPrim] set it; they add up to exactly that number when it is
    below [2^31], so that no [count] wrapped.  The vertex of a TRANSLATE
    span is counted by the span like any other vertex, not a second time.
    The vertex array is a [GArray]: fewer than [2^32] elements. *)
Theorem prim_span_counts_bounded (ops : list prim_op) :
  bracketed ops = true ->
  exists p,
    run_ops ops (S57_initPrim None) = Some p /\
    (len (vertex_ p) < 2 ^ 32 -> sum_count (list_ p) <= len (vertex_ p)) /\
    (len (vertex_ p) < 2 ^ 31 -> sum_count (list_ p) = len (vertex_ p)).
Proof.
  intros Hbr.
  destruct (run_ops_bracketed false ops false (S57_initPrim None) Hbr)
    as (p & Hrun & _ & Hinv); [discriminate |].
  destruct (run_ops_bracketed true ops false (S57_initPrim None) Hbr)
    as (p' & Hrun' & _ & Hinv'); [discriminate |].
  rewrite Hrun in Hrun'. injection Hrun' as <-.
  exists p. split; [exact Hrun |]. split.
  - intros Hb. apply (Hinv Hb). unfold prim_inv, rel. simpl. unfold len. simpl. lia.
  - intros Hb. apply (Hinv' Hb). reflexivity.
Qed.

Lemma prim_span_counts_bounded_witness :
  exists p,
    run_ops [BegPrim _QUADRIC_TRANSLATE 77; AddVertex (1, 2, 0)%float; EndPrim;
             BegPrim 4 (-5); AddVertex (0, 0, 0)%float; AddVertex (1, 0, 0)%float;
             AddVertex (0, 1, 0)%float; EndPrim]
      (S57_initPrim None) = Some p /\
    (len (vertex_ p) < 2 ^ 32 -> sum_count (list_ p) <= len (vertex_ p)) /\
    (len (vertex_ p) < 2 ^ 31 -> sum_count (list_ p) = len (vertex_ p)).
Proof.
  apply (prim_span_counts_bounded
           [BegPrim _QUADRIC_TRANSLATE 77; AddVertex (1, 2, 0)%float; EndPrim;
            BegPrim 4 (-5); AddVertex (0, 0, 0)%float; AddVertex (1, 0, 0)%float;
            AddVertex (0, 1, 0)%float; EndPrim]).
  reflexivity.
Defined.

End PrimBuffer.

(** ** Centroid cache *)

Section Centroid.

Lemma next_n_exhausted (m : nat) (geo : S57_geo) (c : list pt2) :
  centroid geo = Some c ->
  centroidIdx geo = len c ->
  fst (next_n m geo) = repeat (FALSE, None) m.
Proof.
  intros Hc Hi. induction m as [| m IH]; [reflexivity |].
  simpl. unfold S57_getNextCentroid. rewrite Hc, Hi.
  rewrite Z.ltb_irrefl.
  destruct (next_n m geo) as [rs g2] eqn:E. simpl in *. now rewrite IH.
Qed.

Lemma next_n_yields (rest : list pt2) :
  forall (done : list pt2) (m : nat) (geo : S57_geo),
    centroid geo = Some (done ++ rest) ->
    centroidIdx geo = len done ->
    len (done ++ rest) < 2 ^ 32 ->
    fst (next_n (length rest + m) geo)
    = map (fun p => (TRUE, Some p)) rest ++ repeat (FALSE, None) m.
Proof.
  induction rest as [| p rest IH]; intros done m geo Hc Hi Hb.
  - simpl. rewrite app_nil_r in Hc. now apply next_n_exhausted with (c := done).
  - simpl. unfold S57_getNextCentroid. rewrite Hc, Hi.
    assert (Hlt : (len done <? len (done ++ p :: rest)) = true).
    { apply Z.ltb_lt. unfold len. rewrite length_app. simpl. lia. }
    rewrite Hlt.
    assert (Hnth : nth_error (done ++ p :: rest) (Z.to_nat (len done)) = Some p).
    { unfold len. rewrite Nat2Z.id, nth_error_app2 by lia.
      now rewrite Nat.sub_diag. }
    rewrite Hnth.
    match goal with
    | |- context [next_n _ ?g1] =>
        specialize (IH (done ++ [p]) m g1)
    end.
    simpl in IH. rewrite <- app_assoc in IH. simpl in IH.
    destruct (next_n _ _) as [rs g2] eqn:E. simpl in *.
    rewrite IH; [reflexivity | reflexivity | | exact Hb].
    rewrite len_app1. apply to_guint_small.
    pose proof (len_nonneg done). unfold len in *.
    rewrite length_app in Hb. simpl in Hb. lia.
Qed.

Lemma add_all_appends (pts : list pt2) :
  forall (geo : S57_geo) (c : list pt2),
    centroid geo = Some c ->
    centroid (add_all pts geo) = Some (c ++ pts).
Proof.
  induction pts as [| p pts IH]; intros geo c Hc; simpl.
  - now rewrite app_nil_r.
  - unfold add_all in IH. rewrite (IH _ (c ++ [p])).
    + now rewrite <- app_assoc.
    + simpl. rewrite Hc. now destruct p.
Qed.

(** C10.  [S57_hasCentroid] puts the cursor back to 0, allocates an empty
    list when the feature has none, and answers TRUE exactly when a
    centroid is cached.  The calls of [S57_getNextCentroid] that follow
    yield the cached centroids first to last, each with TRUE, and every
    further call answers FALSE.  The cached list is the sequence of
    [S57_addCentroid] calls since [S57_newCentroid], in that order. *)
Theorem hasCentroid_then_next (geo : S57_geo) (m : nat) :
  len (default [] (centroid geo)) < 2 ^ 32 ->
  S57_hasCentroid geo
  = ((if decide (default [] (centroid geo) = []) then FALSE else TRUE),
     set_centroid geo 0 (Some (default [] (centroid geo)))) /\
  fst (next_n (length (default [] (centroid geo)) + m) (snd (S57_hasCentroid geo)))
  = map (fun p => (TRUE, Some p)) (default [] (centroid geo))
    ++ repeat (FALSE, None) m /\
  (forall pts : list pt2,
     centroid (add_all pts (snd (S57_newCentroid geo))) = Some pts).
Proof.
  intros Hb.
  assert (Hhas : S57_hasCentroid geo
                 = ((if decide (default [] (centroid geo) = []) then FALSE else TRUE),
                    set_centroid geo 0 (Some (default [] (centroid geo))))).
  { unfold S57_hasCentroid. destruct (centroid geo) as [c |] eqn:Hc; simpl.
    - destruct c as [| p c]; simpl; [reflexivity |].
      unfold len. simpl. reflexivity.
    - reflexivity. }
  split; [exact Hhas |]. split.
  - rewrite Hhas. simpl.
    apply (next_n_yields _ []); simpl; auto.
  - intros pts. now rewrite (add_all_appends pts _ []).
Qed.

Lemma hasCentroid_then_next_witness :
  S57_hasCentroid geo_two_centroids
  = (TRUE, set_centroid geo_two_centroids 0 (Some two_centroids)) /\
  fst (next_n 4 (snd (S57_hasCentroid geo_two_centroids)))
  = [(TRUE, Some (1, 2)%float); (TRUE, Some (3, 4)%float); (FALSE, None); (FALSE, None)].
Proof.
  pose proof (hasCentroid_then_next geo_two_centroids 2) as H.
  simpl in H. destruct H as (H1 & H2 & _); [reflexivity |].
  split; [exact H1 | exact H2].
Defined.

End Centroid.

(** ** Mercator projection set-up *)

Section MercPrj.

Variable pj_init_plus : string -> option Z.
Variable fmt_f6 : float -> string.

Lemma setMercPrj_when_set (asserts : bool) (lat lon : float) (st : statics) (str : string) :
  _pjstr st = Some str ->
  S57_setMercPrj pj_init_plus fmt_f6 asserts lat lon st
  = Ret (FALSE, PRINTF st ["WARNING: Merc projection allready set"%string]).
Proof. intros H. unfold S57_setMercPrj. now rewrite H. Qed.

Lemma PRINTF_PRINTF (st : statics) (a b : list string) :
  PRINTF (PRINTF st a) b = PRINTF st (a ++ b).
Proof. unfold PRINTF. simpl. now rewrite <- app_assoc. Qed.

Lemma PRINTF_nil (st : statics) : PRINTF st [] = st.
Proof. unfold PRINTF. rewrite app_nil_r. now destruct st. Qed.

Lemma setMercPrj_all_when_set (asserts : bool) (calls : list (float * float)) :
  forall (st : statics) (str : string),
    _pjstr st = Some str ->
    setMercPrj_all pj_init_plus fmt_f6 asserts calls st
    = Ret (map (fun _ => FALSE) calls,
           PRINTF st (map (fun _ => "WARNING: Merc projection allready set"%string) calls)).
Proof.
  induction calls as [| [lat lon] calls IH]; intros st str H; simpl.
  - now rewrite PRINTF_nil.
  - rewrite (setMercPrj_when_set _ _ _ _ str H). simpl.
    rewrite (IH _ str) by exact H. simpl.
    now rewrite PRINTF_PRINTF.
Qed.

End MercPrj.

(** ** Extent *)

Section Extent.

(** C8, as the spec words it, fails: W > E is stored and TRUE returned. *)
Lemma setExt_stores_W_gt_E :
  ~ setExt_rejects_invalid true geo0 10 0 5 1 statics0.
Proof.
  intros H. destruct H as (geo' & st' & H & _); [reflexivity |].
  discriminate H.
Qed.

(** C8, amended.  [S57_setExt] does not compare W with E or S with N and
    does not look at [y1], [y2]: unless [x1] and [x2] are both infinite
    it stores the four values as given and returns TRUE, prints
    nothing. *)
Theorem setExt_stores_as_given (asserts : bool) (geo : S57_geo)
    (x1 y1 x2 y2 : float) (st : statics) :
  isinf x1 && isinf x2 = false ->
  S57_setExt asserts geo x1 y1 x2 y2 st
  = Ret (TRUE, set_rect geo (mk_rect x1 y1 x2 y2), st).
Proof. intros H. unfold S57_setExt. now rewrite H. Qed.

Lemma setExt_stores_as_given_witness :
  extent_invalid 10 infinity 5 1 = true /\
  S57_setExt true geo0 10 infinity 5 1 statics0
  = Ret (TRUE, set_rect geo0 (mk_rect 10 infinity 5 1), statics0).
Proof.
  split; [reflexivity |].
  apply (setExt_stores_as_given true geo0 10 infinity 5 1 statics0).
  reflexivity.
Defined.

End Extent.

(** ** Attributes *)

Section Attributes.

Lemma getAttVal_absent (geo : S57_geo) (k : string) (st : statics) :
  attribs geo !! k = None ->
  S57_getAttVal geo k st = (None, st).
Proof. intros H. unfold S57_getAttVal. now rewrite H. Qed.

Lemma getAttVal_marker (geo : S57_geo) (k : string) (st : statics) :
  attribs geo !! k = Some EMPTY_NUMBER_MARKER ->
  S57_getAttVal geo k st = (None, st).
Proof. intros H. unfold S57_getAttVal. now rewrite H. Qed.

Lemma getAttVal_empty_first (geo : S57_geo) (k : string) (st : statics) :
  attribs geo !! k = Some ""%string ->
  silent st = false ->
  fst (S57_getAttVal geo k st) = None /\
  silent (snd (S57_getAttVal geo k st)) = true.
Proof. intros H Hs. unfold S57_getAttVal. now rewrite H, Hs. Qed.

(** C4.  Once the note about a valueless attribute has been printed
    ([silent] is set), looking up an attribute whose stored value is the
    empty string returns that empty string, not NULL. *)
Theorem getAttVal_empty_after_note (geo : S57_geo) (k : string) (st : statics) :
  attribs geo !! k = Some ""%string ->
  silent st = true ->
  S57_getAttVal geo k st = (Some ""%string, st).
Proof. intros H Hs. unfold S57_getAttVal. now rewrite H, Hs. Qed.

(** Two look-ups in a row of the same empty attribute: NULL, then the
    empty string. *)
Lemma getAttVal_empty_after_note_witness :
  fst (S57_getAttVal geo_empty_att "OBJNAM" statics0) = None /\
  S57_getAttVal geo_empty_att "OBJNAM" (snd (S57_getAttVal geo_empty_att "OBJNAM" statics0))
  = (Some ""%string, snd (S57_getAttVal geo_empty_att "OBJNAM" statics0)).
Proof.
  split; [reflexivity |].
  apply (getAttVal_empty_after_note geo_empty_att "OBJNAM"
           (snd (S57_getAttVal geo_empty_att "OBJNAM" statics0)));
    reflexivity.
Defined.

End Attributes.

(** ** Touch references *)

Section Touch.

(** C5, as the spec words it, fails: the second touch replaces the
    first and TRUE is returned. *)
Lemma setTouch_overwrites :
  ~ setTouch_refuses_overwrite TOPMAR geo0 1%positive 2%positive.
Proof.
  intros H. destruct H as [H _]; [discriminate |].
  discriminate H.
Qed.

(** C5, amended.  For each of the four roles the setter stores the
    reference it is given and returns TRUE, whatever was stored: the same
    value twice leaves the feature as after the first call, a different
    value replaces the stored one. *)
Theorem setTouch_replaces (role : touch_role) (geo : S57_geo) (t1 t2 : geo_ptr) :
  let geo1 := snd (S57_setTouch role geo t1) in
  fst (S57_setTouch role geo t1) = TRUE /\
  S57_getTouch role geo1 = t1 /\
  S57_setTouch role geo1 t1 = (TRUE, geo1) /\
  S57_setTouch role geo1 t2 = (TRUE, snd (S57_setTouch role geo t2)) /\
  S57_getTouch role (snd (S57_setTouch role geo1 t2)) = t2.
Proof. destruct role; repeat split. Qed.

(** The four roles are the members of one C union: a touch set under one
    role is what every other role reads. *)
Lemma touch_roles_share_storage (r1 r2 : touch_role) (geo : S57_geo) (t : geo_ptr) :
  S57_getTouch r2 (snd (S57_setTouch r1 geo t)) = t.
Proof. destruct r1, r2; reflexivity. Qed.

End Touch.

(** ** Frame cycle *)

Section Cycle.

Lemma begin_result (asserts : bool) (vp : Z * Z * Z * Z) (cycle : S52_GL_cycle)
    (st : gl_state) (ret : Z) (st' : gl_state) :
  S52_GL_begin asserts vp cycle st = Ret (ret, st') ->
  ret = TRUE /\ _GL_BEGIN st' = true /\ _crnt_GL_cycle st' = cycle /\
  (cycle = S52_GL_PICK -> _cIdx st' = mk_col 0 0 0 0 /\ _objPick st' = []).
Proof.
  unfold S52_GL_begin, CHECK_GL_END, g_assert_0. intros H.
  destruct (_GL_BEGIN st), asserts, (cycle_eqb S52_GL_NONE (_crnt_GL_cycle st)),
    (vp_unset (_vp st));
    simpl in H; try discriminate;
    match type of H with
    | context [?x <? ?y] => destruct (x <? y)
    end; simpl in H; try discriminate;
    injection H as <- <-; simpl;
    (split; [reflexivity |]); (split; [reflexivity |]); (split; [reflexivity |]);
    intros ->; split; reflexivity.
Qed.

(** A begin from the idle state goes through in either build. *)
Lemma begin_from_idle (asserts : bool) (vp : Z * Z * Z * Z) (cycle : S52_GL_cycle)
    (st : gl_state) :
  _GL_BEGIN st = false ->
  _crnt_GL_cycle st = S52_GL_NONE ->
  vp_unset (_vp st) = false ->
  to_guint (vp_width (_vp st) * vp_height (_vp st) * _fb_format) <= _fb_pixels_size st ->
  exists st',
    S52_GL_begin asserts vp cycle st = Ret (TRUE, st') /\
    _crnt_GL_cycle st' = cycle.
Proof.
  intros Hb Hc Hv Hfb. unfold S52_GL_begin, CHECK_GL_END.
  rewrite Hb, Hc, Hv. simpl.
  apply Z.ltb_ge in Hfb. rewrite Hfb. simpl.
  eexists. split; reflexivity.
Qed.




End Cycle.

(** ** Cursor pick *)

Section Pick.

Lemma draw_pick_index (obj : S52_obj) (px : list col) (st : gl_state) :
  _crnt_GL_cycle st = S52_GL_PICK ->
  _crnt_GL_cycle (snd (S52_GL_draw obj px st)) = S52_GL_PICK /\
  colour_index (snd (S52_GL_draw obj px st)) = (colour_index st + 1) mod 256.
Proof.
  intros H. unfold S52_GL_draw, colour_index. rewrite H. simpl.
  destruct (existsb _ _); simpl; auto.
Qed.

Lemma draw_all_indices (objs : list (S52_obj * list col)) :
  forall st : gl_state,
    _crnt_GL_cycle st = S52_GL_PICK ->
    fst (draw_all objs st)
    = map (fun k => (colour_index st + Z.of_nat k) mod 256) (seq 1 (length objs)).
Proof.
  induction objs as [| [obj px] objs IH]; intros st H; [reflexivity |].
  destruct (draw_pick_index obj px st H) as [Hc Hi].
  simpl. specialize (IH _ Hc).
  destruct (draw_all objs _) as [idxs st2] eqn:E. simpl in *.
  rewrite Hi. f_equal.
  rewrite IH, Hi, <- (seq_shift (length objs) 1), map_map.
  apply map_ext. intros k.
  rewrite Zplus_mod_idemp_l. f_equal. lia.
Qed.

Lemma map_mod_small (n : nat) :
  (n <= 255)%nat ->
  map (fun k => (0 + Z.of_nat k) mod 256) (seq 1 n) = map Z.of_nat (seq 1 n).
Proof.
  intros Hn. apply map_ext_in. intros k Hk. apply in_seq in Hk.
  simpl. apply Z.mod_small. lia.
Qed.

(** C2, as the spec words it, fails: of 257 features drawn in one PICK
    cycle the first and the last get colour index 1. *)
Lemma pick_index_wraps :
  ~ pick_indices_distinct objs257 gl_idle.
Proof.
  intros H.
  pose proof (H true (0, 0, 640, 480) gl_picking eq_refl) as Hnd.
  pose proof (proj1 (NoDup_nth_error _) Hnd 0%nat 256%nat) as Hij.
  assert (E : 0%nat = 256%nat).
  { apply Hij; vm_compute; [lia | reflexivity]. }
  discriminate E.
Qed.

(** C2, amended.  In a PICK cycle the k-th feature drawn gets colour
    index [k mod 256]: 1 for the first, one more for each next one.  Among
    at most 255 features drawn in the cycle no two get the same index. *)
Theorem pick_indices (asserts : bool) (vp : Z * Z * Z * Z) (st0 st : gl_state)
    (objs : list (S52_obj * list col)) :
  S52_GL_begin asserts vp S52_GL_PICK st0 = Ret (TRUE, st) ->
  fst (draw_all objs st)
  = map (fun k => Z.of_nat k mod 256) (seq 1 (length objs)) /\
  ((length objs <= 255)%nat ->
   fst (draw_all objs st) = map Z.of_nat (seq 1 (length objs)) /\
   List.NoDup (fst (draw_all objs st))).
Proof.
  intros Hb. apply begin_result in Hb as (_ & _ & Hc & Hp).
  destruct (Hp eq_refl) as [Hidx _].
  pose proof (draw_all_indices objs st Hc) as Hall.
  unfold colour_index in Hall. rewrite Hidx in Hall. simpl in Hall.
  split; [exact Hall |].
  intros Hn. rewrite Hall.
  rewrite (map_ext_in _ Z.of_nat).
  - split; [reflexivity |].
    apply Finite.Injective_map_NoDup; [| apply seq_NoDup].
    intros x y. apply Nat2Z.inj.
  - intros k Hk. apply in_seq in Hk. apply Z.mod_small. lia.
Qed.

Lemma pick_indices_witness :
  fst (draw_all (firstn 3 objs257) gl_picking) = [1; 2; 3] /\
  List.NoDup (fst (draw_all (firstn 3 objs257) gl_picking)).
Proof.
  destruct (pick_indices true (0, 0, 640, 480) gl_idle gl_picking (firstn 3 objs257))
    as [_ H]; [reflexivity |].
  apply H. simpl. lia.
Defined.

End Pick.

(** ** Cohen-Sutherland clipping *)

Section Clipping.

Lemma outcode_zero (vw : view) (x y : float) :
  _computeOutCode vw x y = 0 <-> not_outside vw x y.
Proof.
  unfold _computeOutCode, not_outside.
  destruct (v (_pmax vw) <? y)%float, (y <? v (_pmin vw))%float,
    (u (_pmax vw) <? x)%float, (x <? u (_pmin vw))%float;
    vm_compute; split; intros H; try discriminate H; try reflexivity;
    try (repeat split; reflexivity);
    try (destruct H as (H1 & H2 & H3 & H4); discriminate).
Qed.

Lemma outcode_shared (vw : view) (x1 y1 x2 y2 : float) :
  Z.land (_computeOutCode vw x1 y1) (_computeOutCode vw x2 y2) <> 0 <->
  beyond_one_side vw x1 y1 x2 y2.
Proof.
  unfold _computeOutCode, beyond_one_side.
  destruct (v (_pmax vw) <? y1)%float, (y1 <? v (_pmin vw))%float,
    (u (_pmax vw) <? x1)%float, (x1 <? u (_pmin vw))%float,
    (v (_pmax vw) <? y2)%float, (y2 <? v (_pmin vw))%float,
    (u (_pmax vw) <? x2)%float, (x2 <? u (_pmin vw))%float;
    vm_compute;
    (split;
     [ intros H;
       first [ exfalso; apply H; reflexivity
             | left; split; reflexivity
             | right; left; repeat split; reflexivity
             | right; right; left; split; reflexivity
             | right; right; right; repeat split; reflexivity ]
     | intros H;
       first [ intros E; discriminate E
             | destruct H as [[? ?] | [(? & ? & ? & ?) | [[? ?] | (? & ? & ? & ?)]]];
               discriminate ] ]).
Qed.

Lemma clip_body_done (vw : view) (x1 y1 x2 y2 : float) (c1 c2 acc : Z) :
  clip_body vw x1 y1 x2 y2 c1 c2 = Done acc ->
  (acc = TRUE /\ Z.lor c1 c2 = 0) \/ (acc = FALSE /\ Z.land c1 c2 <> 0).
Proof.
  unfold clip_body.
  destruct (Z.eqb_spec (Z.lor c1 c2) 0) as [E | E]; [intros [= <-]; now left |].
  destruct (Z.eqb_spec (Z.land c1 c2) 0) as [E' | E']; cbn [negb].
  - destruct (if negb (Z.land _ _TOP =? 0) then _ else _) as [[x y] |];
      [| discriminate].
    destruct (_ =? c1); discriminate.
  - intros [= <-]. now right.
Qed.

Lemma clip_body_again (vw : view) (x1 y1 x2 y2 : float) (c1 c2 : Z)
    (x1' y1' x2' y2' : float) (c1' c2' : Z) :
  c1 = _computeOutCode vw x1 y1 -> c2 = _computeOutCode vw x2 y2 ->
  clip_body vw x1 y1 x2 y2 c1 c2 = Again x1' y1' x2' y2' c1' c2' ->
  c1' = _computeOutCode vw x1' y1' /\ c2' = _computeOutCode vw x2' y2'.
Proof.
  intros H1 H2. unfold clip_body.
  destruct (Z.lor c1 c2 =? 0); [discriminate |].
  destruct (negb (Z.land c1 c2 =? 0)); [discriminate |].
  destruct (if negb (Z.land _ _TOP =? 0) then _ else _) as [[x y] |];
    [| discriminate].
  destruct (_ =? c1); intros [= <- <- <- <- <- <-]; split; auto.
Qed.

Lemma lor_zero (a b : Z) : Z.lor a b = 0 -> a = 0 /\ b = 0.
Proof. intros H. now apply Z.lor_eq_0_iff. Qed.

Lemma clip_loop_outcodes (fuel : nat) (vw : view) :
  forall (x1 y1 x2 y2 : float) (acc : Z) (a b c d : float),
    clip_loop fuel vw x1 y1 x2 y2 (_computeOutCode vw x1 y1) (_computeOutCode vw x2 y2)
    = Some (acc, (a, b, c, d)) ->
    (acc = TRUE /\ not_outside vw a b /\ not_outside vw c d)
    \/ (acc = FALSE /\ beyond_one_side vw a b c d).
Proof.
  induction fuel as [| fuel IH]; intros x1 y1 x2 y2 acc a b c d; [discriminate |].
  cbn [clip_loop].
  destruct (clip_body vw x1 y1 x2 y2 _ _) as [acc' | x1' y1' x2' y2' c1' c2' |] eqn:E;
    [| | discriminate].
  - intros [= <- <- <- <- <-].
    destruct (clip_body_done _ _ _ _ _ _ _ _ E) as [[-> Hz] | [-> Hs]].
    + left. apply lor_zero in Hz as [Hz1 Hz2].
      split; [reflexivity |]. split; now apply outcode_zero.
    + right. split; [reflexivity |]. now apply outcode_shared.
  - destruct (clip_body_again vw x1 y1 x2 y2 _ _ x1' y1' x2' y2' c1' c2' eq_refl eq_refl E)
      as [-> ->].
    apply IH.
Qed.

(** Scenario 5 of the specification: the segment (0,0)-(10,10) is cut to
    (5,5)-(10,10) by the view [5,5,15,15]. *)
Example scenario5_clip :
  _clipToView 5 view0 (0, 0, 10, 10)%float = Some (TRUE, (5, 5, 10, 10)%float).
Proof. vm_compute. reflexivity. Qed.

(** X31.  Whatever the segment and the view, [_clipToView] returns TRUE
    only with end points that no comparison puts beyond a side of the
    view, and FALSE only with end points that are both beyond one and the
    same side.  It needs one pass of its loop for a segment whose end
    points are not beyond any side, which it returns as given with TRUE,
    and for a segment whose end points are beyond one and the same side,
    which it returns as given with FALSE. *)
Theorem clipToView_outcodes (fuel : nat) (vw : view) (s : segment) :
  (forall (acc : Z) (a b c d : float),
     _clipToView fuel vw s = Some (acc, (a, b, c, d)) ->
     (acc = TRUE /\ not_outside vw a b /\ not_outside vw c d)
     \/ (acc = FALSE /\ beyond_one_side vw a b c d))
  /\ (let '(x1, y1, x2, y2) := s in
      (not_outside vw x1 y1 -> not_outside vw x2 y2 ->
       _clipToView (S fuel) vw s = Some (TRUE, s))
      /\ (beyond_one_side vw x1 y1 x2 y2 ->
          _clipToView (S fuel) vw s = Some (FALSE, s))).
Proof.
  destruct s as [[[x1 y1] x2] y2]. split.
  - intros acc a b c d. apply clip_loop_outcodes.
  - split.
    + intros H1 H2. apply outcode_zero in H1, H2.
      unfold _clipToView. cbn [clip_loop]. unfold clip_body. now rewrite H1, H2.
    + intros H. apply outcode_shared in H.
      unfold _clipToView. cbn [clip_loop]. unfold clip_body.
      destruct (Z.eqb_spec (Z.lor (_computeOutCode vw x1 y1) (_computeOutCode vw x2 y2)) 0)
        as [E | E].
      * apply lor_zero in E as [E1 E2]. rewrite E1 in H. now contradiction H.
      * destruct (Z.eqb_spec (Z.land (_computeOutCode vw x1 y1)
                                (_computeOutCode vw x2 y2)) 0); [contradiction |].
        reflexivity.
Qed.

Lemma clipToView_outcodes_witness :
  (not_outside view0 5 5 /\ not_outside view0 10 10) /\
  _clipToView 1 view0 (6, 6, 10, 10)%float = Some (TRUE, (6, 6, 10, 10)%float) /\
  _clipToView 1 view0 (0, 0, 4, 10)%float = Some (FALSE, (0, 0, 4, 10)%float).
Proof.
  split; [| split].
  - destruct (proj1 (clipToView_outcodes 5 view0 (0, 0, 10, 10)%float)
                TRUE 5%float 5%float 10%float 10%float scenario5_clip)
      as [(_ & H1 & H2) | (Hf & _)]; [split; assumption | discriminate Hf].
  - apply (proj1 (proj2 (clipToView_outcodes 0 view0 (6, 6, 10, 10)%float)));
      repeat split.
  - apply (proj2 (proj2 (clipToView_outcodes 0 view0 (0, 0, 4, 10)%float))).
    right. right. right. repeat split.
Defined.


(** C3, as the spec words it, fails on doubles: the segment from (0.5, 2)
    to (1.5 + 2^-52, 0) has no point within or on the unit square, whose
    corner (1, 1) it passes on the outside; the abscissa at which it meets
    the top side, [1 + 2^-53], rounds to 1, and [_clipToView] returns TRUE
    with both end points at the corner. *)
Theorem clipToView_accepts_disjoint_segment :
  _clipToView 3 view_unit seg_corner = Some (TRUE, (1, 1, 1, 1)%float) /\
  exists r q : Q * Q * Q * Q,
    view_value view_unit = Some r /\ segment_value seg_corner = Some q /\
    ~ meets r q.
Proof.
  split; [vm_compute; reflexivity |].
  eexists _, _. split; [vm_compute; reflexivity |].
  split; [vm_compute; reflexivity |].
  intros (x & y & (t & Ht0 & Ht1 & Hx & Hy) & (Hx0 & Hx1 & Hy0 & Hy1)).
  rewrite Hx in Hx1. rewrite Hy in Hy1.
  assert (Ht : (1 # 2 <= t)%Q).
  { clear - Hy1. unfold Qle, Qplus, Qmult, Qminus, Qopp in *. simpl in *. nia. }
  clear - Hx1 Ht. unfold Qle, Qplus, Qmult, Qminus, Qopp in *. simpl in *. nia.
Qed.

End Clipping.

(** ** Complex line *)

Section LC.




Section Pass.

Variable m : libm.
Variable fuel : nat.
Variable vw : view.
Variable _scalex : float.
Variable mp : mariner.
Variable obj : lc_obj.











End Pass.



(** The line of [line_tenths]: 70 symbols, and nothing left of the
    segment for the LINES draw but its end point. *)
Example line_tenths_render :
  match _renderLC libm_east 4 true 5 view_east 1 mariner0 line_tenths with
  | Some (Ret (ret, calls)) =>
      ret = TRUE /\ count_symbols calls = 70%nat /\
      List.last calls _glColor4ub
      = glDrawArrays_LINES 0 2 [(7, 0, 0)%float; (7, 0, 0)%float]
  | _ => False
  end.
Proof. vm_compute. repeat split; reflexivity. Qed.

(** The line of [line_east]: clipped to (0,0)-(7,0), length 7, symbols of
    length 2: three symbols, then the rest from x = 6 to x = 7 in the
    LINES draw that ends the call. *)
Example line_east_render :
  match _renderLC libm_east 4 true 5 view_east 1 mariner0 line_east with
  | Some (Ret (ret, calls)) =>
      ret = TRUE /\ count_symbols calls = 3%nat /\
      length (List.filter is_draw_lines calls) = 1%nat /\
      List.last calls _glColor4ub
      = glDrawArrays_LINES 0 2 [(6, 0, 0)%float; (7, 0, 0)%float]
  | _ => False
  end.
Proof. vm_compute. repeat split; reflexivity. Qed.

(** Scenario 5 of the specification: seven symbols on the clipped segment
    (5,5)-(10,10), the rest (less than a tenth of a unit in x and in y)
    in the LINES draw. *)
Example scenario5_symbols :
  match _renderLC libm_northeast 4 true 5 view0 1 mariner0 line_northeast with
  | Some (Ret (ret, calls)) =>
      ret = TRUE /\ count_symbols calls = 7%nat /\
      match List.last calls _glColor4ub with
      | glDrawArrays_LINES 0 2 [(a, b, _); (c, d, _)] =>
          (0x1.3cccccccccccdp+3 <? a)%float = true /\ (a <? 10)%float = true /\
          (0x1.3cccccccccccdp+3 <? b)%float = true /\ (b <? 10)%float = true /\
          c = 10%float /\ d = 10%float
      | _ => False
      end
  | _ => False
  end.
Proof. vm_compute. repeat split; reflexivity. Qed.

End LC.

(** * Properties of the further code *)

(** ** Primitive buffer: draw calls *)

Import S52GLvbo.

Section PrimSpans.

Lemma laid_from_app (l : list _prim) (q : _prim) (start : Z) :
  laid_from start (l ++ [q]) <->
  laid_from start l /\ first q = start + sum_count l /\ 0 <= count q.
Proof.
  revert start. induction l as [| p l IH]; intros start; simpl.
  - unfold sum_count; simpl. rewrite Z.add_0_r. tauto.
  - rewrite IH. unfold sum_count; simpl. fold (sum_count l).
    rewrite Z.add_assoc. tauto.
Qed.

Lemma run_ops_spans (ops : list prim_op) :
  forall (inside : bool) (p : S57_prim),
    bracketed_from inside ops = true ->
    (inside = true -> list_ p <> []) ->
    exists p',
      run_ops ops p = Some p' /\
      len (vertex_ p) <= len (vertex_ p') /\
      map mode (list_ p') = map mode (list_ p) ++ begun ops /\
      vertex_ p' = vertex_ p ++ added ops /\
      DList p' = DList p /\
      (len (vertex_ p') < 2 ^ 31 -> span_inv inside p -> span_inv false p').
Proof.
  induction ops as [| o ops IH]; intros inside p Hbr Hne.
  - simpl in Hbr. destruct inside; [discriminate |].
    exists p. simpl. rewrite !app_nil_r.
    split; [reflexivity |]. split; [lia |]. split; [reflexivity |].
    split; [reflexivity |]. split; [reflexivity |]. auto.
  - destruct o as [m j | v |]; simpl in Hbr;
      apply andb_true_iff in Hbr as [Hin Hbr].
    + (* S57_begPrim *)
      destruct inside; [discriminate |].
      destruct (IH true (snd (S57_begPrim p m j)) Hbr)
        as (p' & Hrun & Hlen & Hmo & Hve & Hdl & Hinv).
      { intros _. simpl. destruct (list_ p); discriminate. }
      simpl in Hlen, Hmo, Hve, Hdl.
      exists p'. split; [exact Hrun |]. split; [exact Hlen |].
      split.
      { rewrite Hmo, map_app. simpl. now rewrite <- app_assoc. }
      split; [exact Hve |]. split; [exact Hdl |].
      intros Hb [Hlaid Hsum]. apply Hinv; [exact Hb |].
      simpl. exists (list_ p), (mk_prim m (to_int (len (vertex_ p))) j).
      simpl. pose proof (len_nonneg (vertex_ p)).
      split; [reflexivity |]. split; [exact Hlaid |].
      split; [| lia].
      rewrite Hsum. apply to_int_small. lia.
    + (* S57_addPrimVertex *)
      destruct inside; [| discriminate].
      destruct (IH true (snd (S57_addPrimVertex p v)) Hbr)
        as (p' & Hrun & Hlen & Hmo & Hve & Hdl & Hinv).
      { intros _. simpl. auto. }
      simpl in Hlen, Hmo, Hve, Hdl. rewrite len_app1 in Hlen.
      exists p'. split; [exact Hrun |]. split; [lia |].
      split; [exact Hmo |].
      split.
      { rewrite Hve. simpl. now rewrite <- app_assoc. }
      split; [exact Hdl |].
      intros Hb (l & q & Hl & Hlaid & Hf & Hn). apply Hinv; [exact Hb |].
      exists l, q. simpl. rewrite len_app1. repeat split; auto; lia.
    + (* S57_endPrim *)
      destruct inside; [| discriminate].
      specialize (Hne eq_refl).
      destruct (exists_last Hne) as (l & q & Hl).
      assert (Hend : S57_endPrim p =
                Some (TRUE, mk_S57_prim
                   (l ++ [mk_prim (mode q) (first q)
                            (to_int (to_guint (len (vertex_ p) - to_guint (first q))))])
                   (vertex_ p) (DList p))).
      { unfold S57_endPrim. rewrite Hl, rev_app_distr. simpl.
        rewrite rev_involutive. reflexivity. }
      simpl. rewrite Hend. simpl.
      match goal with
      | |- context [run_ops ops ?p1] =>
          destruct (IH false p1 Hbr)
            as (p' & Hrun & Hlen & Hmo & Hve & Hdl & Hinv); [discriminate |]
      end.
      simpl in Hlen, Hmo, Hve, Hdl.
      exists p'. split; [exact Hrun |]. split; [exact Hlen |].
      split.
      { rewrite Hmo, Hl, !map_app. reflexivity. }
      split; [exact Hve |]. split; [exact Hdl |].
      intros Hb (l0 & q0 & Hl0 & Hlaid & Hf & Hn). apply Hinv; [exact Hb |].
      rewrite Hl in Hl0. apply app_inj_tail in Hl0 as [<- <-].
      assert (Hc : to_int (to_guint (len (vertex_ p) - to_guint (first q)))
                   = len (vertex_ p) - sum_count l).
      { rewrite Hf. rewrite (to_guint_small (sum_count l)) by lia.
        rewrite to_guint_small by lia. apply to_int_small. lia. }
      unfold span_inv. simpl. rewrite Hc. split.
      * apply laid_from_app. simpl. split; [exact Hlaid |]. lia.
      * rewrite sum_count_app. simpl. lia.
Qed.

Lemma getPrimIdx_nth (p : S57_prim) (i : nat) :
  S57_getPrimIdx p (Z.of_nat i)
  = option_map (fun q => (mode q, first q, count q)) (nth_error (list_ p) i).
Proof.
  unfold S57_getPrimIdx, len. rewrite Nat2Z.id.
  destruct (Z.of_nat (length (list_ p)) <=? Z.of_nat i) eqn:E.
  - apply Z.leb_le in E.
    assert (H : nth_error (list_ p) i = None) by (apply nth_error_None; lia).
    now rewrite H.
  - now destruct (nth_error (list_ p) i).
Qed.

Lemma laid_from_nth (l : list _prim) :
  forall (start : Z) (i : nat) (q : _prim),
    laid_from start l -> nth_error l i = Some q ->
    (i = 0%nat -> first q = start) /\ 0 <= count q /\
    match nth_error l (S i) with
    | Some q' => first q' = first q + count q
    | None => first q + count q = start + sum_count l
    end.
Proof.
  induction l as [| p l IH]; intros start i q Hl Hn.
  - destruct i; discriminate.
  - destruct Hl as (Hf & Hc & Hl). destruct i as [| i]; simpl in Hn.
    + injection Hn as <-. split; [auto |]. split; [exact Hc |].
      simpl. destruct l as [| p' l]; simpl.
      * unfold sum_count. simpl. lia.
      * destruct Hl as (Hf' & _). lia.
    + destruct (IH _ i q Hl Hn) as (_ & Hc' & Hnext).
      split; [discriminate |]. split; [exact Hc' |].
      change (nth_error (p :: l) (S (S i))) with (nth_error l (S i)).
      destruct (nth_error l (S i)); [exact Hnext |].
      rewrite Hnext. unfold sum_count. simpl. lia.
Qed.

Lemma laid_from_within (l : list _prim) :
  forall start : Z,
    laid_from start l ->
    Forall (fun q => start <= first q /\ 0 <= count q
                     /\ first q + count q <= start + sum_count l) l.
Proof.
  induction l as [| p l IH]; intros start Hl; [constructor |].
  destruct Hl as (Hf & Hc & Hl). specialize (IH _ Hl).
  assert (Hs : sum_count (p :: l) = count p + sum_count l) by reflexivity.
  assert (H0 : 0 <= sum_count l).
  { clear - Hl. revert Hl. generalize (start + count p).
    induction l as [| q l IH]; intros s Hl; [unfold sum_count; simpl; lia |].
    destruct Hl as (_ & Hc & Hl). specialize (IH _ Hl).
    unfold sum_count in *. simpl. lia. }
  constructor.
  - lia.
  - eapply Forall_impl; [exact IH |]. simpl. intros q. lia.
Qed.

Lemma VBODrawArrays_spans (p : S57_prim) :
  snd (_VBODrawArrays p)
  = map (fun q => glDrawArrays (mode q) (first q) (count q)) (list_ p).
Proof.
  unfold _VBODrawArrays. simpl. unfold len. rewrite Nat2Z.id.
  transitivity
    (map (fun i : nat =>
            match nth_error (list_ p) i with
            | Some q => glDrawArrays (mode q) (first q) (count q)
            | None => glDrawArrays 0 0 0
            end) (seq 0 (length (list_ p)))).
  - apply map_ext. intros i. rewrite getPrimIdx_nth.
    now destruct (nth_error (list_ p) i).
  - change (list_ p) with ([] ++ list_ p) at 1.
    change 0%nat with (length (@nil _prim)).
    generalize (@nil _prim) as pre. generalize (list_ p) as l.
    induction l as [| q l IH]; intros pre; [reflexivity |].
    simpl. f_equal.
    + rewrite nth_error_app2 by lia. now rewrite Nat.sub_diag.
    + specialize (IH (pre ++ [q])). rewrite length_app in IH. simpl in IH.
      rewrite Nat.add_1_r in IH. rewrite <- IH.
      apply map_ext. intros i. now rewrite <- app_assoc.
Qed.

(** X1.  The spans of a buffer are the [S57_begPrim] calls made on it, in
    order: [S57_getPrimIdx] hands out the mode of the i-th call and
    returns FALSE from their number on; [S57_getPrimData] counts them and
    gives the vertices in the order they were added. *)
Theorem prim_spans_in_order (ops : list prim_op) :
  bracketed ops = true ->
  exists p,
    run_ops ops (S57_initPrim None) = Some p /\
    S57_getPrimData p = (TRUE, (len (begun ops), added ops, len (added ops), 0)) /\
    forall i : nat,
      match S57_getPrimIdx p (Z.of_nat i) with
      | Some (m, _, _) => nth_error (begun ops) i = Some m
      | None => (length (begun ops) <= i)%nat
      end.
Proof.
  intros Hbr.
  destruct (run_ops_spans ops false (S57_initPrim None) Hbr)
    as (p & Hrun & _ & Hmo & Hve & Hdl & _); [discriminate |].
  simpl in Hmo, Hve, Hdl.
  assert (Hlen : length (list_ p) = length (begun ops)).
  { rewrite <- Hmo. now rewrite length_map. }
  exists p. split; [exact Hrun |]. split.
  - unfold S57_getPrimData, len. now rewrite Hlen, Hve, Hdl.
  - intros i. rewrite getPrimIdx_nth.
    destruct (nth_error (list_ p) i) as [q |] eqn:E; simpl.
    + rewrite <- Hmo. now apply map_nth_error.
    + apply nth_error_None in E. lia.
Qed.

Lemma prim_spans_in_order_witness :
  exists p,
    run_ops [BegPrim 4 0; AddVertex (0, 0, 0)%float; AddVertex (1, 0, 0)%float;
             AddVertex (0, 1, 0)%float; EndPrim]
      (S57_initPrim None) = Some p /\
    S57_getPrimIdx p 0 = Some (4, 0, 3) /\ S57_getPrimIdx p 1 = None.
Proof.
  destruct (prim_spans_in_order
              [BegPrim 4 0; AddVertex (0, 0, 0)%float; AddVertex (1, 0, 0)%float;
               AddVertex (0, 1, 0)%float; EndPrim] eq_refl) as (p & Hrun & _ & _).
  exists p. split; [exact Hrun |].
  injection Hrun as <-. split; reflexivity.
Defined.

(** X2.  Below [2^31] vertices the spans tile the vertex array: the first one
    starts at vertex 0, each next one where the one before it ends, the
    last one ends with the array, and no [count] is negative. *)
Theorem prim_spans_tile (ops : list prim_op) :
  bracketed ops = true ->
  len (added ops) < 2 ^ 31 ->
  exists p,
    run_ops ops (S57_initPrim None) = Some p /\
    forall (i : nat) (m f c : Z),
      S57_getPrimIdx p (Z.of_nat i) = Some (m, f, c) ->
      (i = 0%nat -> f = 0) /\ 0 <= c /\
      match S57_getPrimIdx p (Z.of_nat (S i)) with
      | Some (_, f', _) => f' = f + c
      | None => f + c = len (added ops)
      end.
Proof.
  intros Hbr Hb.
  destruct (run_ops_spans ops false (S57_initPrim None) Hbr)
    as (p & Hrun & _ & _ & Hve & _ & Hinv); [discriminate |].
  simpl in Hve. rewrite Hve in Hinv.
  destruct (Hinv Hb) as [Hlaid Hsum].
  { split; [exact I | reflexivity]. }
  exists p. split; [exact Hrun |].
  intros i m f c Hi. rewrite getPrimIdx_nth in Hi.
  destruct (nth_error (list_ p) i) as [q |] eqn:E; [| discriminate].
  injection Hi as <- <- <-.
  destruct (laid_from_nth _ _ _ _ Hlaid E) as (H0 & Hc & Hnext).
  split; [exact H0 |]. split; [exact Hc |].
  rewrite getPrimIdx_nth.
  destruct (nth_error (list_ p) (S i)); simpl; [exact Hnext |].
  rewrite Hnext, Hsum, Hve. lia.
Qed.

Lemma prim_spans_tile_witness :
  exists p,
    run_ops [BegPrim 6 0; AddVertex (0, 0, 0)%float; AddVertex (1, 0, 0)%float;
             AddVertex (0, 1, 0)%float; EndPrim;
             BegPrim 5 0; AddVertex (2, 2, 0)%float; EndPrim]
      (S57_initPrim None) = Some p /\
    S57_getPrimIdx p 0 = Some (6, 0, 3) /\ S57_getPrimIdx p 1 = Some (5, 3, 1).
Proof.
  destruct (prim_spans_tile
              [BegPrim 6 0; AddVertex (0, 0, 0)%float; AddVertex (1, 0, 0)%float;
               AddVertex (0, 1, 0)%float; EndPrim;
               BegPrim 5 0; AddVertex (2, 2, 0)%float; EndPrim] eq_refl eq_refl)
    as (p & Hrun & _).
  exists p. split; [exact Hrun |].
  injection Hrun as <-. split; reflexivity.
Defined.

(** X3.  [_VBODrawArrays] issues one [glDrawArrays] for each [S57_begPrim]
    call, in order and with its mode, and below [2^31] vertices every one
    of them stays within the vertex array. *)
Theorem VBODrawArrays_within (ops : list prim_op) :
  bracketed ops = true ->
  len (added ops) < 2 ^ 31 ->
  exists p,
    run_ops ops (S57_initPrim None) = Some p /\
    fst (_VBODrawArrays p) = TRUE /\
    map call_mode (snd (_VBODrawArrays p)) = begun ops /\
    Forall (within (len (vertex_ p))) (snd (_VBODrawArrays p)).
Proof.
  intros Hbr Hb.
  destruct (run_ops_spans ops false (S57_initPrim None) Hbr)
    as (p & Hrun & _ & Hmo & Hve & _ & Hinv); [discriminate |].
  simpl in Hve, Hmo. rewrite Hve in Hinv.
  destruct (Hinv Hb) as [Hlaid Hsum].
  { split; [exact I | reflexivity]. }
  exists p. split; [exact Hrun |]. split; [reflexivity |].
  rewrite VBODrawArrays_spans. split.
  - rewrite map_map. simpl. exact Hmo.
  - apply Forall_map. apply laid_from_within in Hlaid.
    eapply Forall_impl; [exact Hlaid |]. simpl. intros q. rewrite Hsum. lia.
Qed.

Lemma VBODrawArrays_within_witness :
  exists p,
    run_ops [BegPrim 6 0; AddVertex (0, 0, 0)%float; AddVertex (1, 0, 0)%float;
             AddVertex (0, 1, 0)%float; EndPrim;
             BegPrim 5 0; AddVertex (2, 2, 0)%float; EndPrim]
      (S57_initPrim None) = Some p /\
    snd (_VBODrawArrays p) = [glDrawArrays 6 0 3; glDrawArrays 5 3 1].
Proof.
  destruct (VBODrawArrays_within
              [BegPrim 6 0; AddVertex (0, 0, 0)%float; AddVertex (1, 0, 0)%float;
               AddVertex (0, 1, 0)%float; EndPrim;
               BegPrim 5 0; AddVertex (2, 2, 0)%float; EndPrim] eq_refl eq_refl)
    as (p & Hrun & _).
  exists p. split; [exact Hrun |].
  injection Hrun as <-. reflexivity.
Defined.

Lemma run_ops_with_DList (ops : list prim_op) :
  forall (p : S57_prim) (d : Z),
    run_ops ops (with_DList d p) = option_map (with_DList d) (run_ops ops p).
Proof.
  induction ops as [| o ops IH]; intros p d; [reflexivity |].
  destruct o as [m j | v |]; simpl.
  - exact (IH (snd (S57_begPrim p m j)) d).
  - exact (IH (snd (S57_addPrimVertex p v)) d).
  - unfold S57_endPrim. simpl. destruct (List.rev (list_ p)) as [| q before]; simpl.
    + reflexivity.
    + match goal with |- _ = option_map _ (run_ops ops ?p1) => exact (IH p1 d) end.
Qed.

(** X4.  A holder emptied by [S57_initPrim] for reuse takes the same calls to
    the same spans and vertices as a new one; it keeps the display-list /
    VBO id it had, whatever is stored in it afterwards. *)
Theorem initPrim_reuse (ops : list prim_op) (old : S57_prim) :
  run_ops ops (S57_initPrim (Some old))
  = option_map (with_DList (DList old)) (run_ops ops (S57_initPrim None)).
Proof. exact (run_ops_with_DList ops (S57_initPrim None) (DList old)). Qed.

End PrimSpans.

(** ** Attributes, SCAMIN and the PROJ set-up *)

Import S57proj.

Section AttributeRoundTrip.

Lemma setAtt_getAttVal_set (geo : S57_geo) (k v : string) (st : statics) :
  v <> EMPTY_NUMBER_MARKER -> v <> ""%string ->
  S57_getAttVal (S57_setAtt geo k v) k st = (Some v, st).
Proof.
  intros Hm He. unfold S57_getAttVal, S57_setAtt. simpl.
  rewrite lookup_insert_eq.
  destruct (String.eqb v EMPTY_NUMBER_MARKER) eqn:E.
  - apply String.eqb_eq in E. contradiction.
  - assert (Hl : (Z.of_nat (String.length v) =? 0) = false).
    { apply Z.eqb_neq. destruct v; [contradiction | simpl; lia]. }
    rewrite Hl, andb_false_r. reflexivity.
Qed.

(** X5.  [S57_setAtt] then [S57_getAttVal]: another key is looked up as
    before; the key just set gives the new value, unless that is the
    omitted-value marker (NULL) or the empty string (NULL the first time
    in the process, the empty string afterwards); setting a key again
    replaces its value. *)
Theorem setAtt_getAttVal (geo : S57_geo) (k k' v v' : string) (st : statics) :
  (k' <> k ->
   S57_getAttVal (S57_setAtt geo k v) k' st = S57_getAttVal geo k' st) /\
  (v <> EMPTY_NUMBER_MARKER -> v <> ""%string ->
   S57_getAttVal (S57_setAtt geo k v) k st = (Some v, st)) /\
  S57_getAttVal (S57_setAtt geo k EMPTY_NUMBER_MARKER) k st = (None, st) /\
  S57_setAtt (S57_setAtt geo k v) k v' = S57_setAtt geo k v'.
Proof.
  split; [| split; [| split]].
  - intros Hne. unfold S57_getAttVal, S57_setAtt. simpl.
    rewrite lookup_insert_ne by congruence. reflexivity.
  - apply setAtt_getAttVal_set.
  - unfold S57_getAttVal, S57_setAtt. simpl. rewrite lookup_insert_eq.
    now rewrite String.eqb_refl.
  - unfold S57_setAtt, set_attribs. simpl. now rewrite insert_insert_eq.
Qed.

Lemma setAtt_getAttVal_witness :
  S57_getAttVal (S57_setAtt geo0 "OBJNAM" "Pier 4") "DRVAL1" statics0
  = S57_getAttVal geo0 "DRVAL1" statics0 /\
  S57_getAttVal (S57_setAtt geo0 "OBJNAM" "Pier 4") "OBJNAM" statics0
  = (Some "Pier 4"%string, statics0).
Proof.
  destruct (setAtt_getAttVal geo0 "OBJNAM" "DRVAL1" "Pier 4" "" statics0)
    as (H1 & H2 & _).
  split; [apply H1 | apply H2]; discriminate.
Defined.

(** X6.  [S57_resetScamin] takes SCAMIN from the attributes, whatever
    [S57_setScamin] stored: +infinity where the feature has no SCAMIN
    attribute, [S52_atof] of the attribute where it has one. *)
Theorem resetScamin_from_attribute (S52_atof : string -> float) (geo : S57_geo)
    (s0 : float) (v : string) (st : statics) :
  (attribs geo !! "SCAMIN"%string = None ->
   S57_resetScamin S52_atof (snd (S57_setScamin geo s0)) st
   = (infinity, set_scamin geo infinity, st)) /\
  (v <> EMPTY_NUMBER_MARKER -> v <> ""%string ->
   S57_resetScamin S52_atof (S57_setAtt (snd (S57_setScamin geo s0)) "SCAMIN" v) st
   = (S52_atof v, set_scamin (S57_setAtt geo "SCAMIN" v) (S52_atof v), st)).
Proof.
  split.
  - intros Hno. unfold S57_resetScamin.
    rewrite getAttVal_absent by exact Hno. reflexivity.
  - intros Hm He. unfold S57_resetScamin.
    rewrite (setAtt_getAttVal_set (snd (S57_setScamin geo s0)) "SCAMIN" v st Hm He).
    reflexivity.
Qed.

End AttributeRoundTrip.

Lemma resetScamin_from_attribute_witness :
  S57_resetScamin (fun _ => 50000%float) (snd (S57_setScamin geo0 12)) statics0
  = (infinity, set_scamin geo0 infinity, statics0) /\
  S57_resetScamin (fun _ => 50000%float)
    (S57_setAtt (snd (S57_setScamin geo0 12)) "SCAMIN" "50000") statics0
  = (50000%float, set_scamin (S57_setAtt geo0 "SCAMIN" "50000") 50000, statics0).
Proof.
  destruct (resetScamin_from_attribute (fun _ => 50000%float) geo0 12 "50000" statics0)
    as (H1 & H2).
  split; [apply H1; reflexivity | apply H2; discriminate].
Defined.

(** ** PROJ.4 set-up and tear-down *)

Section ProjLifecycle.

Variable pj_init_plus : string -> option Z.
Variable pj_get_release : option string.
Variable pj_transform : option Z -> Z -> list vertex -> Z * list vertex.
Variable fmt_f6 : float -> string.

(** X7.  [S57_donePROJ] forgets the projection string: the next
    [S57_setMercPrj] that PROJ.4 accepts succeeds again and installs its
    own string and handle. *)
Theorem donePROJ_then_setMercPrj (asserts : bool) (st : statics)
    (_attList : attList_t) (lat lon : float) (pj : Z) :
  _attList <> AttFreed ->
  pj_init_plus (templ fmt_f6 lat lon) = Some pj ->
  exists st1 al st2,
    S57_donePROJ st _attList = Some (TRUE, st1, al) /\
    _doInit st1 = true /\ _pjsrc st1 = None /\ _pjdst st1 = None /\
    S57_setMercPrj pj_init_plus fmt_f6 asserts lat lon st1 = Ret (TRUE, st2) /\
    _pjstr st2 = Some (templ fmt_f6 lat lon) /\ _pjdst st2 = Some pj.
Proof.
  intros Hal Hpj. unfold S57_donePROJ.
  destruct _attList as [| str |]; [| | contradiction];
    (eexists _, _, _; split; [reflexivity |]);
    (split; [reflexivity |]); (split; [reflexivity |]); (split; [reflexivity |]);
    unfold S57_setMercPrj; simpl; rewrite Hpj; repeat split.
Qed.

(** X8.  A [S57_setMercPrj] that PROJ.4 refuses keeps the string it built:
    with assertions compiled out it returns FALSE with no handle, and
    every later call is refused as "allready set". *)
Theorem setMercPrj_failure_sticks (lat lon : float) (st : statics)
    (calls : list (float * float)) :
  _pjstr st = None ->
  pj_init_plus (templ fmt_f6 lat lon) = None ->
  S57_setMercPrj pj_init_plus fmt_f6 true lat lon st = Abort /\
  exists st1,
    S57_setMercPrj pj_init_plus fmt_f6 false lat lon st = Ret (FALSE, st1) /\
    _pjdst st1 = None /\
    setMercPrj_all pj_init_plus fmt_f6 false calls st1
    = Ret (map (fun _ => FALSE) calls,
           PRINTF st1 (map (fun _ => "WARNING: Merc projection allready set"%string) calls)).
Proof.
  intros Hstr Hpj. unfold S57_setMercPrj. rewrite Hstr, Hpj. simpl.
  split; [reflexivity |].
  eexists. split; [reflexivity |]. split; [reflexivity |].
  now apply setMercPrj_all_when_set with (str := templ fmt_f6 lat lon).
Qed.

(** X9.  Without a destination projection [S57_geo2prj3dv] converts nothing:
    it stops at the assertion or, with assertions compiled out, returns
    FALSE and leaves the coordinates as they were. *)
Theorem geo2prj3dv_without_destination (npt : Z) (data : list vertex)
    (st : statics) (_attList : attList_t) :
  _pjdst st = None ->
  _attList <> AttFreed ->
  S57_geo2prj3dv pj_init_plus pj_get_release pj_transform true npt data st _attList
  = Some Abort /\
  exists st1 al,
    S57_geo2prj3dv pj_init_plus pj_get_release pj_transform false npt data st _attList
    = Some (Ret (FALSE, data, st1, al)).
Proof.
  intros Hdst Hal. unfold S57_geo2prj3dv, S57_initPROJ, S57_donePROJ.
  destruct (_doInit st) eqn:Hinit; simpl.
  - destruct pj_get_release, (pj_init_plus _argssrc), _attList;
      try contradiction; simpl; rewrite ?Hdst;
      (split; [reflexivity | eexists _, _; reflexivity]).
  - rewrite Hdst. split; [reflexivity | eexists _, _; reflexivity].
Qed.

(** X10.  [S57_donePROJ] frees [_attList] and keeps its address: a
    [S57_initPROJ] that follows does not replace it, and the next
    [S57_donePROJ] hands it to [g_string_free] a second time. *)
Theorem donePROJ_keeps_freed_attList (st : statics) (str : string) (pj : Z) :
  pj_init_plus _argssrc = Some pj ->
  exists st1 st2,
    S57_donePROJ st (AttString str) = Some (TRUE, st1, AttFreed) /\
    S57_initPROJ pj_init_plus pj_get_release st1 AttFreed = Some (TRUE, st2, AttFreed) /\
    S57_donePROJ st2 AttFreed = None.
Proof.
  intros Hpj. eexists _, _. split; [reflexivity |].
  unfold S57_initPROJ. simpl. rewrite Hpj. split; reflexivity.
Qed.

End ProjLifecycle.

Lemma donePROJ_then_setMercPrj_witness :
  exists st1 al st2,
    S57_donePROJ statics_merc (AttString "") = Some (TRUE, st1, al) /\
    _doInit st1 = true /\ _pjsrc st1 = None /\ _pjdst st1 = None /\
    S57_setMercPrj pj_always fmt_zero true 45 (-71) st1 = Ret (TRUE, st2) /\
    _pjstr st2 = Some (templ fmt_zero 45 (-71)) /\ _pjdst st2 = Some 1.
Proof.
  apply (donePROJ_then_setMercPrj pj_always fmt_zero true statics_merc
           (AttString "") 45 (-71) 1); [discriminate | reflexivity].
Defined.

Lemma setMercPrj_failure_sticks_witness :
  S57_setMercPrj (fun _ => None) fmt_zero true 45 (-71) statics0 = Abort /\
  exists st1,
    S57_setMercPrj (fun _ => None) fmt_zero false 45 (-71) statics0 = Ret (FALSE, st1) /\
    _pjdst st1 = None /\
    setMercPrj_all (fun _ => None) fmt_zero false [(0, 0)%float] st1
    = Ret ([FALSE], PRINTF st1 ["WARNING: Merc projection allready set"%string]).
Proof.
  apply (setMercPrj_failure_sticks (fun _ => None) fmt_zero 45 (-71) statics0
           [(0, 0)%float]); reflexivity.
Defined.

Lemma geo2prj3dv_without_destination_witness :
  S57_geo2prj3dv pj_always None (fun _ _ d => (0, d)) true 1 [(45, -71, 0)%float]
    statics0 AttNull = Some Abort /\
  exists st1 al,
    S57_geo2prj3dv pj_always None (fun _ _ d => (0, d)) false 1 [(45, -71, 0)%float]
      statics0 AttNull = Some (Ret (FALSE, [(45, -71, 0)%float], st1, al)).
Proof.
  apply (geo2prj3dv_without_destination pj_always None (fun _ _ d => (0, d)) 1
           [(45, -71, 0)%float] statics0 AttNull); [reflexivity | discriminate].
Defined.

Lemma donePROJ_keeps_freed_attList_witness :
  exists st1 st2,
    S57_donePROJ statics_merc (AttString "") = Some (TRUE, st1, AttFreed) /\
    S57_initPROJ pj_always None st1 AttFreed = Some (TRUE, st2, AttFreed) /\
    S57_donePROJ st2 AttFreed = None.
Proof.
  apply (donePROJ_keeps_freed_attList pj_always None statics_merc "" 1). reflexivity.
Defined.

(** ** The Mercator projection over a session *)

Section ProjSession.

Variable pj_init_plus : string -> option Z.
Variable pj_get_release : option string.
Variable pj_transform : option Z -> Z -> list vertex -> Z * list vertex.
Variable fmt_f6 : float -> string.

(** Where the source projection initialises, a call other than
    [S57_donePROJ] keeps the projection string and the handle of a
    projection that is set, and a [S57_setMercPrj] is refused. *)
Lemma proj_step_keeps (asserts : bool) (c : proj_call) (st st1 : statics)
    (al al1 : attList_t) (ret : Z) (str : string) :
  pj_init_plus _argssrc <> None ->
  without_donePROJ [c] = true ->
  _pjstr st = Some str ->
  proj_step pj_init_plus pj_get_release pj_transform fmt_f6 asserts c (st, al)
  = Some (Ret (ret, (st1, al1))) ->
  _pjstr st1 = _pjstr st /\ _pjdst st1 = _pjdst st /\
  match c with call_setMercPrj _ _ => ret = FALSE | _ => True end.
Proof.
  intros Hsrc Hc Hstr Hstep.
  destruct c as [| | lat lon | npt data]; cbn [proj_step] in Hstep.
  - unfold S57_initPROJ in Hstep.
    destruct (_doInit st); cbn [negb] in Hstep.
    + destruct (pj_init_plus _argssrc) as [pj |]; [| contradiction].
      destruct pj_get_release; injection Hstep as <- <- <-; repeat split.
    + injection Hstep as <- <- <-. repeat split.
  - discriminate Hc.
  - rewrite (setMercPrj_when_set _ _ _ _ _ _ str Hstr) in Hstep.
    cbn in Hstep. injection Hstep as <- <- <-. repeat split.
  - unfold S57_geo2prj3dv, S57_initPROJ in Hstep.
    destruct (_doInit st); cbn [negb] in Hstep.
    + destruct (pj_init_plus _argssrc) as [pj |]; [| contradiction].
      destruct pj_get_release; cbn in Hstep;
        destruct (_pjdst st) as [dst |] eqn:Hdst;
        try (destruct (len data <? npt); [discriminate |];
             destruct (pj_transform _ _ _) as [r out];
             destruct (negb (r =? 0)));
        destruct asserts; cbn in Hstep; try discriminate;
        injection Hstep as <- <- <-; repeat split; cbn; now rewrite ?Hdst.
    + destruct (_pjdst st) as [dst |] eqn:Hdst;
        try (destruct (len data <? npt); [discriminate |];
             destruct (pj_transform _ _ _) as [r out];
             destruct (negb (r =? 0)));
        destruct asserts; cbn in Hstep; try discriminate;
        injection Hstep as <- <- <-; repeat split; cbn; now rewrite ?Hdst.
Qed.

Lemma session_keeps (asserts : bool) (str : string) (calls : list proj_call) :
  pj_init_plus _argssrc <> None ->
  without_donePROJ calls = true ->
  forall (st st2 : statics) (al al2 : attList_t) (rets : list Z),
    _pjstr st = Some str ->
    session pj_init_plus pj_get_release pj_transform fmt_f6 asserts calls (st, al)
    = Some (Ret (rets, (st2, al2))) ->
    _pjstr st2 = _pjstr st /\ _pjdst st2 = _pjdst st /\
    Forall (fun r => r = FALSE) (setMercPrj_results calls rets).
Proof.
  intros Hsrc. induction calls as [| c calls IH]; intros Hc st st2 al al2 rets Hstr Hs.
  - injection Hs as <- <- <-. repeat split. constructor.
  - cbn [session] in Hs.
    destruct (proj_step _ _ _ _ asserts c (st, al)) as [[[ret [st1 al1]] |] |] eqn:Hstep;
      try discriminate.
    destruct (session _ _ _ _ asserts calls (st1, al1)) as [[[rets' [st3 al3]] |] |] eqn:Hrest;
      try discriminate.
    injection Hs as <- <- <-.
    cbn [without_donePROJ forallb] in Hc. apply andb_prop in Hc. destruct Hc as [Hc1 Hc2].
    assert (Hc1' : without_donePROJ [c] = true).
    { cbn [without_donePROJ forallb]. now rewrite Hc1. }
    destruct (proj_step_keeps asserts c st st1 al al1 ret str Hsrc Hc1' Hstr Hstep)
      as (Hs1 & Hd1 & Hret).
    assert (Hstr1 : _pjstr st1 = Some str) by now rewrite Hs1.
    destruct (IH Hc2 st1 st3 al1 al3 rets' Hstr1 Hrest) as (Hs3 & Hd3 & Hall).
    split; [now rewrite Hs3 |]. split; [now rewrite Hd3 |].
    destruct c; cbn [setMercPrj_results]; try exact Hall.
    constructor; [exact Hret | exact Hall].
Qed.

(** C7, amended.  After a first successful [S57_setMercPrj], and as long
    as [S57_donePROJ] is not reached (it is not called, and the source
    projection initialises, so that [S57_initPROJ] does not call it), the
    calls of the session leave the projection string and the PROJ.4 handle
    of the first set as they are, every [S57_setMercPrj] among them returns
    FALSE, and a [S57_setMercPrj] after them returns FALSE and does no more
    than print the warning. *)
Theorem setMercPrj_once_until_donePROJ (asserts : bool) (lat lon : float)
    (st st1 st2 : statics) (al al2 : attList_t) (calls : list proj_call)
    (rets : list Z) :
  S57_setMercPrj pj_init_plus fmt_f6 asserts lat lon st = Ret (TRUE, st1) ->
  pj_init_plus _argssrc <> None ->
  without_donePROJ calls = true ->
  session pj_init_plus pj_get_release pj_transform fmt_f6 asserts calls (st1, al)
  = Some (Ret (rets, (st2, al2))) ->
  _pjstr st1 = Some (templ fmt_f6 lat lon) /\
  _pjstr st2 = _pjstr st1 /\ _pjdst st2 = _pjdst st1 /\
  Forall (fun r => r = FALSE) (setMercPrj_results calls rets) /\
  forall lat' lon' : float,
    S57_setMercPrj pj_init_plus fmt_f6 asserts lat' lon' st2
    = Ret (FALSE, PRINTF st2 ["WARNING: Merc projection allready set"%string]).
Proof.
  intros H Hsrc Hc Hs.
  assert (Hstr : _pjstr st1 = Some (templ fmt_f6 lat lon)).
  { unfold S57_setMercPrj in H.
    destruct (_pjstr st); [discriminate |].
    destruct (pj_init_plus (templ fmt_f6 lat lon)).
    - injection H as <-. reflexivity.
    - destruct asserts; discriminate. }
  destruct (session_keeps asserts _ calls Hsrc Hc st1 st2 al al2 rets Hstr Hs)
    as (Hs2 & Hd2 & Hall).
  split; [exact Hstr |]. split; [exact Hs2 |]. split; [exact Hd2 |].
  split; [exact Hall |].
  intros lat' lon'. apply setMercPrj_when_set with (str := templ fmt_f6 lat lon).
  now rewrite Hs2.
Qed.

End ProjSession.

Lemma setMercPrj_once_until_donePROJ_witness :
  Forall (fun r => r = FALSE)
    (setMercPrj_results
       [call_initPROJ; call_setMercPrj 45 (-71); call_geo2prj3dv 1 [(45, -71, 0)%float];
        call_setMercPrj 0 0]
       [TRUE; FALSE; TRUE; FALSE]) /\
  forall lat' lon' : float,
    S57_setMercPrj pj_always fmt_zero true lat' lon'
      (mk_statics (Some 1) (Some 1) (Some (templ fmt_zero 0 0)) false false
         ["DEBUG: lat:%f, lon:%f [%s]"%string;
          "WARNING: Merc projection allready set"%string;
          "WARNING: Merc projection allready set"%string])
    = Ret (FALSE,
           mk_statics (Some 1) (Some 1) (Some (templ fmt_zero 0 0)) false false
             ["DEBUG: lat:%f, lon:%f [%s]"%string;
              "WARNING: Merc projection allready set"%string;
              "WARNING: Merc projection allready set"%string;
              "WARNING: Merc projection allready set"%string]).
Proof.
  destruct (setMercPrj_once_until_donePROJ pj_always None pj_transform_id fmt_zero true
              0 0 statics_start
              (mk_statics None (Some 1) (Some (templ fmt_zero 0 0)) true false
                 ["DEBUG: lat:%f, lon:%f [%s]"%string])
              (mk_statics (Some 1) (Some 1) (Some (templ fmt_zero 0 0)) false false
                 ["DEBUG: lat:%f, lon:%f [%s]"%string;
                  "WARNING: Merc projection allready set"%string;
                  "WARNING: Merc projection allready set"%string])
              AttNull (AttString "")
              [call_initPROJ; call_setMercPrj 45 (-71);
               call_geo2prj3dv 1 [(45, -71, 0)%float]; call_setMercPrj 0 0]
              [TRUE; FALSE; TRUE; FALSE])
    as (_ & _ & _ & H4 & H5).
  - reflexivity.
  - discriminate.
  - reflexivity.
  - vm_compute. reflexivity.
  - split; [exact H4 | exact H5].
Defined.

(** C7, as the spec words it, fails: with assertions compiled out and a
    PROJ.4 that refuses the source definition, the first
    [S57_geo2prj3dv] after the first set runs [S57_initPROJ], whose
    failure path calls [S57_donePROJ]; the projection string is gone and
    the next [S57_setMercPrj] succeeds. *)
Lemma setMercPrj_twice_in_session :
  ~ setMercPrj_once_per_session pj_no_source None pj_transform_id fmt_zero false
      0 0 statics_start AttNull [call_geo2prj3dv 1 [(45, -71, 0)%float]] 45 (-71).
Proof.
  intros H.
  edestruct H as (st3 & H3 & _); [reflexivity | vm_compute; reflexivity |].
  vm_compute in H3. discriminate H3.
Qed.

(** ** Viewport, frames and the pick list *)

Import S52GLframe.

Section Frames.

Lemma draw_keeps_frame (obj : S52_obj) (px : list col) (st : gl_state) :
  let st' := snd (S52_GL_draw obj px st) in
  _GL_BEGIN st' = _GL_BEGIN st /\ _crnt_GL_cycle st' = _crnt_GL_cycle st /\
  _vp st' = _vp st /\ _fb_pixels_size st' = _fb_pixels_size st /\
  _fb_pixels st' = _fb_pixels st /\ _fb_update st' = _fb_update st.
Proof.
  unfold S52_GL_draw.
  destruct (cycle_eqb S52_GL_PICK (_crnt_GL_cycle st) && _); simpl; repeat split.
Qed.

(** X12.  [S52_GL_end] with another cycle than the one begun is caught by an
    assertion only: with assertions compiled out it prints the warning
    and ends the cycle all the same. *)
Theorem end_out_of_sync (cycle : S52_GL_cycle) (st : gl_state) :
  _GL_BEGIN st = true ->
  cycle <> _crnt_GL_cycle st ->
  S52_GL_end true cycle st = Abort /\
  exists st',
    S52_GL_end false cycle st = Ret (TRUE, st') /\
    _crnt_GL_cycle st' = S52_GL_NONE /\ _GL_BEGIN st' = false /\
    gl_out st' = gl_out st ++ ["WARNING: S52_GL_mode out of sync"%string].
Proof.
  intros Hb Hne.
  assert (E : cycle_eqb cycle (_crnt_GL_cycle st) = false).
  { destruct cycle, (_crnt_GL_cycle st); try reflexivity; now contradiction Hne. }
  unfold S52_GL_end, CHECK_GL_BEGIN. rewrite Hb, E. simpl.
  split; [reflexivity |]. eexists. split; [reflexivity |]. repeat split.
Qed.

Lemma end_out_of_sync_witness :
  S52_GL_end true S52_GL_PICK gl_drawing = Abort /\
  exists st',
    S52_GL_end false S52_GL_PICK gl_drawing = Ret (TRUE, st') /\
    _crnt_GL_cycle st' = S52_GL_NONE /\ _GL_BEGIN st' = false /\
    gl_out st' = gl_out gl_drawing ++ ["WARNING: S52_GL_mode out of sync"%string].
Proof.
  apply (end_out_of_sync S52_GL_PICK gl_drawing); [reflexivity | discriminate].
Defined.

Lemma to_int_to_guint (z : Z) : - 2 ^ 31 <= z < 2 ^ 31 -> to_int (to_guint z) = z.
Proof.
  intros H. unfold to_int, to_guint.
  change (2 ^ 32) with 4294967296. change (2 ^ 31) with 2147483648 in *.
  rewrite Zplus_mod_idemp_l.
  rewrite Z.mod_small by lia. lia.
Qed.

(** X13.  [S52_GL_setViewPort] returns TRUE and touches the view port,
    the pixel buffer and the console only.  It never shrinks the pixel
    buffer: the new size is the larger of the old size and of
    [width * height * _fb_format] as the code computes it, on 32 bits
    without sign (so modulo [2^32]); "pixels buffer resized" is printed
    when the buffer grows and only then.  [S52_GL_getViewPort] then reads
    the four [int] arguments back. *)
Theorem setViewPort_getViewPort (x y width height : Z) (st : gl_state) :
  - 2 ^ 31 <= x < 2 ^ 31 -> - 2 ^ 31 <= y < 2 ^ 31 ->
  - 2 ^ 31 <= width < 2 ^ 31 -> - 2 ^ 31 <= height < 2 ^ 31 ->
  let st1 := snd (S52_GL_setViewPort x y width height st) in
  let need := (to_guint width * to_guint height * _fb_format) mod 2 ^ 32 in
  fst (S52_GL_setViewPort x y width height st) = TRUE /\
  _fb_pixels_size st1 = Z.max (_fb_pixels_size st) need /\
  gl_out st1
  = gl_out st ++ (if _fb_pixels_size st <? need
                  then ["pixels buffer resized (%i)"%string] else []) /\
  (_GL_BEGIN st1, _crnt_GL_cycle st1, _cIdx st1, _objPick st1, _fb_update st1,
   _nobj st1, _ncmd st1)
  = (_GL_BEGIN st, _crnt_GL_cycle st, _cIdx st, _objPick st, _fb_update st,
     _nobj st, _ncmd st) /\
  S52_GL_getViewPort st1 = (TRUE, (x, y, width, height)).
Proof.
  intros Hx Hy Hw Hh st1 need.
  assert (Hneed : to_guint (vp_width (to_guint x, to_guint y, to_guint width, to_guint height)
                            * vp_height (to_guint x, to_guint y, to_guint width, to_guint height)
                            * _fb_format) = need) by reflexivity.
  subst st1. unfold S52_GL_setViewPort. rewrite Hneed.
  destruct (_fb_pixels_size st <? need) eqn:E;
    cbn [fst snd _fb_pixels_size gl_out _GL_BEGIN _crnt_GL_cycle _cIdx _objPick
         _fb_update _nobj _ncmd];
    (split; [reflexivity |]); (split; [| split; [| split]]).
  - apply Z.ltb_lt in E. lia.
  - reflexivity.
  - reflexivity.
  - unfold S52_GL_getViewPort. cbn [_vp]. now rewrite !to_int_to_guint by assumption.
  - apply Z.ltb_ge in E. lia.
  - now rewrite app_nil_r.
  - reflexivity.
  - unfold S52_GL_getViewPort. cbn [_vp]. now rewrite !to_int_to_guint by assumption.
Qed.

Lemma setViewPort_getViewPort_witness :
  fst (S52_GL_setViewPort 0 0 640 480 gl_initial) = TRUE /\
  _fb_pixels_size (snd (S52_GL_setViewPort 0 0 640 480 gl_initial)) = 1228800 /\
  gl_out (snd (S52_GL_setViewPort 0 0 640 480 gl_initial))
  = ["pixels buffer resized (%i)"%string] /\
  S52_GL_getViewPort (snd (S52_GL_setViewPort 0 0 640 480 gl_initial))
  = (TRUE, (0, 0, 640, 480)).
Proof.
  destruct (setViewPort_getViewPort 0 0 640 480 gl_initial) as (H1 & H2 & H3 & _ & H5);
    try lia.
  split; [exact H1 |]. split; [exact H2 |]. split; [exact H3 | exact H5].
Defined.

(** A view port of 32768 x 32768: the product of the code is [2^32], 0 on
    32 bits, and the pixel buffer is left as it is. *)
Example setViewPort_product_wraps :
  _fb_pixels_size (snd (S52_GL_setViewPort 0 0 32768 32768 gl_initial)) = 0 /\
  gl_out (snd (S52_GL_setViewPort 0 0 32768 32768 gl_initial)) = [].
Proof. split; reflexivity. Qed.

End Frames.

(** ** Cursor pick: the list of picked features *)

Section PickList.

Lemma draw_all_pick_list (objs : list (S52_obj * list col)) :
  forall (st : gl_state) (start : nat),
    _crnt_GL_cycle st = S52_GL_PICK ->
    r (_cIdx st) = Z.of_nat start ->
    (start + length objs <= 255)%nat ->
    _objPick (snd (draw_all objs st))
    = _objPick st
      ++ map (fun e => fst (snd e))
           (filter (fun e => under_cursor (Z.of_nat (fst e)) (snd (snd e)) = true)
              (combine (seq (S start) (length objs)) objs)).
Proof.
  induction objs as [| [obj px] objs IH]; intros st start Hc Hidx Hn.
  - simpl. now rewrite app_nil_r.
  - simpl.
    assert (Hidx1 : r (_cIdx (snd (S52_GL_draw obj px st))) = Z.of_nat (S start)).
    { unfold S52_GL_draw. rewrite Hc. simpl.
      destruct (existsb _ _); simpl; rewrite Hidx; unfold to_GLubyte;
        rewrite Z.mod_small; simpl in Hn; lia. }
    assert (Hc1 : _crnt_GL_cycle (snd (S52_GL_draw obj px st)) = S52_GL_PICK).
    { now destruct (draw_keeps_frame obj px st) as (_ & -> & _). }
    specialize (IH (snd (S52_GL_draw obj px st)) (S start) Hc1 Hidx1).
    destruct (draw_all objs (snd (S52_GL_draw obj px st))) as [idxs st2].
    simpl in IH |- *. rewrite IH by (simpl in Hn; lia). clear IH.
    assert (Hpick : _objPick (snd (S52_GL_draw obj px st))
                    = _objPick st
                      ++ (if under_cursor (Z.of_nat (S start)) px then [obj] else [])).
    { unfold S52_GL_draw, under_cursor. rewrite Hc. simpl.
      replace (to_GLubyte (r (_cIdx st) + 1)) with (Z.of_nat (S start)).
      - destruct (existsb _ _); simpl; [reflexivity | now rewrite app_nil_r].
      - rewrite Hidx. unfold to_GLubyte. rewrite Z.mod_small; simpl in Hn; lia. }
    rewrite Hpick, <- app_assoc. f_equal.
    rewrite filter_cons. simpl.
    destruct (under_cursor (Z.of_nat (S start)) px) eqn:E.
    + rewrite decide_True by reflexivity. reflexivity.
    + rewrite decide_False by discriminate. reflexivity.
Qed.

(** X14.  The pick list of a PICK cycle of at most 255 features: the features
    whose own number (1 for the first drawn) is the red value of one of
    the 64 pixels read back after their draw, in draw order. *)
Theorem pick_list (asserts : bool) (gv : Z * Z * Z * Z) (st0 st : gl_state)
    (objs : list (S52_obj * list col)) :
  S52_GL_begin asserts gv S52_GL_PICK st0 = Ret (TRUE, st) ->
  (length objs <= 255)%nat ->
  _objPick (snd (draw_all objs st))
  = map (fun e => fst (snd e))
      (filter (fun e => under_cursor (Z.of_nat (fst e)) (snd (snd e)) = true)
         (numbered objs)).
Proof.
  intros Hb Hn. apply begin_result in Hb as (_ & _ & Hc & Hp).
  destruct (Hp eq_refl) as [Hidx Hpick].
  rewrite (draw_all_pick_list objs st 0 Hc); [| now rewrite Hidx | simpl; lia].
  now rewrite Hpick.
Qed.

Lemma pick_list_witness :
  _objPick (snd (draw_all (firstn 3 objs257) gl_picking))
  = map (fun e => fst (snd e))
      (filter (fun e => under_cursor (Z.of_nat (fst e)) (snd (snd e)) = true)
         (numbered (firstn 3 objs257))).
Proof.
  apply (pick_list true (0, 0, 640, 480) gl_idle gl_picking (firstn 3 objs257));
    [reflexivity | simpl; lia].
Defined.

(** X15.  Outside a PICK cycle [S52_GL_draw] leaves the pick list and the
    colour index as they are. *)
Theorem draw_outside_pick (objs : list (S52_obj * list col)) (st : gl_state) :
  _crnt_GL_cycle st <> S52_GL_PICK ->
  _objPick (snd (draw_all objs st)) = _objPick st /\
  _cIdx (snd (draw_all objs st)) = _cIdx st.
Proof.
  revert st. induction objs as [| [obj px] objs IH]; intros st Hc; [split; reflexivity |].
  simpl.
  specialize (IH (snd (S52_GL_draw obj px st))).
  destruct (draw_all objs (snd (S52_GL_draw obj px st))) as [idxs st2].
  simpl in *.
  assert (H1 : _crnt_GL_cycle (snd (S52_GL_draw obj px st)) = _crnt_GL_cycle st)
    by now destruct (draw_keeps_frame obj px st) as (_ & -> & _).
  rewrite H1 in IH. destruct (IH Hc) as [-> ->].
  assert (E : cycle_eqb S52_GL_PICK (_crnt_GL_cycle st) = false).
  { destruct (_crnt_GL_cycle st); try reflexivity. now contradiction Hc. }
  unfold S52_GL_draw. rewrite E. simpl. split; reflexivity.
Qed.

Lemma draw_outside_pick_witness :
  _objPick (snd (draw_all (firstn 3 objs257) gl_drawing)) = _objPick gl_drawing /\
  _cIdx (snd (draw_all (firstn 3 objs257) gl_drawing)) = _cIdx gl_drawing.
Proof.
  apply (draw_outside_pick (firstn 3 objs257) gl_drawing). discriminate.
Defined.

End PickList.

(** ** Texture sizes and stipple masks *)

Import S52GLtex.

Section MinPOT.

(** Number of binary digits of [v]. *)
Lemma bits_shiftr (v : Z) :
  0 < v ->
  (if Z.shiftr v 1 =? 0 then 0 else Z.log2 (Z.shiftr v 1) + 1) = Z.log2 v.
Proof.
  intros Hv.
  assert (Hs : Z.shiftr v 1 = v / 2) by (rewrite Z.shiftr_div_pow2 by lia; reflexivity).
  destruct (Z.eq_dec v 1) as [-> | Hne]; [reflexivity |].
  assert (H2 : 1 <= v / 2) by (apply Z.div_le_lower_bound; lia).
  destruct (Z.shiftr v 1 =? 0) eqn:E; [apply Z.eqb_eq in E; lia |].
  rewrite Z.log2_shiftr by lia.
  assert (1 <= Z.log2 v) by (apply Z.log2_le_pow2; simpl; lia).
  lia.
Qed.

Lemma minPOT_loop_spec (fuel : nat) :
  forall (value i : Z),
    0 <= value -> 0 < i < 2 ^ 31 ->
    (if value =? 0 then 0 else Z.log2 value + 1) < Z.of_nat fuel ->
    _minPOT_loop fuel value i
    = if i * 2 ^ (if value =? 0 then 0 else Z.log2 value + 1) <? 2 ^ 31
      then Some (i * 2 ^ (if value =? 0 then 0 else Z.log2 value + 1))
      else None.
Proof.
  induction fuel as [| fuel IH]; intros value i Hv Hi Hf.
  - destruct (value =? 0); [lia |]. pose proof (Z.log2_nonneg value). lia.
  - simpl. destruct (value =? 0) eqn:E.
    + rewrite Z.mul_1_r.
      destruct (i <? 2 ^ 31) eqn:Ei; [| apply Z.ltb_ge in Ei; lia].
      rewrite to_guint_small; [reflexivity |]. lia.
    + apply Z.eqb_neq in E. assert (Hpos : 0 < value) by lia.
      pose proof (Z.log2_nonneg value) as Hl.
      rewrite Z.pow_add_r, Z.pow_1_r by lia.
      assert (Hp : 0 < 2 ^ Z.log2 value) by (apply Z.pow_pos_nonneg; lia).
      destruct (i * 2 <? 2 ^ 31) eqn:E2.
      * apply Z.ltb_lt in E2.
        rewrite IH; [| apply Z.shiftr_nonneg; lia | lia |].
        -- rewrite (bits_shiftr value Hpos).
           replace (i * 2 * 2 ^ Z.log2 value) with (i * (2 ^ Z.log2 value * 2)) by ring.
           reflexivity.
        -- rewrite (bits_shiftr value Hpos). lia.
      * apply Z.ltb_ge in E2.
        destruct (i * (2 ^ Z.log2 value * 2) <? 2 ^ 31) eqn:E3; [| reflexivity].
        apply Z.ltb_lt in E3. nia.
Qed.

(** X16.  [_minPOT]: for a value below [2^30] the least power of two above it
    (twice the value when that is a power of two already); the value 0
    gives [(guint) -1]; from [2^30] on the doubling of the [int] [i]
    leaves its range. *)
Theorem minPOT_spec (fuel : nat) (value : Z) :
  (33 <= fuel)%nat ->
  0 < value < 2 ^ 32 ->
  _minPOT fuel 0 = Some (2 ^ 32 - 1) /\
  (value < 2 ^ 30 ->
   _minPOT fuel value = Some (2 ^ (Z.log2 value + 1)) /\
   2 ^ Z.log2 value <= value < 2 ^ (Z.log2 value + 1)) /\
  (2 ^ 30 <= value -> _minPOT fuel value = None).
Proof.
  intros Hf Hv. split; [reflexivity |].
  assert (E : (value =? 0) = false) by (apply Z.eqb_neq; lia).
  assert (Hlog : Z.log2 value < 32) by (apply Z.log2_lt_pow2; lia).
  pose proof (Z.log2_nonneg value) as Hl0.
  assert (Hrun : _minPOT fuel value
                 = if 2 ^ (Z.log2 value + 1) <? 2 ^ 31
                   then Some (2 ^ (Z.log2 value + 1)) else None).
  { unfold _minPOT. rewrite E, minPOT_loop_spec; rewrite ?E; try lia.
    now rewrite Z.mul_1_l. }
  split.
  - intros Hlt.
    assert (Hlog30 : Z.log2 value < 30) by (apply Z.log2_lt_pow2; lia).
    split; [| apply Z.log2_spec; lia].
    rewrite Hrun.
    assert (H : 2 ^ (Z.log2 value + 1) < 2 ^ 31) by (apply Z.pow_lt_mono_r; lia).
    apply Z.ltb_lt in H. now rewrite H.
  - intros Hge. rewrite Hrun.
    assert (Hlog30 : 30 <= Z.log2 value) by (apply Z.log2_le_pow2; lia).
    assert (H : 2 ^ 31 <= 2 ^ (Z.log2 value + 1)) by (apply Z.pow_le_mono_r; lia).
    apply Z.ltb_ge in H. now rewrite H.
Qed.

Lemma minPOT_spec_witness :
  _minPOT 33 0 = Some (2 ^ 32 - 1) /\
  _minPOT 33 600 = Some 1024 /\ _minPOT 33 512 = Some 1024.
Proof.
  destruct (minPOT_spec 33 600) as (H0 & H1 & _); [lia | lia |].
  destruct (minPOT_spec 33 512) as (_ & H2 & _); [lia | lia |].
  split; [exact H0 |].
  split; [apply H1 | apply H2]; lia.
Defined.

End MinPOT.

Section MaskTexture.

Lemma land_bit (m : Z) (bit : Z) :
  0 <= bit ->
  negb (Z.land m (Z.shiftl 1 bit) =? 0) = Z.testbit m bit.
Proof.
  intros Hb.
  assert (H : Z.land m (Z.shiftl 1 bit) = Z.shiftl (Z.b2z (Z.testbit m bit)) bit).
  { apply Z.bits_inj'. intros n Hn.
    rewrite Z.land_spec, !Z.shiftl_spec by lia.
    destruct (Z.eq_dec n bit) as [-> | Hne].
    - rewrite Z.sub_diag. rewrite Z.bit0_odd.
      change (Z.odd 1) with true. rewrite andb_true_r.
      now destruct (Z.testbit m bit).
    - destruct (Z.lt_ge_cases n bit) as [Hlt | Hge].
      + rewrite (Z.testbit_neg_r 1 (n - bit)) by lia.
        rewrite (Z.testbit_neg_r _ (n - bit)) by lia. now rewrite andb_false_r.
      + assert (H1 : Z.testbit 1 (n - bit) = false).
        { apply (Z.bits_above_log2 1 (n - bit)); simpl; lia. }
        rewrite H1, andb_false_r.
        destruct (Z.testbit m bit); simpl; [exact (eq_sym H1) |].
        now rewrite Z.testbit_0_l. }
  rewrite H. destruct (Z.testbit m bit); simpl.
  - rewrite Z.shiftl_1_l.
    destruct (2 ^ bit =? 0) eqn:E; [| reflexivity].
    apply Z.eqb_eq in E. pose proof (Z.pow_pos_nonneg 2 bit). lia.
  - now rewrite Z.shiftl_0_l.
Qed.

Lemma set_alpha_length (m i bit : Z) (rgba : list Z) :
  length (set_alpha m i bit rgba) = length rgba.
Proof.
  unfold set_alpha. destruct (negb _); [apply length_insert | reflexivity].
Qed.

Lemma set_alpha_lookup (m : Z) (i bit k : nat) (rgba : list Z) :
  (32 * i + 4 * bit + 3 < length rgba)%nat ->
  set_alpha m (Z.of_nat i) (Z.of_nat bit) rgba !! k
  = if decide (k = (32 * i + 4 * bit + 3)%nat /\ Z.testbit m (Z.of_nat bit) = true)
    then Some 255
    else rgba !! k.
Proof.
  intros Hlen. unfold set_alpha. rewrite land_bit by lia.
  replace (Z.to_nat (Z.of_nat i * 4 * 8 + (4 * Z.of_nat bit + 3)))
    with (32 * i + 4 * bit + 3)%nat by lia.
  destruct (Z.testbit m (Z.of_nat bit)).
  - destruct (decide _) as [[-> _] | Hne].
    + now apply list_lookup_insert_eq.
    + apply list_lookup_insert_ne. intros <-. now apply Hne.
  - destruct (decide _) as [[_ H] | _]; [discriminate | reflexivity].
Qed.

Lemma mask_byte_length (m i : Z) (rgba : list Z) :
  length (mask_byte m i rgba) = length rgba.
Proof.
  unfold mask_byte. destruct (negb _); [| reflexivity].
  now rewrite !set_alpha_length.
Qed.

Lemma mask_byte_lookup (m : Z) (i j b c : nat) (rgba : list Z) :
  (32 * i + 32 <= length rgba)%nat ->
  (b < 8)%nat -> (c < 4)%nat ->
  mask_byte m (Z.of_nat i) rgba !! (32 * j + 4 * b + c)%nat
  = if decide (j = i /\ c = 3%nat /\ Z.testbit m (Z.of_nat b) = true)
    then Some 255
    else rgba !! (32 * j + 4 * b + c)%nat.
Proof.
  intros Hlen Hb Hc. unfold mask_byte.
  destruct (negb (0 =? m)) eqn:E0.
  - change 7 with (Z.of_nat 7). change 6 with (Z.of_nat 6).
    change 5 with (Z.of_nat 5). change 4 with (Z.of_nat 4) at 1.
    change 3 with (Z.of_nat 3) at 1. change 2 with (Z.of_nat 2) at 1.
    change 1 with (Z.of_nat 1) at 1. change 0 with (Z.of_nat 0) at 1.
    rewrite !set_alpha_lookup by (rewrite ?set_alpha_length; lia).
    destruct (decide (j = i /\ c = 3%nat /\ Z.testbit m (Z.of_nat b) = true))
      as [(-> & -> & Ht) | Hn].
    + repeat (destruct (decide (_ /\ _)) as [_ | ?]; [reflexivity |]).
      exfalso.
      do 8 (destruct b as [| b];
            [match goal with
             | H : ~ (_ /\ _) |- _ => solve [apply H; split; [lia | exact Ht]]
             end |]).
      lia.
    + repeat (destruct (decide (_ /\ _)) as [[Heq Htb] | ?];
              [exfalso; apply Hn; split; [lia |]; split; [lia |];
               match type of Heq with
               | _ = (32 * _ + 4 * ?n + 3)%nat => replace b with n by lia; exact Htb
               end |]).
      reflexivity.
  - apply negb_false_iff, Z.eqb_eq in E0. subst m.
    destruct (decide _) as [(_ & _ & H) | _]; [| reflexivity].
    rewrite Z.testbit_0_l in H. discriminate.
Qed.

Lemma lookup_repeat (size k : nat) :
  (k < size)%nat -> repeat 0 size !! k = Some 0.
Proof.
  revert k. induction size as [| size IH]; intros k Hk; [lia |].
  destruct k as [| k]; [reflexivity |]. simpl. apply IH. lia.
Qed.

Lemma mask_loop_spec (mask : list Z) (size : nat) (n : nat) :
  (n <= length mask)%nat -> (32 * n <= size)%nat ->
  exists rgba,
    mask_loop n mask (repeat 0 size) = Some rgba /\
    length rgba = size /\
    forall (i b c : nat) (m : Z),
      (32 * i + 32 <= size)%nat -> mask !! i = Some m ->
      (b < 8)%nat -> (c < 4)%nat ->
      rgba !! (32 * i + 4 * b + c)%nat
      = Some (if decide (i < n /\ c = 3 /\ Z.testbit m (Z.of_nat b) = true)%nat
              then 255 else 0).
Proof.
  induction n as [| n IH]; intros Hm Hs.
  - exists (repeat 0 size). split; [reflexivity |].
    split; [apply repeat_length |].
    intros i b c m Hi _ Hb Hc.
    rewrite decide_False by lia.
    apply lookup_repeat. lia.
  - destruct IH as (rgba & Hrun & Hlen & Hlook); [lia | lia |].
    destruct (lookup_lt_is_Some_2 mask n) as [mn Hmn]; [lia |].
    exists (mask_byte mn (Z.of_nat n) rgba). cbn [mask_loop]. rewrite Hrun, Hmn.
    split; [reflexivity |]. split; [now rewrite mask_byte_length |].
    intros i b c m Hi Hmi Hb Hc.
    rewrite mask_byte_lookup by lia.
    rewrite (Hlook i b c m Hi Hmi Hb Hc).
    destruct (decide (i = n /\ _)) as [(-> & -> & Ht) | Hn].
    + assert (m = mn) by congruence. subst mn.
      rewrite decide_True; [reflexivity |]. repeat split; [lia | exact Ht].
    + destruct (decide (i < n /\ _)%nat) as [(H1 & H2 & H3) | Hn1].
      * rewrite decide_True; [reflexivity |]. repeat split; [lia | | ]; assumption.
      * rewrite decide_False; [reflexivity |].
        intros (H1 & H2 & H3).
        destruct (Nat.eq_dec i n) as [-> | Hne].
        -- apply Hn. assert (m = mn) by congruence. subst mn. auto.
        -- apply Hn1. repeat split; [lia | |]; assumption.
Qed.

(** X17.  [_1024bitMask2RGBATex] and [_32bitMask2RGBATex] expand each bit of
    the mask to one RGBA pixel: bit [b] of byte [i] is pixel [8*i + b],
    its alpha byte is 255 when the bit is set and 0 when it is not, its
    red, green and blue bytes are 0. *)
Theorem mask_to_texture (mask : list Z) :
  ((128 <= length mask)%nat ->
   exists rgba,
     _1024bitMask2RGBATex mask = Some (TRUE, rgba) /\
     length rgba = 4096%nat /\
     forall (i b c : nat) (m : Z),
       mask !! i = Some m -> (i < 128)%nat -> (b < 8)%nat -> (c < 4)%nat ->
       rgba !! (4 * (8 * i + b) + c)%nat
       = Some (if decide (c = 3%nat /\ Z.testbit m (Z.of_nat b) = true)
               then 255 else 0)) /\
  ((4 <= length mask)%nat ->
   exists rgba,
     _32bitMask2RGBATex mask = Some (TRUE, rgba) /\
     length rgba = 128%nat /\
     forall (i b c : nat) (m : Z),
       mask !! i = Some m -> (i < 4)%nat -> (b < 8)%nat -> (c < 4)%nat ->
       rgba !! (4 * (8 * i + b) + c)%nat
       = Some (if decide (c = 3%nat /\ Z.testbit m (Z.of_nat b) = true)
               then 255 else 0)).
Proof.
  split; intros Hlen.
  - destruct (mask_loop_spec mask (4 * 32 * 8 * 4) (4 * 32))
      as (rgba & Hrun & Hl & Hlook); [lia | lia |].
    exists rgba. unfold _1024bitMask2RGBATex. rewrite Hrun. split; [reflexivity |]. split; [exact Hl |].
    intros i b c m Hm Hi Hb Hc.
    replace (4 * (8 * i + b) + c)%nat with (32 * i + 4 * b + c)%nat by lia.
    rewrite (Hlook i b c m) by (assumption || lia).
    f_equal. destruct (decide (c = 3%nat /\ _)) as [[H1 H2] | Hn].
    + rewrite decide_True; [reflexivity |]. auto.
    + rewrite decide_False; [reflexivity |]. intros (_ & H1 & H2). auto.
  - destruct (mask_loop_spec mask (8 * 4 * 4) 4)
      as (rgba & Hrun & Hl & Hlook); [lia | lia |].
    exists rgba. unfold _32bitMask2RGBATex. rewrite Hrun. split; [reflexivity |]. split; [exact Hl |].
    intros i b c m Hm Hi Hb Hc.
    replace (4 * (8 * i + b) + c)%nat with (32 * i + 4 * b + c)%nat by lia.
    rewrite (Hlook i b c m) by (assumption || lia).
    f_equal. destruct (decide (c = 3%nat /\ _)) as [[H1 H2] | Hn].
    + rewrite decide_True; [reflexivity |]. auto.
    + rewrite decide_False; [reflexivity |]. intros (_ & H1 & H2). auto.
Qed.

Lemma mask_to_texture_witness :
  exists rgba,
    _32bitMask2RGBATex [5; 0; 128; 255] = Some (TRUE, rgba) /\
    length rgba = 128%nat /\
    rgba !! 3%nat = Some 255 /\ rgba !! 7%nat = Some 0 /\ rgba !! 11%nat = Some 255 /\
    rgba !! 10%nat = Some 0.
Proof.
  destruct (mask_to_texture [5; 0; 128; 255]) as [_ H].
  destruct H as (rgba & Hrun & Hl & Hlook); [simpl; lia |].
  exists rgba. split; [exact Hrun |]. split; [exact Hl |].
  split; [| split; [| split]].
  - apply (Hlook 0%nat 0%nat 3%nat 5); [reflexivity | lia ..].
  - apply (Hlook 0%nat 1%nat 3%nat 5); [reflexivity | lia ..].
  - apply (Hlook 0%nat 2%nat 3%nat 5); [reflexivity | lia ..].
  - apply (Hlook 0%nat 2%nat 2%nat 5); [reflexivity | lia ..].
Defined.

End MaskTexture.

(** ** Point in polygon and the centroid of a closed polygon *)

Import S57geom S52GLcentroid.

Section PointInPolygon.

(** An edge whose two ends compare alike with [y] is not counted. *)
Lemma crossing_same_side (x y : float) (p1 p2 : pt3) :
  (y <? snd (fst p1))%float = (y <? snd (fst p2))%float ->
  crossing x y p1 p2 = false.
Proof.
  destruct p1 as [[p1x p1y] p1z], p2 as [[p2x p2y] p2z]. cbn [fst snd].
  intros H. unfold crossing. rewrite H. now rewrite Bool.eqb_reflx.
Qed.

Lemma crossing_quiet (x y : float) (v : list pt3) (p1 p2 : pt3) :
  out_of_y_range y v -> In p1 v -> In p2 v -> crossing x y p1 p2 = false.
Proof.
  intros Hr H1 H2. apply crossing_same_side.
  destruct Hr as [Hr | Hr]; rewrite List.Forall_forall in Hr;
    now rewrite (Hr _ H1), (Hr _ H2).
Qed.

Lemma close_loop_quiet (x y : float) (v : list pt3) :
  forall c : Z,
    (forall p1 p2, In p1 v -> In p2 v -> crossing x y p1 p2 = false) ->
    close_loop x y v c = c.
Proof.
  induction v as [| p1 v IH]; intros c H; [reflexivity |].
  destruct v as [| p2 v]; [reflexivity |].
  cbn [close_loop]. rewrite (H p1 p2) by (simpl; auto).
  apply IH. intros q1 q2 H1 H2. apply H; now right.
Qed.

Lemma open_loop_quiet (x y : float) (v : list pt3) :
  forall (vj : pt3) (c : Z),
    (forall p1, In p1 v -> crossing x y p1 vj = false) ->
    (forall p1 p2, In p1 v -> In p2 v -> crossing x y p1 p2 = false) ->
    open_loop x y vj v c = c.
Proof.
  induction v as [| p1 v IH]; intros vj c Hj H; [reflexivity |].
  cbn [open_loop]. rewrite (Hj p1) by now left.
  apply IH.
  - intros q Hq. apply H; [now right | now left].
  - intros q1 q2 H1 H2. apply H; now right.
Qed.

Lemma last_In (v : list pt3) (p0 : pt3) : v <> [] -> In (List.last v p0) v.
Proof.
  induction v as [| p v IH]; [congruence |]. intros _.
  destruct v as [| q v]; [now left |].
  right. apply IH. discriminate.
Qed.

Lemma last_default (v : list pt3) (d d' : pt3) :
  v <> [] -> List.last v d = List.last v d'.
Proof.
  induction v as [| p v IH]; [congruence |]. intros _.
  destruct v as [| q v]; [reflexivity |].
  apply IH. discriminate.
Qed.

(** X18.  A point to which no vertex of the polygon compares above
    ([p.y > y] is false for every vertex: the point is at or above all of
    them, or its [y] is not a number), or to which every vertex does, is
    outside: [S57_isPtInside] returns 0, for either way of closing the
    polygon and whatever the x coordinates are. *)
Theorem isPtInside_out_of_y_range (v : list pt3) (x y : float) (close : Z) :
  out_of_y_range y v ->
  S57_isPtInside v x y close = 0.
Proof.
  intros Hr. unfold S57_isPtInside.
  destruct (close =? TRUE).
  - apply close_loop_quiet. intros p1 p2. now apply crossing_quiet.
  - destruct v as [| p0 v']; [reflexivity |].
    apply open_loop_quiet.
    + intros p1 H1. apply (crossing_quiet x y (p0 :: v')); [exact Hr | exact H1 |].
      apply last_In. discriminate.
    + intros p1 p2. now apply crossing_quiet.
Qed.

Lemma isPtInside_out_of_y_range_witness :
  S57_isPtInside [(0, 0, 0); (4, 0, 0); (0, 3, 0); (0, 0, 0)]%float 1 3 TRUE = 0 /\
  S57_isPtInside [(0, 0, 0); (4, 0, 0); (0, 3, 0)]%float 1 (-1) FALSE = 0.
Proof.
  split.
  - apply (isPtInside_out_of_y_range [(0, 0, 0); (4, 0, 0); (0, 3, 0); (0, 0, 0)]%float
             1 3 TRUE).
    left. repeat constructor.
  - apply (isPtInside_out_of_y_range [(0, 0, 0); (4, 0, 0); (0, 3, 0)]%float
             1 (-1) FALSE).
    right. repeat constructor.
Defined.

(** What the crossing test does on a vertical edge: the product by
    [c - c] is a zero. *)

Lemma double_value_cases (d : float) :
  double_value d <> None ->
  (exists s, Prim2SF d = S754_zero s) \/ (exists s m e, Prim2SF d = S754_finite s m e).
Proof.
  unfold double_value. destruct (Prim2SF d) as [s | s | | s m e]; intros H;
    try contradiction; eauto.
Qed.

Lemma sub_self_zero (c : float) :
  double_value c <> None -> exists s, Prim2SF (c - c) = S754_zero s.
Proof.
  intros H. rewrite sub_spec.
  destruct (double_value_cases c H) as [[s ->] | (s & m & e & ->)].
  - destruct s; eexists; reflexivity.
  - unfold SF64sub, SFsub. cbv zeta. rewrite Z.sub_diag. eexists. reflexivity.
Qed.

Lemma nonzero_cases (t : float) :
  (0 <? t)%float = true \/ (t <? 0)%float = true ->
  (exists s, Prim2SF t = S754_infinity s) \/ (exists s m e, Prim2SF t = S754_finite s m e).
Proof.
  rewrite !ltb_spec. change (Prim2SF 0) with (S754_zero false).
  destruct (Prim2SF t) as [s | s | | s m e]; intros [H | H];
    try discriminate H; eauto.
Qed.

Lemma SFltb_zero_sign (X : spec_float) (s s' : bool) :
  SFltb X (S754_zero s) = SFltb X (S754_zero s').
Proof. now destruct X as [? | ? | | ? ? ?]. Qed.

Lemma ltb_zero_product (x c u t : float) :
  double_value c <> None ->
  double_value u <> None ->
  (0 <? t)%float = true \/ (t <? 0)%float = true ->
  (x <? (c - c) * u / t + c)%float = (x <? c)%float.
Proof.
  intros Hc Hu Ht.
  rewrite !ltb_spec, add_spec, div_spec, mul_spec.
  destruct (sub_self_zero c Hc) as [s0 ->].
  destruct (double_value_cases u Hu) as [[su ->] | (su & mu & eu & ->)];
    destruct (nonzero_cases t Ht) as [[st ->] | (st & mt & et & ->)];
    destruct (double_value_cases c Hc) as [[sc ->] | (sc & mc & ec & ->)];
    cbn [SF64mul SFmul SF64div SFdiv SF64add SFadd];
    try reflexivity;
    match goal with
    | |- SFltb _ (if ?b then _ else _) = _ => destruct b
    end;
    try reflexivity;
    try (match goal with
         | |- SFltb _ (if ?b then _ else _) = _ => destruct b
         end);
    try reflexivity; apply SFltb_zero_sign.
Qed.

Lemma crossing_vertical (x y c p1y p2y z1 z2 : float) :
  double_value c <> None ->
  double_value (y - p1y)%float <> None ->
  (0 <? p2y - p1y)%float = true \/ (p2y - p1y <? 0)%float = true ->
  crossing x y (c, p1y, z1) (c, p2y, z2)
  = negb (Bool.eqb (y <? p1y)%float (y <? p2y)%float) && (x <? c)%float.
Proof.
  intros Hc Hu Ht. unfold crossing.
  destruct (negb (Bool.eqb _ _)); [| reflexivity].
  cbn [andb]. now apply ltb_zero_product.
Qed.

(** X20.  On the closed ring of an axis-aligned rectangle with corners
    [(a, b)] and [(c, d)], for a point whose [y] compares within
    [b <= y < d], [S57_isPtInside] counts the right side when [x < c] and
    the left side when [x < a]: it returns 1 when exactly one of the two
    comparisons holds, else 0.  This is for finite [a] and [c], for
    differences [y - b] and [y - d] that do not overflow, and for a height
    that is not zero as computed ([d - b > 0], [b - d < 0]). *)
Theorem isPtInside_rectangle (a b c d z x y : float) :
  double_value a <> None -> double_value c <> None ->
  (y <? b)%float = false -> (y <? d)%float = true ->
  double_value (y - b)%float <> None -> double_value (y - d)%float <> None ->
  (0 <? d - b)%float = true -> (b - d <? 0)%float = true ->
  S57_isPtInside (rectangle_ring a b c d z) x y TRUE
  = if xorb (x <? c)%float (x <? a)%float then 1 else 0.
Proof.
  intros Ha Hc Hyb Hyd Hub Hud Hdb Hbd.
  unfold S57_isPtInside, rectangle_ring. change (TRUE =? TRUE) with true. cbv iota.
  cbn [close_loop].
  assert (E1 : crossing x y (a, b, z) (c, b, z) = false).
  { apply crossing_same_side. reflexivity. }
  assert (E3 : crossing x y (c, d, z) (a, d, z) = false).
  { apply crossing_same_side. reflexivity. }
  rewrite E1, E3.
  rewrite (crossing_vertical x y c b d z z Hc Hub (or_introl Hdb)).
  rewrite (crossing_vertical x y a d b z z Ha Hud (or_intror Hbd)).
  rewrite Hyb, Hyd. cbn [Bool.eqb negb andb].
  destruct (x <? c)%float, (x <? a)%float; reflexivity.
Qed.

Lemma isPtInside_rectangle_witness :
  S57_isPtInside (rectangle_ring 0 0 4 2 0) 1 1 TRUE = 1 /\
  S57_isPtInside (rectangle_ring 0 0 4 2 0) 4 1 TRUE = 0 /\
  S57_isPtInside (rectangle_ring 0 0 4 2 0) 0 0 TRUE = 1.
Proof.
  split; [| split].
  - apply (isPtInside_rectangle 0 0 4 2 0 1 1); try reflexivity; discriminate.
  - apply (isPtInside_rectangle 0 0 4 2 0 4 1); try reflexivity; discriminate.
  - apply (isPtInside_rectangle 0 0 4 2 0 0 0); try reflexivity; discriminate.
Defined.

(** Inside the same triangle the test answers 1. *)
Example isPtInside_triangle :
  S57_isPtInside [(0, 0, 0); (4, 0, 0); (0, 3, 0); (0, 0, 0)]%float 1 1 TRUE = 1 /\
  S57_isPtInside [(0, 0, 0); (4, 0, 0); (0, 3, 0)]%float 1 1 FALSE = 1.
Proof. split; reflexivity. Qed.

End PointInPolygon.

Section ClosedCentroid.

(** X22.  Without the centroid heuristic ([S52_MAR_DISP_CENTROIDS] not 1)
    [_getCentroidClose] stops at an assertion only for a polygon of 4
    points or more whose last point differs from the first, where
    assertions are compiled in.  Otherwise it returns: TRUE with exactly
    one point added to [_centroids], which [S57_isPtInside] finds inside
    the polygon (of 4 points or more), or FALSE with [_centroids] as it
    was. *)
Theorem getCentroidClose_result (asserts : bool) (dc : float)
    (fci : list pt3 -> list pt3 -> list pt3) (ppt cs : list pt3) (out : console) :
  (1 =? dc)%float = false ->
  match _getCentroidClose asserts dc fci ppt cs out with
  | Abort =>
      asserts = true /\ 4 <= len ppt /\
      exists p0 : pt3,
        hd_error ppt = Some p0 /\
        ((fst (fst p0) =? fst (fst (List.last ppt p0)))%float = false
         \/ (snd (fst p0) =? snd (fst (List.last ppt p0)))%float = false)
  | Ret (ret, cs', out') =>
      (ret = TRUE /\ 4 <= len ppt /\
       exists cx cy : float,
         cs' = cs ++ [(cx, cy, 0%float)] /\ S57_isPtInside ppt cx cy TRUE = TRUE)
      \/ (ret = FALSE /\ cs' = cs)
  end.
Proof.
  intros Hdc. unfold _getCentroidClose.
  destruct ppt as [| p0 rest].
  - right. split; reflexivity.
  - remember (@cons pt3 p0 rest) as ppt eqn:Eppt.
    destruct p0 as [[offx offy] offz].
    destruct (len ppt <? 4) eqn:Elen.
    + right. split; reflexivity.
    + apply Z.ltb_ge in Elen.
      assert (Hlast : List.last ppt (offx, offy, 0%float) = List.last ppt (offx, offy, offz)).
      { apply last_default. subst ppt. discriminate. }
      assert (Hhd : hd_error ppt = Some (offx, offy, offz)) by now subst ppt.
      rewrite Hlast.
      destruct (List.last ppt (offx, offy, offz)) as [[lx ly] lz] eqn:El.
      destruct (area_loop offx offy ppt (0, 0, 0)%float) as [[atmp xtmp] ytmp].
      assert (Htail : forall out1 : console,
                match
                  (if negb (atmp =? 0)%float
                   then
                     if S57_isPtInside ppt
                          (fst (fst ((xtmp / (3 * atmp) + offx)%float,
                                     (ytmp / (3 * atmp) + offy)%float, 0%float)))
                          (snd (fst ((xtmp / (3 * atmp) + offx)%float,
                                     (ytmp / (3 * atmp) + offy)%float, 0%float)))
                          TRUE =? TRUE
                     then Ret (TRUE, cs ++ [((xtmp / (3 * atmp) + offx)%float,
                                             (ytmp / (3 * atmp) + offy)%float, 0%float)],
                               out1)
                     else if (1 =? dc)%float
                          then Ret (TRUE, fci ppt cs, out1)
                          else Ret (FALSE, cs, out1)
                   else Ret (FALSE, cs, out1))
                with
                | Abort =>
                    asserts = true /\ 4 <= len ppt /\
                    exists p0 : pt3,
                      hd_error ppt = Some p0 /\
                      ((fst (fst p0) =? fst (fst (List.last ppt p0)))%float = false
                       \/ (snd (fst p0) =? snd (fst (List.last ppt p0)))%float = false)
                | Ret (ret, cs', out') =>
                    (ret = TRUE /\ 4 <= len ppt /\
                     exists cx cy : float,
                       cs' = cs ++ [(cx, cy, 0%float)]
                       /\ S57_isPtInside ppt cx cy TRUE = TRUE)
                    \/ (ret = FALSE /\ cs' = cs)
                end).
      { intros out1. cbn [fst snd]. destruct (negb (atmp =? 0)%float).
        - destruct (S57_isPtInside ppt _ _ TRUE =? TRUE) eqn:Ein.
          + left. split; [reflexivity |]. split; [exact Elen |].
            eexists _, _. split; [reflexivity |]. now apply Z.eqb_eq.
          + rewrite Hdc. right. split; reflexivity.
        - right. split; reflexivity. }
      destruct (negb (offx =? lx)%float || negb (offy =? ly)%float) eqn:Eend.
      * destruct asserts; cbn [mbind outcome_bind g_assert_0].
        -- split; [reflexivity |]. split; [exact Elen |].
           exists (offx, offy, offz). split; [exact Hhd |].
           rewrite El. cbn [fst snd].
           apply orb_true_iff in Eend.
           destruct Eend as [E | E]; apply negb_true_iff in E; auto.
        -- cbv beta iota zeta. apply Htail.
      * cbn [mbind outcome_bind]. cbv beta iota zeta. apply Htail.
Qed.

Lemma getCentroidClose_result_witness :
  exists cx cy : float,
    _getCentroidClose true 0 (fun _ cs => cs) (rectangle_ring 0 0 4 2 0) [] []
    = Ret (TRUE, [(cx, cy, 0%float)], []) /\
    S57_isPtInside (rectangle_ring 0 0 4 2 0) cx cy TRUE = TRUE.
Proof.
  pose proof (getCentroidClose_result true 0 (fun _ cs => cs) (rectangle_ring 0 0 4 2 0)
                [] [] eq_refl) as H.
  destruct (_getCentroidClose true 0 (fun _ cs => cs) (rectangle_ring 0 0 4 2 0) [] [])
    as [[[ret cs'] out'] |] eqn:E.
  - vm_compute in E. injection E as <- <- <-.
    destruct H as [(_ & _ & cx & cy & Hcs & Hin) | (Hf & _)]; [| discriminate Hf].
    exists cx, cy. split; [now rewrite Hcs | exact Hin].
  - vm_compute in E. discriminate E.
Defined.

(** The centroid found for the rectangle (0,0)-(4,2) is its centre. *)
Example getCentroidClose_rectangle_4_2 :
  _getCentroidClose true 0 (fun _ cs => cs) (rectangle_ring 0 0 4 2 0) [] []
  = Ret (TRUE, [(2, 1, 0)%float], []).
Proof. vm_compute. reflexivity. Qed.

End ClosedCentroid.

(** ** Chain nodes *)

Import S57chain.

Section ChainNode.

Lemma agree_but_last_cons2 (a a' b b' : vertex) (A B : list vertex) :
  agree_but_last (a :: a' :: A) (b :: b' :: B)
  = agree_x a b && agree_but_last (a' :: A) (b' :: B).
Proof. reflexivity. Qed.

Lemma len_cons {T : Type} (x : T) (l : list T) : len (x :: l) = len l + 1.
Proof. unfold len. rewrite length_cons. lia. Qed.

Lemma same_x_run_spec (A : list vertex) :
  forall (B : list vertex) (i0 : Z),
    length A = length B -> 0 <= i0 -> i0 + len A < 2 ^ 32 ->
    i0 <= same_x_run A B i0 <= i0 + len A /\
    ((len A <=? same_x_run A B i0 - i0 + 1) = agree_but_last A B).
Proof.
  induction A as [| a A IH]; intros B i0 Hlen Hi Hb.
  - destruct B; [| discriminate]. simpl. unfold len; simpl. split; [lia |].
    apply Z.leb_le. lia.
  - destruct B as [| b B]; [discriminate |]. injection Hlen as Hlen.
    rewrite len_cons in *. pose proof (len_nonneg A) as HA.
    assert (Hstep : same_x_run (a :: A) (b :: B) i0
                    = if agree_x a b then same_x_run A B (to_guint (i0 + 1)) else i0).
    { destruct a as [[ax ay] az], b as [[bx by'] bz]. cbn [same_x_run].
      rewrite orb_diag. unfold fne, agree_x. simpl fst.
      now destruct (PrimFloat.eqb ax bx). }
    rewrite Hstep. clear Hstep.
    destruct (agree_x a b) eqn:E.
    + rewrite to_guint_small by lia.
      destruct (IH B (i0 + 1) Hlen) as [Hr Hc]; [lia | lia |].
      split; [lia |].
      destruct A as [| a' A]; destruct B as [| b' B]; try discriminate.
      * simpl. apply Z.leb_le. unfold len; simpl. lia.
      * rewrite agree_but_last_cons2, E. simpl andb. rewrite <- Hc.
        apply eq_true_iff_eq. rewrite !Z.leb_le. lia.
    + split; [lia |].
      destruct A as [| a' A]; destruct B as [| b' B]; try discriminate.
      * simpl. apply Z.leb_le. unfold len; simpl. lia.
      * rewrite agree_but_last_cons2, E. simpl andb. apply Z.leb_gt.
        rewrite len_cons. pose proof (len_nonneg A). lia.
Qed.

(** X23.  What [S57_sameChainNode] decides.  Lines of different lengths are
    told apart.  Two lines of one point each are the same.  Longer lines
    of equal length are the same exactly when their first points agree in
    x and y and all their points but the last agree in x: y is compared
    on the first point only, the last point not at all, and the second
    loop, over the reversed line, does not change the answer. *)
Theorem sameChainNode_spec (A B : list vertex) (p q : vertex) (A' B' : list vertex) :
  A = p :: A' -> B = q :: B' ->
  len A < 2 ^ 32 - 1 ->
  S57_sameChainNode A B
  = Some (if (length A =? length B)%nat
             && ((length A =? 1)%nat || (agree_xy p q && agree_but_last A B))
          then TRUE else FALSE).
Proof.
  intros -> -> Hb. unfold S57_sameChainNode.
  destruct (len (p :: A') =? len (q :: B')) eqn:El.
  - apply Z.eqb_eq in El.
    assert (Hlen : length (p :: A') = length (q :: B')) by exact (Nat2Z.inj _ _ El).
    rewrite (proj2 (Nat.eqb_eq _ _) Hlen), andb_true_l.
    change (negb true) with false. cbv iota.
    destruct p as [[pax pay] paz], q as [[pbx pby] pbz].
    destruct (List.last _ _) as [[bendx bendy] bendz].
    change (agree_xy (pax, pay, paz) (pbx, pby, pbz))
      with (PrimFloat.eqb pax pbx && PrimFloat.eqb pay pby).
    set (A := @cons vertex (pax, pay, paz) A') in *.
    set (B := @cons vertex (pbx, pby, pbz) B') in *.
    destruct (same_x_run_spec A B 0 Hlen) as [Hr Hc]; [lia | lia |].
    rewrite Z.sub_0_r in Hc.
    assert (HA : 1 <= len A).
    { unfold A. rewrite len_cons. pose proof (len_nonneg A'). lia. }
    assert (Hone : (length A =? 1)%nat = (len A <=? 0 + 1)).
    { apply eq_true_iff_eq. rewrite Nat.eqb_eq, Z.leb_le. unfold len in *. lia. }
    rewrite Hone.
    assert (Hres : forall i : Z, 0 <= i <= len A ->
              (if len A <=? to_guint (i + 1) then Some TRUE
               else if len A <=? to_guint (i + 1) then Some TRUE else Some FALSE)
              = Some (if len A <=? i + 1 then TRUE else FALSE)).
    { intros i Hi. rewrite to_guint_small by lia.
      now destruct (len A <=? i + 1). }
    destruct (PrimFloat.eqb pax pbx && PrimFloat.eqb pay pby).
    + cbv zeta. rewrite Hres by lia. rewrite Hc, andb_true_l.
      destruct (agree_but_last A B) eqn:Ea; [now rewrite orb_true_r |].
      rewrite orb_false_r.
      destruct (len A <=? 0 + 1) eqn:E1; [| reflexivity].
      exfalso. apply Z.leb_le in E1. apply Z.leb_gt in Hc. lia.
    + cbv zeta. rewrite Hres by lia. rewrite andb_false_l, orb_false_r.
      reflexivity.
  - apply Z.eqb_neq in El.
    assert (Hlen : (length (p :: A') =? length (q :: B'))%nat = false).
    { apply Nat.eqb_neq. intros H. apply El. unfold len. now rewrite H. }
    rewrite Hlen. reflexivity.
Qed.

(** A line of three points and the same line reversed are not the same
    chain node for [S57_sameChainNode]; a line and a copy with other y
    values after the first point and another last point are. *)
Lemma sameChainNode_spec_witness :
  S57_sameChainNode [(0, 0, 0); (1, 1, 0); (2, 0, 0)]%float
                    [(2, 0, 0); (1, 1, 0); (0, 0, 0)]%float = Some FALSE /\
  S57_sameChainNode [(0, 0, 0); (1, 1, 0); (2, 0, 0)]%float
                    [(0, 0, 0); (1, 7, 0); (9, 9, 0)]%float = Some TRUE.
Proof.
  split.
  - apply (sameChainNode_spec [(0, 0, 0); (1, 1, 0); (2, 0, 0)]%float
             [(2, 0, 0); (1, 1, 0); (0, 0, 0)]%float (0, 0, 0)%float (2, 0, 0)%float
             [(1, 1, 0); (2, 0, 0)]%float [(1, 1, 0); (0, 0, 0)]%float);
      [reflexivity | reflexivity | vm_compute; reflexivity].
  - apply (sameChainNode_spec [(0, 0, 0); (1, 1, 0); (2, 0, 0)]%float
             [(0, 0, 0); (1, 7, 0); (9, 9, 0)]%float (0, 0, 0)%float (0, 0, 0)%float
             [(1, 1, 0); (2, 0, 0)]%float [(1, 7, 0); (9, 9, 0)]%float);
      [reflexivity | reflexivity | vm_compute; reflexivity].
Defined.

End ChainNode.

(** ** Matrix stacks and projection *)

Import S52GLmatrix.

Section MatrixStack.

Variable lm : libm.

Lemma row_in_range (st : matrices) (s : stack_id) (i : Z) :
  well_formed st -> 0 <= i < 8 -> is_Some (row st (s, i)).
Proof.
  intros [Hm Hp] Hi. unfold row, MATRIX_STACK_MAX.
  destruct (Z.leb_spec 0 i); [| lia]. destruct (Z.ltb_spec i 8); [| lia]. simpl.
  apply lookup_lt_is_Some_2. destruct s; simpl; lia.
Qed.

Lemma row_set_row (st : matrices) (p q : stack_id * Z) (m : matrix) :
  is_Some (row st p) ->
  row (set_row st p m) q = if decide (q = p) then Some m else row st q.
Proof.
  destruct p as [s i], q as [s' j]. unfold row, MATRIX_STACK_MAX. intros Hs.
  destruct (decide ((s', j) = (s, i))) as [E | Hne].
  - injection E as -> ->.
    destruct ((0 <=? i) && (i <? 8)) eqn:Er; [| now destruct Hs].
    destruct s; simpl; apply list_lookup_insert_eq;
      now apply lookup_lt_is_Some_1.
  - destruct ((0 <=? j) && (j <? 8)) eqn:Ej; [| reflexivity].
    destruct ((0 <=? i) && (i <? 8)) eqn:Er; [| now destruct Hs].
    apply andb_true_iff in Ej as [Ej1 Ej2]. apply andb_true_iff in Er as [Er1 Er2].
    apply Z.leb_le in Ej1, Er1. apply Z.ltb_lt in Ej2, Er2.
    destruct s, s'; simpl; try reflexivity;
      apply list_lookup_insert_ne; intros E; apply Hne; f_equal; lia.
Qed.

Lemma well_formed_set_row (st : matrices) (p : stack_id * Z) (m : matrix) :
  well_formed st -> well_formed (set_row st p m).
Proof.
  intros [Hm Hp]. destruct p as [[] i]; split; simpl;
    rewrite ?length_insert; assumption.
Qed.

Lemma row_touch (st : matrices) (p q : stack_id * Z) (m : matrix) (b : bool) :
  is_Some (row st p) ->
  row (touch st p m b) q = if decide (q = p) then Some m else row st q.
Proof.
  intros Hs. rewrite <- (row_set_row st p q m Hs). now destruct p as [[] i], q as [[] j].
Qed.

Lemma touch_id (st : matrices) (p : stack_id * Z) (m : matrix) :
  row st p = Some m -> touch st p m (_identity_MODELVIEW st) = st.
Proof.
  destruct st, p as [[] i]; unfold row, touch, set_identity, set_row; simpl;
    destruct ((0 <=? i) && (i <? MATRIX_STACK_MAX)); try discriminate;
    intros H; f_equal; now apply list_insert_id.
Qed.

Lemma touch_touch (st : matrices) (p : stack_id * Z) (m m' : matrix) (b b' : bool) :
  touch (touch st p m b) p m' b' = touch st p m' b'.
Proof.
  destruct p as [[] i]; unfold touch, set_identity, set_row; simpl;
    now rewrite list_insert_insert_eq.
Qed.

Lemma on_crntMat_at (f : matrix -> matrix) (st : matrices) (p : stack_id * Z)
    (m : matrix) :
  _crntMat st = Some p -> row st p = Some m ->
  on_crntMat f st = Returns (set_row st p (f m)).
Proof. intros Hc Hr. unfold on_crntMat. now rewrite Hc, Hr. Qed.

Lemma flag_modelview_touch (st : matrices) (p : stack_id * Z) (m : matrix) (b : bool) :
  exists b', flag_modelview (set_row st p m) b = touch st p m b'.
Proof.
  unfold flag_modelview, touch.
  destruct (GL_MODELVIEW =? _mode (set_row st p m)).
  - now exists b.
  - exists (_identity_MODELVIEW st). now destruct st, p as [[] i].
Qed.

(** One operation writes the current matrix and the modelview flag,
    nothing else. *)
Lemma mat_run_touch (o : mat_op) (st : matrices) (p : stack_id * Z) (m0 : matrix) :
  _crntMat st = Some p -> row st p = Some m0 ->
  exists b, mat_run lm o st = Returns (touch st p (op_matrix lm o m0) b).
Proof.
  intros Hc Hr.
  destruct o; simpl;
    unfold _glLoadIdentity, _glTranslated, _glScaled, _glRotated, _glOrtho;
    rewrite (on_crntMat_at _ st p m0 Hc Hr); cbn [mbind result_bind];
    try (match goal with
         | |- context [flag_modelview (set_row ?s ?q ?m) ?b] =>
             destruct (flag_modelview_touch s q m b) as [b' ->];
             exists b'; reflexivity
         end).
  exists (_identity_MODELVIEW st). unfold touch. f_equal.
  now destruct st, p as [[] i].
Qed.

Lemma mat_runs_touch (ops : list mat_op) :
  forall (st : matrices) (p : stack_id * Z) (m0 : matrix),
    _crntMat st = Some p -> row st p = Some m0 ->
    exists b,
      mat_runs lm ops st
      = Returns (touch st p (fold_left (fun m o => op_matrix lm o m) ops m0) b).
Proof.
  induction ops as [| o ops IH]; intros st p m0 Hc Hr.
  - exists (_identity_MODELVIEW st). simpl. now rewrite touch_id.
  - simpl.
    destruct (mat_run_touch o st p m0 Hc Hr) as (b & ->). cbn [mbind result_bind].
    destruct (IH (touch st p (op_matrix lm o m0) b) p (op_matrix lm o m0))
      as (b' & ->).
    + destruct p as [[] i]; exact Hc.
    + rewrite row_touch by eauto. now rewrite decide_True by reflexivity.
    + rewrite touch_touch. eauto.
Qed.

Lemma glMatrixMode_MODELVIEW (asserts : bool) (st : matrices) :
  _glMatrixMode asserts GL_MODELVIEW st
  = Returns (set_crnt st GL_MODELVIEW (Some (MVM, _mvmTop st))).
Proof. reflexivity. Qed.

Lemma glMatrixMode_PROJECTION (asserts : bool) (st : matrices) :
  _glMatrixMode asserts GL_PROJECTION st
  = Returns (set_crnt st GL_PROJECTION (Some (PJM, _pjmTop st))).
Proof. reflexivity. Qed.

Lemma glPushMatrix_MODELVIEW (asserts : bool) (st : matrices) :
  well_formed st -> _mode st = GL_MODELVIEW ->
  0 <= _mvmTop st < 7 -> 0 <= _pjmTop st < 8 ->
  exists prev,
    row st (MVM, _mvmTop st) = Some prev
    /\ _glPushMatrix asserts st
       = Returns (set_row (set_crnt (set_tops st (_mvmTop st + 1) (_pjmTop st))
                             GL_MODELVIEW (Some (MVM, _mvmTop st + 1)))
                    (MVM, _mvmTop st + 1) prev).
Proof.
  intros Hwf Hmode Hm Hp.
  destruct (row_in_range st MVM (_mvmTop st) Hwf ltac:(lia)) as [prev Hprev].
  destruct (row_in_range st MVM (_mvmTop st + 1) Hwf ltac:(lia)) as [nxt Hnxt].
  exists prev. split; [exact Hprev |].
  unfold _glPushMatrix. rewrite Hmode. 
  change (GL_MODELVIEW =? GL_MODELVIEW) with true. cbn [mbind result_bind].
  rewrite to_int_small by lia.
  cbn [_mvmTop _pjmTop set_tops]. unfold MATRIX_STACK_MAX.
  destruct (Z.leb_spec 8 (_mvmTop st + 1)); [lia |].
  destruct (Z.leb_spec 8 (_pjmTop st)); [lia |].
  cbn [orb mbind result_bind _mode set_tops]. rewrite Hmode.
  change (GL_MODELVIEW =? GL_MODELVIEW) with true. cbn [top _mvmTop set_tops].
  replace (_mvmTop st + 1 - 1) with (_mvmTop st) by lia.
  change (row (set_tops st (_mvmTop st + 1) (_pjmTop st)) (MVM, _mvmTop st))
    with (row st (MVM, _mvmTop st)).
  change (row (set_tops st (_mvmTop st + 1) (_pjmTop st)) (MVM, _mvmTop st + 1))
    with (row st (MVM, _mvmTop st + 1)).
  now rewrite Hprev, Hnxt.
Qed.

Lemma glPushMatrix_PROJECTION (asserts : bool) (st : matrices) :
  well_formed st -> _mode st = GL_PROJECTION ->
  0 <= _mvmTop st < 8 -> 0 <= _pjmTop st < 7 ->
  exists prev,
    row st (PJM, _pjmTop st) = Some prev
    /\ _glPushMatrix asserts st
       = Returns (set_row (set_crnt (set_tops st (_mvmTop st) (_pjmTop st + 1))
                             GL_PROJECTION (Some (PJM, _pjmTop st + 1)))
                    (PJM, _pjmTop st + 1) prev).
Proof.
  intros Hwf Hmode Hm Hp.
  destruct (row_in_range st PJM (_pjmTop st) Hwf ltac:(lia)) as [prev Hprev].
  destruct (row_in_range st PJM (_pjmTop st + 1) Hwf ltac:(lia)) as [nxt Hnxt].
  exists prev. split; [exact Hprev |].
  unfold _glPushMatrix. rewrite Hmode.
  change (GL_PROJECTION =? GL_MODELVIEW) with false.
  change (GL_PROJECTION =? GL_PROJECTION) with true. cbn [mbind result_bind].
  rewrite to_int_small by lia.
  cbn [_mvmTop _pjmTop set_tops]. unfold MATRIX_STACK_MAX.
  destruct (Z.leb_spec 8 (_mvmTop st)); [lia |].
  destruct (Z.leb_spec 8 (_pjmTop st + 1)); [lia |].
  cbn [orb mbind result_bind _mode set_tops]. rewrite Hmode.
  change (GL_MODELVIEW =? GL_PROJECTION) with false. cbn [top _pjmTop set_tops].
  replace (_pjmTop st + 1 - 1) with (_pjmTop st) by lia.
  change (row (set_tops st (_mvmTop st) (_pjmTop st + 1)) (PJM, _pjmTop st))
    with (row st (PJM, _pjmTop st)).
  change (row (set_tops st (_mvmTop st) (_pjmTop st + 1)) (PJM, _pjmTop st + 1))
    with (row st (PJM, _pjmTop st + 1)).
  now rewrite Hprev, Hnxt.
Qed.

Lemma glPopMatrix_MODELVIEW (asserts : bool) (st : matrices) :
  _mode st = GL_MODELVIEW -> 1 <= _mvmTop st < 8 -> 0 <= _pjmTop st ->
  _glPopMatrix asserts st
  = Returns (set_identity (set_tops st (_mvmTop st - 1) (_pjmTop st)) false).
Proof.
  intros Hmode Hm Hp. unfold _glPopMatrix. rewrite Hmode.
  change (GL_MODELVIEW =? GL_MODELVIEW) with true. cbn [mbind result_bind].
  rewrite to_int_small by lia. cbn [_mvmTop _pjmTop set_tops].
  destruct (Z.ltb_spec (_mvmTop st - 1) 0); [lia |].
  destruct (Z.ltb_spec (_pjmTop st) 0); [lia |].
  cbn [orb mbind result_bind]. unfold flag_modelview. cbn [_mode set_tops]. rewrite Hmode.
  reflexivity.
Qed.

Lemma glPopMatrix_PROJECTION (asserts : bool) (st : matrices) :
  _mode st = GL_PROJECTION -> 0 <= _mvmTop st -> 1 <= _pjmTop st < 8 ->
  _glPopMatrix asserts st = Returns (set_tops st (_mvmTop st) (_pjmTop st - 1)).
Proof.
  intros Hmode Hm Hp. unfold _glPopMatrix. rewrite Hmode.
  change (GL_PROJECTION =? GL_MODELVIEW) with false.
  change (GL_PROJECTION =? GL_PROJECTION) with true. cbn [mbind result_bind].
  rewrite to_int_small by lia. cbn [_mvmTop _pjmTop set_tops].
  destruct (Z.ltb_spec (_mvmTop st) 0); [lia |].
  destruct (Z.ltb_spec (_pjmTop st - 1) 0); [lia |].
  cbn [orb mbind result_bind]. unfold flag_modelview. cbn [_mode set_tops]. rewrite Hmode.
  reflexivity.
Qed.

Lemma row_set_crnt (st : matrices) (mode : Z) (c : option (stack_id * Z))
    (q : stack_id * Z) :
  row (set_crnt st mode c) q = row st q.
Proof. now destruct q as [[] j]. Qed.

Lemma row_set_tops (st : matrices) (a b : Z) (q : stack_id * Z) :
  row (set_tops st a b) q = row st q.
Proof. now destruct q as [[] j]. Qed.

Lemma row_set_identity (st : matrices) (b : bool) (q : stack_id * Z) :
  row (set_identity st b) q = row st q.
Proof. now destruct q as [[] j]. Qed.

Lemma well_formed_touch (st : matrices) (p : stack_id * Z) (m : matrix) (b : bool) :
  well_formed st -> well_formed (touch st p m b).
Proof. intros H. now apply (well_formed_set_row st p m) in H. Qed.

Lemma glScaled_touch (x y z : Q) (st : matrices) (p : stack_id * Z) (m0 : matrix) :
  _crntMat st = Some p -> row st p = Some m0 ->
  exists b,
    _glScaled x y z st
    = Returns (touch st p (_multiply m0 (_make_scale_matrix x y z)) b).
Proof.
  intros Hc Hr. unfold _glScaled. rewrite (on_crntMat_at _ st p m0 Hc Hr).
  cbn [mbind result_bind].
  destruct (flag_modelview_touch st p (_multiply m0 (_make_scale_matrix x y z)) false)
    as [b' ->].
  now exists b'.
Qed.

Lemma pushScaletoPixel_state (asserts : bool) (_scalex _scaley dpx dpy : Q)
    (scaleSym : Z) (st : matrices) (prev : matrix) :
  well_formed st -> 0 <= _mvmTop st < 7 -> 0 <= _pjmTop st < 8 ->
  row st (MVM, _mvmTop st) = Some prev ->
  exists st1,
    _pushScaletoPixel asserts _scalex _scaley dpx dpy scaleSym st = Returns (TRUE, st1)
    /\ well_formed st1 /\ _mode st1 = GL_MODELVIEW
    /\ _crntMat st1 = Some (MVM, _mvmTop st + 1)
    /\ _mvmTop st1 = _mvmTop st + 1 /\ _pjmTop st1 = _pjmTop st
    /\ _pjm st1 = _pjm st /\ mat_out st1 = mat_out st
    /\ row st1 (MVM, _mvmTop st + 1)
       = Some (_multiply prev
                 (_make_scale_matrix
                    (if TRUE =? scaleSym then _scalex / (dpx * 100) else _scalex)%Q
                    (if TRUE =? scaleSym then _scaley / (dpy * 100) else _scaley)%Q
                    1))
    /\ forall i, i <> _mvmTop st + 1 -> row st1 (MVM, i) = row st (MVM, i).
Proof.
  intros Hwf Hm Hp Hprev0. unfold _pushScaletoPixel.
  rewrite glMatrixMode_MODELVIEW. cbn [mbind result_bind].
  set (S0 := set_crnt st GL_MODELVIEW (Some (MVM, _mvmTop st))).
  destruct (glPushMatrix_MODELVIEW asserts S0 Hwf eq_refl Hm Hp) as (prev' & Hprev & ->).
  assert (prev' = prev) as ->.
  { unfold S0 in Hprev. rewrite row_set_crnt in Hprev. cbn [_mvmTop set_crnt] in Hprev.
    congruence. }
  cbn [mbind result_bind].
  change (_mvmTop S0) with (_mvmTop st). change (_pjmTop S0) with (_pjmTop st).
  set (p := (MVM, _mvmTop st + 1)).
  set (S1 := set_row _ p prev).
  assert (Hrow0 : is_Some (row st p)) by (apply row_in_range; [exact Hwf | lia]).
  assert (Hrow1 : row S1 p = Some prev).
  { unfold S1. rewrite row_set_row by exact Hrow0. now rewrite decide_True. }
  assert (Hc1 : _crntMat S1 = Some p) by reflexivity.
  match goal with
  | |- context [_glScaled ?a ?b ?c S1] =>
      destruct (glScaled_touch a b c S1 p prev Hc1 Hrow1) as (b0 & Hs)
  end.
  rewrite Hs. cbn [mbind result_bind].
  eexists. split; [reflexivity |].
  split; [apply well_formed_touch, well_formed_set_row; exact Hwf |].
  do 6 (split; [reflexivity |]).
  split.
  - rewrite row_touch by eauto. now rewrite decide_True.
  - intros i Hi. rewrite row_touch by eauto.
    rewrite decide_False by (unfold p; congruence).
    unfold S1. rewrite row_set_row by exact Hrow0.
    rewrite decide_False by (unfold p; congruence).
    unfold S0. now rewrite row_set_crnt, row_set_tops, row_set_crnt.
Qed.

Lemma popScaletoPixel_state (asserts : bool) (st : matrices) :
  1 <= _mvmTop st < 8 -> 0 <= _pjmTop st ->
  _popScaletoPixel asserts st
  = Returns (TRUE, set_identity
                     (set_tops (set_crnt st GL_MODELVIEW (Some (MVM, _mvmTop st)))
                        (_mvmTop st - 1) (_pjmTop st)) false).
Proof.
  intros Hm Hp. unfold _popScaletoPixel.
  rewrite glMatrixMode_MODELVIEW. cbn [mbind result_bind].
  now rewrite glPopMatrix_MODELVIEW.
Qed.

(** X25.  [_pushScaletoPixel], any operations on the current matrix, then
    [_popScaletoPixel] return and leave both stack tops, the projection
    stack, the console and every modelview matrix but the row above the
    top as they were. *)
Theorem scaletoPixel_bracket (asserts : bool) (_scalex _scaley dpx dpy : Q)
    (scaleSym : Z) (st : matrices) :
  well_formed st -> 0 <= _mvmTop st < 7 -> 0 <= _pjmTop st < 8 ->
  exists st1,
    _pushScaletoPixel asserts _scalex _scaley dpx dpy scaleSym st = Returns (TRUE, st1)
    /\ forall ops, exists st2 st3,
         mat_runs lm ops st1 = Returns st2
         /\ _popScaletoPixel asserts st2 = Returns (TRUE, st3)
         /\ _mvmTop st3 = _mvmTop st /\ _pjmTop st3 = _pjmTop st
         /\ _pjm st3 = _pjm st /\ mat_out st3 = mat_out st
         /\ forall i, i <> _mvmTop st + 1 -> row st3 (MVM, i) = row st (MVM, i).
Proof.
  intros Hwf Hm Hp.
  destruct (row_in_range st MVM (_mvmTop st) Hwf ltac:(lia)) as [prev Hprev].
  destruct (pushScaletoPixel_state asserts _scalex _scaley dpx dpy scaleSym st prev
              Hwf Hm Hp Hprev)
    as (st1 & Hpush & Hwf1 & Hmode1 & Hc1 & Ht1 & Hp1 & Hpj1 & Hout1 & Hrow1 & Hframe1).
  exists st1. split; [exact Hpush |]. intros ops.
  destruct (mat_runs_touch ops st1 _ _ Hc1 Hrow1) as (b & Hr).
  eexists _, _. split; [exact Hr |].
  rewrite popScaletoPixel_state;
    [| change (_mvmTop (touch _ (MVM, ?i) _ _)) with (_mvmTop st1); lia
     | change (_pjmTop (touch _ (MVM, ?i) _ _)) with (_pjmTop st1); lia].
  split; [reflexivity |].
  split; [cbn; lia |]. split; [exact Hp1 |]. split; [exact Hpj1 |].
  split; [exact Hout1 |].
  intros i Hi.
  rewrite row_set_identity, row_set_tops, row_set_crnt, row_touch by eauto.
  rewrite decide_False by congruence. now apply Hframe1.
Qed.

(** X26.  [_glPopMatrix] leaves [_crntMat] on the row it has popped: the
    operations issued after it, until the next [_glMatrixMode], return
    and do not change the matrix that is now at the top. *)
Theorem glPopMatrix_keeps_crntMat (asserts : bool) (st : matrices) :
  well_formed st -> _mode st = GL_MODELVIEW ->
  _crntMat st = Some (MVM, _mvmTop st) ->
  1 <= _mvmTop st < 8 -> 0 <= _pjmTop st ->
  exists st1,
    _glPopMatrix asserts st = Returns st1
    /\ _mvmTop st1 = _mvmTop st - 1
    /\ _crntMat st1 = Some (MVM, _mvmTop st1 + 1)
    /\ forall ops, exists st2,
         mat_runs lm ops st1 = Returns st2
         /\ _mvmTop st2 = _mvmTop st1
         /\ row st2 (MVM, _mvmTop st2) = row st (MVM, _mvmTop st - 1).
Proof.
  intros Hwf Hmode Hc Hm Hp.
  rewrite glPopMatrix_MODELVIEW by assumption.
  eexists. split; [reflexivity |]. split; [reflexivity |].
  split; [cbn; rewrite Hc; f_equal; f_equal; lia |].
  intros ops.
  set (S1 := set_identity _ false).
  assert (Hrow : is_Some (row S1 (MVM, _mvmTop st))).
  { unfold S1. rewrite row_set_identity, row_set_tops.
    apply row_in_range; [exact Hwf | lia]. }
  destruct Hrow as [m0 Hrow].
  destruct (mat_runs_touch ops S1 (MVM, _mvmTop st) m0 Hc Hrow) as (b & ->).
  set (m := fold_left _ ops m0).
  eexists. split; [reflexivity |]. split; [reflexivity |].
  cbn [_mvmTop touch set_identity set_row S1 set_tops].
  fold S1. change (row (touch S1 (MVM, _mvmTop st) m b) (MVM, _mvmTop st - 1)
                   = row st (MVM, _mvmTop st - 1)).
  rewrite row_touch by eauto.
  rewrite decide_False by (intros E; injection E; lia).
  unfold S1. now rewrite row_set_identity, row_set_tops.
Qed.

(** X27.  with the modelview stack selected, [_glPushMatrix] returns when
    fewer than seven matrices have been pushed; at the eighth row it stops
    at the assertion, or, with assertions compiled out, copies past the
    end of [_mvm]. *)
Theorem glPushMatrix_bound (asserts : bool) (st : matrices) :
  well_formed st -> _mode st = GL_MODELVIEW ->
  0 <= _mvmTop st < 8 -> 0 <= _pjmTop st < 8 ->
  (_mvmTop st < 7 ->
   exists st', _glPushMatrix asserts st = Returns st' /\ _mvmTop st' = _mvmTop st + 1
               /\ row st' (MVM, _mvmTop st') = row st (MVM, _mvmTop st))
  /\ (_mvmTop st = 7 ->
      _glPushMatrix asserts st = if asserts then Asserts else Undefined).
Proof.
  intros Hwf Hmode Hm Hp. split; intros Ht.
  - destruct (glPushMatrix_MODELVIEW asserts st Hwf Hmode ltac:(lia) Hp)
      as (prev & Hprev & ->).
    eexists. split; [reflexivity |].
    set (st' := set_row _ _ prev).
    assert (Ht' : _mvmTop st' = _mvmTop st + 1) by reflexivity.
    split; [exact Ht' |]. rewrite Ht', Hprev. unfold st'.
    rewrite row_set_row; [now rewrite decide_True by reflexivity |].
    rewrite row_set_crnt, row_set_tops. apply row_in_range; [exact Hwf | lia].
  - unfold _glPushMatrix. rewrite Hmode, Ht.
    change (GL_MODELVIEW =? GL_MODELVIEW) with true. cbn [mbind result_bind].
    change (to_int (7 + 1)) with 8. cbn [_mvmTop set_tops].
    change (MATRIX_STACK_MAX <=? 8) with true. cbn [orb].
    destruct asserts; [reflexivity |].
    cbn [assert_0 mbind result_bind _mode mat_PRINTF set_tops]. rewrite Hmode.
    change (GL_MODELVIEW =? GL_MODELVIEW) with true.
    cbn [top _mvmTop mat_PRINTF set_tops].
    change (row _ (MVM, 8)) with (@None matrix).
    now destruct (row _ (MVM, 8 - 1)).
Qed.

Lemma result_bind_assoc {A B C : Type} (m : result A) (f : A -> result B)
    (g : B -> result C) :
  (m ≫= f) ≫= g = m ≫= (fun a => f a ≫= g).
Proof. now destruct m. Qed.

(** The state [_glMatrixSet] leaves. *)
Lemma glMatrixSet_state (asserts : bool) (vw : view) (vp : Z * Z * Z * Z)
    (_north : Q) (vpcoord : VP) (lft rgt btm tp : Q) (st : matrices) :
  well_formed st -> 0 <= _mvmTop st < 7 -> 0 <= _pjmTop st < 7 ->
  vp_extent vw vp vpcoord = Some (lft, rgt, btm, tp) -> ~ lft == rgt ->
  exists st1,
    _glMatrixSet asserts lm vw vp _north vpcoord st = Returns (TRUE, st1)
    /\ well_formed st1 /\ _mode st1 = GL_MODELVIEW
    /\ _crntMat st1 = Some (MVM, _mvmTop st + 1)
    /\ _mvmTop st1 = _mvmTop st + 1 /\ _pjmTop st1 = _pjmTop st + 1
    /\ mat_out st1 = mat_out st
    /\ _identity_MODELVIEW st1 = true
    /\ row st1 (MVM, _mvmTop st + 1) = Some identity
    /\ row st1 (PJM, _pjmTop st + 1)
       = Some (fold_left (fun m o => op_matrix lm o m)
                 [Ortho lft rgt btm tp Z_CLIP_PLANE (- Z_CLIP_PLANE);
                  Translated ((lft + rgt) / 2) ((btm + tp) / 2) 0;
                  Rotated _north 0 0 1;
                  Translated (- (lft + rgt) / 2) (- (btm + tp) / 2) 0]
                 identity)
    /\ forall q, q <> (MVM, _mvmTop st + 1) -> q <> (PJM, _pjmTop st + 1) ->
                 row st1 q = row st q.
Proof.
  intros Hwf Hm Hp Hext Hne. unfold _glMatrixSet. rewrite Hext.
  assert (Hz : Qeq_bool 0 lft && Qeq_bool 0 rgt && Qeq_bool 0 btm && Qeq_bool 0 tp
               = false).
  { destruct (Qeq_bool 0 lft) eqn:E1; [| reflexivity].
    destruct (Qeq_bool 0 rgt) eqn:E2; [| reflexivity].
    apply Qeq_bool_iff in E1, E2. exfalso. apply Hne. now rewrite <- E1, <- E2. }
  rewrite Hz. cbn [mbind result_bind].
  rewrite glMatrixMode_PROJECTION. cbn [mbind result_bind].
  set (S1 := set_crnt st GL_PROJECTION (Some (PJM, _pjmTop st))).
  destruct (glPushMatrix_PROJECTION asserts S1 Hwf eq_refl ltac:(cbn; lia) Hp)
    as (prevP & HprevP & ->).
  cbn [mbind result_bind].
  change (_mvmTop S1) with (_mvmTop st). change (_pjmTop S1) with (_pjmTop st).
  set (pP := (PJM, _pjmTop st + 1)). set (S2 := set_row _ pP prevP).
  assert (HrowP0 : is_Some (row st pP)) by (apply row_in_range; [exact Hwf | lia]).
  assert (HrowP : row S2 pP = Some prevP).
  { unfold S2. rewrite row_set_row by exact HrowP0. now rewrite decide_True. }
  set (ops := [LoadIdentity;
               Ortho lft rgt btm tp Z_CLIP_PLANE (- Z_CLIP_PLANE);
               Translated ((lft + rgt) / 2) ((btm + tp) / 2) 0;
               Rotated _north 0 0 1;
               Translated (- (lft + rgt) / 2) (- (btm + tp) / 2) 0]).
  match goal with
  | |- context [_glLoadIdentity S2 ≫= ?k] =>
      match k with
      | (fun st3 => _ ≫= (fun st4 => _ ≫= (fun st5 => _ ≫= (fun st6 => _ ≫= ?k'))))
        => assert (Hchain : _glLoadIdentity S2 ≫= k = mat_runs lm ops S2 ≫= k')
      end
  end.
  { unfold ops. cbn [mat_runs mat_run].
    rewrite !result_bind_assoc. 
    destruct (_glLoadIdentity S2) as [s3 | |]; [| reflexivity ..]. cbn [mbind result_bind].
    rewrite !result_bind_assoc.
    destruct (_glOrtho _ _ _ _ _ _ s3) as [s4 | |]; [| reflexivity ..].
    cbn [mbind result_bind]. rewrite !result_bind_assoc.
    destruct (_glTranslated _ _ _ s4) as [s5 | |]; [| reflexivity ..].
    cbn [mbind result_bind]. rewrite !result_bind_assoc.
    destruct (_glRotated _ _ _ _ _ s5) as [s6 | |]; [| reflexivity ..].
    cbn [mbind result_bind]. rewrite !result_bind_assoc.
    destruct (_glTranslated _ _ _ s6) as [s7 | |]; reflexivity. }
  rewrite Hchain. clear Hchain.
  destruct (mat_runs_touch ops S2 pP prevP eq_refl HrowP) as (b & ->).
  cbn [mbind result_bind].
  set (P := fold_left _ ops prevP).
  set (S7 := touch S2 pP P b).
  rewrite glMatrixMode_MODELVIEW. cbn [mbind result_bind].
  set (S8 := set_crnt S7 GL_MODELVIEW (Some (MVM, _mvmTop S7))).
  assert (Hwf8 : well_formed S8).
  { apply (well_formed_touch S2 pP P b), well_formed_set_row. exact Hwf. }
  destruct (glPushMatrix_MODELVIEW asserts S8 Hwf8 eq_refl Hm ltac:(cbn; lia))
    as (prevM & HprevM & ->).
  cbn [mbind result_bind].
  change (_mvmTop S8) with (_mvmTop st). change (_pjmTop S8) with (_pjmTop st + 1).
  set (pM := (MVM, _mvmTop st + 1)). set (S9 := set_row _ pM prevM).
  assert (HrowM0 : is_Some (row S8 pM)) by (apply row_in_range; [exact Hwf8 | lia]).
  assert (HrowM : row S9 pM = Some prevM).
  { unfold S9. rewrite row_set_row by exact HrowM0. now rewrite decide_True. }
  unfold _glLoadIdentity. rewrite (on_crntMat_at _ S9 pM prevM eq_refl HrowM).
  cbn [mbind result_bind]. unfold flag_modelview.
  change (GL_MODELVIEW =? _mode (set_row S9 pM identity)) with true.
  eexists. split; [reflexivity |].
  split; [apply well_formed_set_row, well_formed_set_row; exact Hwf8 |].
  do 6 (split; [reflexivity |]).
  assert (HS9 : forall q, q <> pM -> row S9 q = row S7 q).
  { intros q Hq. unfold S9. rewrite row_set_row by exact HrowM0.
    rewrite decide_False by exact Hq. unfold S8.
    now rewrite row_set_crnt, row_set_tops, row_set_crnt. }
  assert (HS7 : row S7 pP = Some P).
  { unfold S7. rewrite row_touch by eauto. now rewrite decide_True. }
  split; [| split].
  - rewrite row_set_identity, row_set_row by eauto. now rewrite decide_True.
  - rewrite row_set_identity, row_set_row by eauto.
    rewrite decide_False by discriminate. rewrite HS9 by discriminate.
    rewrite HS7. reflexivity.
  - intros q Hq1 Hq2. rewrite row_set_identity, row_set_row by eauto.
    rewrite decide_False by exact Hq1. rewrite HS9 by exact Hq1.
    unfold S7. rewrite row_touch by eauto. rewrite decide_False by exact Hq2.
    unfold S2. rewrite row_set_row by exact HrowP0.
    rewrite decide_False by exact Hq2.
    unfold S1. now rewrite row_set_crnt, row_set_tops, row_set_crnt.
Qed.

Lemma glMatrixDel_state (asserts : bool) (vpcoord : VP) (st : matrices) :
  1 <= _mvmTop st < 8 -> 1 <= _pjmTop st < 8 ->
  exists st',
    _glMatrixDel asserts vpcoord st = Returns (TRUE, st')
    /\ _mvmTop st' = _mvmTop st - 1 /\ _pjmTop st' = _pjmTop st - 1
    /\ _mvm st' = _mvm st /\ _pjm st' = _pjm st /\ mat_out st' = mat_out st.
Proof.
  intros Hm Hp. unfold _glMatrixDel.
  rewrite glMatrixMode_PROJECTION. cbn [mbind result_bind].
  rewrite glPopMatrix_PROJECTION; [| reflexivity | cbn; lia | cbn; lia].
  cbn [mbind result_bind].
  rewrite glMatrixMode_MODELVIEW. cbn [mbind result_bind].
  rewrite glPopMatrix_MODELVIEW; [| reflexivity | cbn; lia | cbn; lia].
  cbn [mbind result_bind]. eexists. split; [reflexivity |].
  repeat split.
Qed.

(** X29.  [_glMatrixSet], any operations on the current matrix, then
    [_glMatrixDel] return and leave both stack tops, the console and every
    matrix but the two rows above the tops as they were. *)
Theorem glMatrixSet_glMatrixDel (asserts : bool) (vw : view) (vp : Z * Z * Z * Z)
    (_north : Q) (vpcoord : VP) (lft rgt btm tp : Q) (st : matrices) :
  well_formed st -> 0 <= _mvmTop st < 7 -> 0 <= _pjmTop st < 7 ->
  vp_extent vw vp vpcoord = Some (lft, rgt, btm, tp) -> ~ lft == rgt ->
  exists st1,
    _glMatrixSet asserts lm vw vp _north vpcoord st = Returns (TRUE, st1)
    /\ _identity_MODELVIEW st1 = true
    /\ row st1 (MVM, _mvmTop st1) = Some identity
    /\ forall ops, exists st2 st3,
         mat_runs lm ops st1 = Returns st2
         /\ _glMatrixDel asserts vpcoord st2 = Returns (TRUE, st3)
         /\ _mvmTop st3 = _mvmTop st /\ _pjmTop st3 = _pjmTop st
         /\ mat_out st3 = mat_out st
         /\ forall q, q <> (MVM, _mvmTop st + 1) -> q <> (PJM, _pjmTop st + 1) ->
                      row st3 q = row st q.
Proof.
  intros Hwf Hm Hp Hext Hne.
  destruct (glMatrixSet_state asserts vw vp _north vpcoord lft rgt btm tp st
              Hwf Hm Hp Hext Hne)
    as (st1 & Hset & Hwf1 & Hmode1 & Hc1 & Ht1 & Hp1 & Hout1 & Hid1 & HrowM & HrowP
        & Hframe).
  exists st1. split; [exact Hset |]. split; [exact Hid1 |].
  rewrite Ht1. split; [exact HrowM |]. intros ops.
  destruct (mat_runs_touch ops st1 _ _ Hc1 HrowM) as (b & Hr).
  eexists. 
  destruct (glMatrixDel_state asserts vpcoord
              (touch st1 (MVM, _mvmTop st + 1)
                 (fold_left (fun m o => op_matrix lm o m) ops identity) b))
    as (st3 & Hdel & Ht3 & Hp3 & Hmvm3 & Hpjm3 & Hout3).
  { change (_mvmTop (touch _ (MVM, ?i) _ _)) with (_mvmTop st1). lia. }
  { change (_pjmTop (touch _ (MVM, ?i) _ _)) with (_pjmTop st1). lia. }
  exists st3. split; [exact Hr |]. split; [exact Hdel |].
  split; [rewrite Ht3; cbn; lia |]. split; [rewrite Hp3; cbn; lia |].
  split; [rewrite Hout3; exact Hout1 |].
  intros q Hq1 Hq2.
  transitivity (row (touch st1 (MVM, _mvmTop st + 1)
                       (fold_left (fun m o => op_matrix lm o m) ops identity) b) q).
  - unfold row. destruct q as [[] j]; cbn [stack]; now rewrite ?Hmvm3, ?Hpjm3.
  - rewrite row_touch by eauto. rewrite decide_False by exact Hq1.
    now apply Hframe.
Qed.

End MatrixStack.

Lemma scaletoPixel_bracket_witness :
  exists st1,
    _pushScaletoPixel true 1 1 1 1 TRUE matrices_initial = Returns (TRUE, st1)
    /\ forall ops, exists st2 st3,
         mat_runs libm_east ops st1 = Returns st2
         /\ _popScaletoPixel true st2 = Returns (TRUE, st3)
         /\ _mvmTop st3 = _mvmTop matrices_initial
         /\ _pjmTop st3 = _pjmTop matrices_initial
         /\ _pjm st3 = _pjm matrices_initial
         /\ mat_out st3 = mat_out matrices_initial
         /\ forall i, i <> _mvmTop matrices_initial + 1 ->
                      row st3 (MVM, i) = row matrices_initial (MVM, i).
Proof.
  apply (scaletoPixel_bracket libm_east true 1 1 1 1 TRUE matrices_initial);
    [split; reflexivity | simpl; lia | simpl; lia].
Defined.

Lemma glPopMatrix_keeps_crntMat_witness :
  exists st1,
    _glPopMatrix true matrices_pushed = Returns st1
    /\ _mvmTop st1 = _mvmTop matrices_pushed - 1
    /\ _crntMat st1 = Some (MVM, _mvmTop st1 + 1)
    /\ forall ops, exists st2,
         mat_runs libm_east ops st1 = Returns st2
         /\ _mvmTop st2 = _mvmTop st1
         /\ row st2 (MVM, _mvmTop st2)
            = row matrices_pushed (MVM, _mvmTop matrices_pushed - 1).
Proof.
  apply (glPopMatrix_keeps_crntMat libm_east true matrices_pushed);
    [split; reflexivity | reflexivity | reflexivity | simpl; lia | simpl; lia].
Defined.

Lemma glPushMatrix_bound_witness :
  (_mvmTop matrices_pushed < 7 ->
   exists st', _glPushMatrix true matrices_pushed = Returns st'
               /\ _mvmTop st' = _mvmTop matrices_pushed + 1
               /\ row st' (MVM, _mvmTop st')
                  = row matrices_pushed (MVM, _mvmTop matrices_pushed))
  /\ (_mvmTop matrices_pushed = 7 ->
      _glPushMatrix true matrices_pushed = if true then Asserts else Undefined).
Proof.
  apply (glPushMatrix_bound true matrices_pushed);
    [split; reflexivity | reflexivity | simpl; lia | simpl; lia].
Defined.

Lemma glMatrixSet_glMatrixDel_witness :
  exists st1,
    _glMatrixSet true libm_east view0 (0, 0, 640, 480) 0 VP_PRJ matrices_initial
    = Returns (TRUE, st1)
    /\ _identity_MODELVIEW st1 = true
    /\ row st1 (MVM, _mvmTop st1) = Some identity
    /\ forall ops, exists st2 st3,
         mat_runs libm_east ops st1 = Returns st2
         /\ _glMatrixDel true VP_PRJ st2 = Returns (TRUE, st3)
         /\ _mvmTop st3 = _mvmTop matrices_initial
         /\ _pjmTop st3 = _pjmTop matrices_initial
         /\ mat_out st3 = mat_out matrices_initial
         /\ forall q, q <> (MVM, _mvmTop matrices_initial + 1) ->
                      q <> (PJM, _pjmTop matrices_initial + 1) ->
                      row st3 q = row matrices_initial q.
Proof.
  apply (glMatrixSet_glMatrixDel libm_east true view0 (0, 0, 640, 480) 0 VP_PRJ
           5 15 5 15 matrices_initial);
    [split; reflexivity | simpl; lia | simpl; lia | reflexivity | discriminate].
Defined.
